(** * MembraCon proposal system: the decision-and-pricing engine

    A shallow embedding of the engine's JavaScript sources

      - [js/data/technologies.js]     (technology registry, chain composer)
      - [js/simulator/calculations.js] (simulator calculations)
      - [js/simulator/simulator.js]    (the [Simulator.run] controller)
      - [proposal-engine.js]           (specification, solution engine, pricing)
      - [js/core/utils.js]             (escaping and hashing helpers)

    together with the properties stated about them.

    Numbers.  A JavaScript Number is modelled by [JsNum.num]: an exact
    rational, or one of the three special values [+Infinity], [-Infinity]
    and [NaN].  Binary rounding of IEEE-754 doubles is abstracted (finite
    results are exact), and zero carries no sign; everything else
    (propagation of [NaN], division by zero, comparisons with [NaN],
    truthiness) follows the language.  The theorems stated of the program
    are those that do not depend on the rounding: order and range facts
    that every correctly rounded operation preserves, and relations
    between values the program computes; the lemmas that lead to them
    reason on the exact values.  Where the rounding decides the control
    flow, the counter of the margin loop of [findOptimalPrice], the
    numbers are binary64 ([float]) and are added and compared as such. *)

From Stdlib Require Import QArith Qround Qabs ZArith NArith List String Ascii Bool.
From Stdlib Require Import Lqa Lia Permutation DecimalString Sorted Floats.
Import ListNotations.

(* A decimal literal of type [float] denotes the nearest binary64 number, as
   in the source. *)
Set Warnings "-inexact-float".

Local Open Scope string_scope.

(* ------------------------------------------------------------------ *)
(** ** JavaScript numbers *)

Module JsNum.

Local Open Scope Q_scope.

Inductive num : Type :=
| Fin (q : Q)
| PInf
| NInf
| NaN.

Arguments Fin q%_Q.

Definition neg (x : num) : num :=
  match x with
  | Fin q => Fin (- q)
  | PInf => NInf
  | NInf => PInf
  | NaN => NaN
  end.

Definition add (x y : num) : num :=
  match x, y with
  | NaN, _ | _, NaN => NaN
  | Fin a, Fin b => Fin (a + b)
  | PInf, NInf | NInf, PInf => NaN
  | PInf, _ | _, PInf => PInf
  | NInf, _ | _, NInf => NInf
  end.

Definition sub (x y : num) : num := add x (neg y).

Definition mul (x y : num) : num :=
  match x, y with
  | NaN, _ | _, NaN => NaN
  | Fin a, Fin b => Fin (a * b)
  | Fin a, PInf | PInf, Fin a =>
      match a ?= 0 with Eq => NaN | Gt => PInf | Lt => NInf end
  | Fin a, NInf | NInf, Fin a =>
      match a ?= 0 with Eq => NaN | Gt => NInf | Lt => PInf end
  | PInf, PInf | NInf, NInf => PInf
  | PInf, NInf | NInf, PInf => NInf
  end.

(** [x / y]; a finite numerator over zero gives an infinity of the
    numerator's sign, [0 / 0] gives [NaN]. *)
Definition div (x y : num) : num :=
  match x, y with
  | NaN, _ | _, NaN => NaN
  | Fin a, Fin b =>
      if Qeq_bool b 0
      then match a ?= 0 with Eq => NaN | Gt => PInf | Lt => NInf end
      else Fin (a / b)
  | Fin _, PInf | Fin _, NInf => Fin 0
  | PInf, Fin b => if Qle_bool 0 b then PInf else NInf
  | NInf, Fin b => if Qle_bool 0 b then NInf else PInf
  | _, _ => NaN
  end.

(** Relational operators: every comparison with [NaN] is [false]. *)
Definition le (x y : num) : bool :=
  match x, y with
  | NaN, _ | _, NaN => false
  | Fin a, Fin b => Qle_bool a b
  | NInf, _ => true
  | _, PInf => true
  | _, _ => false
  end.

Definition lt (x y : num) : bool :=
  match x, y with
  | NaN, _ | _, NaN => false
  | Fin a, Fin b => negb (Qle_bool b a)
  | PInf, _ => false
  | _, NInf => false
  | _, _ => true
  end.

Definition ge (x y : num) : bool := le y x.
Definition gt (x y : num) : bool := lt y x.

(** Strict equality [===] on numbers. *)
Definition eqb (x y : num) : bool :=
  match x, y with
  | Fin a, Fin b => Qeq_bool a b
  | PInf, PInf | NInf, NInf => true
  | _, _ => false
  end.

(** ToBoolean: [0] and [NaN] are falsy. *)
Definition truthy (x : num) : bool :=
  match x with
  | Fin q => negb (Qeq_bool q 0)
  | NaN => false
  | _ => true
  end.

(** [x || d] on numbers. *)
Definition or_else (x d : num) : num := if truthy x then x else d.

Definition min (x y : num) : num :=
  match x, y with
  | NaN, _ | _, NaN => NaN
  | _, _ => if le x y then x else y
  end.

Definition max (x y : num) : num :=
  match x, y with
  | NaN, _ | _, NaN => NaN
  | _, _ => if le x y then y else x
  end.

(** [Math.round]: the integer nearest to [x], ties towards [+Infinity]. *)
Definition round (x : num) : num :=
  match x with
  | Fin q => Fin (inject_Z (Qfloor (q + (1 # 2))))
  | _ => x
  end.

(** [Math.pow (x, n)] for a non-negative integer exponent. *)
Fixpoint pow (x : num) (n : nat) : num :=
  match n with
  | O => Fin 1
  | S k => mul x (pow x k)
  end.

Definition finite (x : num) : bool :=
  match x with Fin _ => true | _ => false end.

(** [x] is a finite number of the closed unit interval. *)
Definition in01 (x : num) : Prop :=
  match x with
  | Fin q => (0 <= q /\ q <= 1)%Q
  | _ => False
  end.

Definition in01b (x : num) : bool := le (Fin 0) x && le x (Fin 1).

(** The number a binary64 value denotes. *)
Definition of_float (x : float) : num :=
  match Prim2SF x with
  | S754_zero _ => Fin 0
  | S754_infinity s => if s then NInf else PInf
  | S754_nan => NaN
  | S754_finite s m e =>
      let z := if s then Z.neg m else Z.pos m in
      Fin (if (0 <=? e)%Z then inject_Z (z * 2 ^ e)
           else z # (2 ^ Z.to_pos (- e)))
  end.

End JsNum.

Import JsNum.

Declare Scope js_scope.
Delimit Scope js_scope with js.
Bind Scope js_scope with num.
Infix "+" := add : js_scope.
Infix "-" := sub : js_scope.
Infix "*" := mul : js_scope.
Infix "/" := div : js_scope.
Infix "<=?" := le : js_scope.
Infix "<?" := lt : js_scope.
Infix ">=?" := ge : js_scope.
Infix ">?" := gt : js_scope.
Infix "||" := or_else : js_scope.

Arguments Fin q%_Q.

Local Open Scope js_scope.

(* ------------------------------------------------------------------ *)
(** ** Technology registry ([js/data/technologies.js]) *)

(** The numeric attributes of a registry entry.  The descriptive texts of an
    entry (full name, description, applications, operating ranges) are
    display data and take no part in any calculation. *)
Module Tech.
Record t : Type := mk {
  id : string;
  name : string;
  tssRemoval : num;
  tdsRemoval : num;
  bodRemoval : num;
  codRemoval : num;
  energy : num;
  footprint : num;
  capexFactor : num;
  maintenance : num;
  chemicalConsumption : num;
  lifespan : num
}.
End Tech.

Definition UF : Tech.t :=
  Tech.mk "UF" "Ultrafiltration"
    (Fin 0.99) (Fin 0.05) (Fin 0.30) (Fin 0.25)
    (Fin 0.3) (Fin 0.8) (Fin 1.0) (Fin 0.02) (Fin 0.01) (Fin 7).

Definition MBR : Tech.t :=
  Tech.mk "MBR" "Membrane Bioreactor"
    (Fin 0.99) (Fin 0.10) (Fin 0.95) (Fin 0.90)
    (Fin 0.8) (Fin 0.5) (Fin 1.8) (Fin 0.04) (Fin 0.03) (Fin 10).

Definition RO : Tech.t :=
  Tech.mk "RO" "Reverse Osmosis"
    (Fin 0.99) (Fin 0.97) (Fin 0.95) (Fin 0.95)
    (Fin 2.5) (Fin 1.0) (Fin 2.2) (Fin 0.03) (Fin 0.05) (Fin 5).

Definition UV : Tech.t :=
  Tech.mk "UV" "UV Disinfection"
    (Fin 0.0) (Fin 0.0) (Fin 0.0) (Fin 0.0)
    (Fin 0.1) (Fin 0.2) (Fin 0.3) (Fin 0.05) (Fin 0.0) (Fin 15).

Definition AOP : Tech.t :=
  Tech.mk "AOP" "Advanced Oxidation"
    (Fin 0.3) (Fin 0.2) (Fin 0.8) (Fin 0.85)
    (Fin 1.2) (Fin 0.4) (Fin 1.5) (Fin 0.04) (Fin 0.15) (Fin 12).

Definition NF : Tech.t :=
  Tech.mk "NF" "Nanofiltration"
    (Fin 0.99) (Fin 0.60) (Fin 0.80) (Fin 0.75)
    (Fin 1.0) (Fin 0.9) (Fin 1.6) (Fin 0.03) (Fin 0.03) (Fin 6).

Definition DAF : Tech.t :=
  Tech.mk "DAF" "Dissolved Air Flotation"
    (Fin 0.90) (Fin 0.0) (Fin 0.30) (Fin 0.25)
    (Fin 0.05) (Fin 1.5) (Fin 0.8) (Fin 0.02) (Fin 0.02) (Fin 20).

(** The own properties of the [TECHNOLOGIES] object literal, in source
    order. *)
Definition TECHNOLOGIES : list (string * Tech.t) :=
  [("UF", UF); ("MBR", MBR); ("RO", RO); ("UV", UV);
   ("AOP", AOP); ("NF", NF); ("DAF", DAF)].

Fixpoint assoc {A : Type} (k : string) (l : list (string * A)) : option A :=
  match l with
  | [] => None
  | (k', v) :: tl => if String.eqb k k' then Some v else assoc k tl
  end.

(** [TECHNOLOGIES] is an object literal, so a property read that finds no
    own property continues in [Object.prototype].  These are the names it
    answers to; each of them is a function (or, for [__proto__], the
    prototype object itself), hence truthy, and none of them has any of the
    technology attributes. *)
Definition Object_prototype_names : list string :=
  ["constructor"; "__proto__"; "hasOwnProperty"; "isPrototypeOf";
   "propertyIsEnumerable"; "toLocaleString"; "toString"; "valueOf";
   "__defineGetter__"; "__defineSetter__";
   "__lookupGetter__"; "__lookupSetter__"].

(** What the expression [TECHNOLOGIES[techId]] evaluates to, when it is not
    [undefined]. *)
Inductive entry : Type :=
| OwnTech (t : Tech.t)
| Inherited (name : string).

(** [TECHNOLOGIES[techId]]; [None] stands for [undefined]. *)
Definition TECHNOLOGIES_get (techId : string) : option entry :=
  match assoc techId TECHNOLOGIES with
  | Some t => Some (OwnTech t)
  | None =>
      if existsb (String.eqb techId) Object_prototype_names
      then Some (Inherited techId)
      else None
  end.

(** Reading a numeric attribute [tech.f] and using it in arithmetic: a
    missing property is [undefined], which converts to [NaN]. *)
Definition attr (f : Tech.t -> num) (tech : entry) : num :=
  match tech with
  | OwnTech t => f t
  | Inherited _ => NaN
  end.

Module Chain.
Record t : Type := mk {
  techs : list string;
  name : string;
  description : string
}.
End Chain.

Definition TECH_CHAINS : list Chain.t :=
  [ Chain.mk ["UF"; "RO"] "UF + RO" "Standard high-purity treatment";
    Chain.mk ["MBR"; "RO"] "MBR + RO" "Biological treatment with RO polishing";
    Chain.mk ["UF"] "UF Only" "Particle/pathogen removal";
    Chain.mk ["MBR"] "MBR Only" "Biological treatment";
    Chain.mk ["UF"; "RO"; "UV"] "UF + RO + UV" "Full treatment with disinfection";
    Chain.mk ["DAF"; "UF"; "RO"] "DAF + UF + RO" "Complete train for high-load water";
    Chain.mk ["MBR"; "NF"] "MBR + NF" "Softening and organics removal";
    Chain.mk ["UF"; "AOP"; "RO"] "UF + AOP + RO" "Micropollutant treatment" ].

Module Preset.
Record t : Type := mk {
  name : string;
  requiredQuality : num * num * num;   (* tss, tds, bod *)
  preferredChains : list string;
  esgPriority : string
}.
End Preset.

Definition INDUSTRY_PRESETS : list (string * Preset.t) :=
  [ ("pharmaceutical",
     Preset.mk "Pharmaceutical" (Fin 0.1, Fin 10, Fin 1)
       ["UF + RO"; "UF + RO + UV"] "water");
    ("foodBeverage",
     Preset.mk "Food & Beverage" (Fin 1, Fin 100, Fin 5)
       ["UF + RO"; "MBR + RO"] "carbon");
    ("power",
     Preset.mk "Power Generation" (Fin 0.5, Fin 5, Fin 2)
       ["UF + RO"; "DAF + UF + RO"] "energy");
    ("municipal",
     Preset.mk "Municipal" (Fin 10, Fin 500, Fin 10)
       ["MBR"; "UF + UV"] "carbon");
    ("oilGas",
     Preset.mk "Oil & Gas" (Fin 5, Fin 1000, Fin 20)
       ["DAF + UF + RO"; "MBR + NF"] "water");
    ("semiconductor",
     Preset.mk "Semiconductor" (Fin 0.01, Fin 0.1, Fin 0.1)
       ["UF + RO + UV"; "UF + AOP + RO"] "energy") ].

(** *** Combined performance of a chain *)

Module Perf.
Record t : Type := mk {
  techs : list string;
  tssRemoval : num;
  tdsRemoval : num;
  bodRemoval : num;
  codRemoval : num;
  energy : num;
  footprint : num;
  capexFactor : num;
  maintenance : num;
  chemicals : num
}.
End Perf.

(** The nine local accumulators of [calculateChainPerformance]. *)
Module Acc.
Record t : Type := mk {
  tssRemoval : num;
  tdsRemoval : num;
  bodRemoval : num;
  codRemoval : num;
  totalEnergy : num;
  totalFootprint : num;
  totalCapex : num;
  totalMaintenance : num;
  totalChemicals : num
}.
Definition init : t :=
  mk (Fin 0) (Fin 0) (Fin 0) (Fin 0) (Fin 0) (Fin 0) (Fin 0) (Fin 0) (Fin 0).
End Acc.

(** Serial removal: [1 - (1 - r1) * (1 - r2)]. *)
Definition serial (acc r : num) : num := Fin 1 - (Fin 1 - acc) * (Fin 1 - r).

(** The body of the [forEach] callback. *)
Definition chainStep (acc : Acc.t) (techId : string) : Acc.t :=
  match TECHNOLOGIES_get techId with
  | None => acc                                   (* if (!tech) return; *)
  | Some tech =>
      Acc.mk
        (serial (Acc.tssRemoval acc) (attr Tech.tssRemoval tech))
        (serial (Acc.tdsRemoval acc) (attr Tech.tdsRemoval tech))
        (serial (Acc.bodRemoval acc) (attr Tech.bodRemoval tech))
        (serial (Acc.codRemoval acc) (attr Tech.codRemoval tech))
        (Acc.totalEnergy acc + attr Tech.energy tech)
        (Acc.totalFootprint acc + attr Tech.footprint tech)
        (Acc.totalCapex acc + attr Tech.capexFactor tech)
        (Acc.totalMaintenance acc + attr Tech.maintenance tech)
        (Acc.totalChemicals acc + attr Tech.chemicalConsumption tech)
  end.

Definition chainLoop (techs : list string) (acc : Acc.t) : Acc.t :=
  fold_left chainStep techs acc.

Definition perfOf (techs : list string) (acc : Acc.t) : Perf.t :=
  Perf.mk techs
    (Acc.tssRemoval acc) (Acc.tdsRemoval acc)
    (Acc.bodRemoval acc) (Acc.codRemoval acc)
    (Acc.totalEnergy acc) (Acc.totalFootprint acc) (Acc.totalCapex acc)
    (Acc.totalMaintenance acc) (Acc.totalChemicals acc).

Definition calculateChainPerformance (techs : list string) : Perf.t :=
  perfOf techs (chainLoop techs Acc.init).

(* ------------------------------------------------------------------ *)
(** ** Text rendering of numbers *)

Module Render.

Local Open Scope string_scope.

(** The double-quote character. *)
Definition dquote : string := String (ascii_of_nat 34) EmptyString.

Definition decimalN (n : N) : string := NilZero.string_of_uint (N.to_uint n).

Definition decimalZ (z : Z) : string :=
  (if (z <? 0)%Z then "-" else "") ++ decimalN (Z.abs_N z).

Definition hexdigit (d : N) : ascii :=
  if (d <? 10)%N then ascii_of_N (48 + d) else ascii_of_N (87 + d).

Fixpoint radix16 (fuel : nat) (n : N) (acc : string) : string :=
  match fuel with
  | O => acc
  | S f =>
      let acc' := String (hexdigit (n mod 16)) acc in
      if (n / 16 =? 0)%N then acc' else radix16 f (n / 16) acc'
  end.

(** [n.toString(16)] for a non-negative integer. *)
Definition toString16 (n : N) : string :=
  radix16 (S (N.to_nat (N.size n))) n "".

Fixpoint repeat_char (c : ascii) (n : nat) : string :=
  match n with
  | O => ""
  | S k => String c (repeat_char c k)
  end.

(** [s.padStart(n, c)] for a one-character filler. *)
Definition padStart (n : nat) (c : ascii) (s : string) : string :=
  repeat_char c (n - String.length s) ++ s.

(** [s.substr(start, len)]. *)
Definition substr (start len : nat) (s : string) : string :=
  String.substring start len s.

(** The digits of [r / d] (with [0 <= r < d]) in base [base], at most [fuel]
    of them, ending where the expansion ends. *)
Fixpoint fraction_digits (base : N) (fuel : nat) (r d : N) : string :=
  match fuel with
  | O => ""
  | S f =>
      if (r =? 0)%N then ""
      else String (hexdigit ((base * r) / d))
                  (fraction_digits base f ((base * r) mod d) d)
  end.

(** Number to String.  An integer prints as its decimal digits; a fraction
    prints as its decimal expansion, cut after twenty places (an engine
    prints the shortest digit string that identifies the double).  The
    exponent form of very large and very small magnitudes is not
    modelled. *)
Definition numToString (x : num) : string :=
  match x with
  | NaN => "NaN"
  | PInf => "Infinity"
  | NInf => "-Infinity"
  | Fin q =>
      let q' := Qred q in
      let n := Z.abs_N (Qnum q') in
      let d := Npos (Qden q') in
      let sign := if (Qnum q' <? 0)%Z then "-" else "" in
      let frac := fraction_digits 10 20 (n mod d) d in
      sign ++ decimalN (n / d) ++ (if (n mod d =? 0)%N then "" else "." ++ frac)
  end.

(** [x.toFixed(f)]: the decimal with [f] places nearest to [x], ties away
    from zero, the sign kept in front. *)
Definition toFixed (f : nat) (x : num) : string :=
  match x with
  | NaN => "NaN"
  | PInf => "Infinity"
  | NInf => "-Infinity"
  | Fin q =>
      let scale := (10 ^ Z.of_nat f)%Z in
      let n := Z.to_N (Qfloor (Qabs q * inject_Z scale + (1 # 2))) in
      let whole := decimalN (n / Z.to_N scale) in
      let digits := decimalN (n mod Z.to_N scale) in
      (if Qle_bool 0 q then "" else "-") ++ whole ++
      match f with
      | O => ""
      | _ => "." ++ padStart f "0"%char digits
      end
  end.

(** A number as a JSON value: the non-finite ones serialize as [null]. *)
Definition jsonNumber (x : num) : string :=
  if finite x then numToString x else "null".

Fixpoint jsonEscape (s : string) : string :=
  match s with
  | EmptyString => ""
  | String c tl =>
      (if Ascii.eqb c (ascii_of_nat 34) then "\" ++ dquote
       else if Ascii.eqb c "\"%char then "\\"
       else String c "") ++ jsonEscape tl
  end.

(** A string as a JSON value (printable ASCII). *)
Definition jsonString (s : string) : string := dquote ++ jsonEscape s ++ dquote.

(** One [name:value] member of a JSON object. *)
Definition member (key value : string) : string :=
  dquote ++ key ++ dquote ++ ":" ++ value.

Fixpoint join (sep : string) (l : list string) : string :=
  match l with
  | [] => ""
  | [x] => x
  | x :: tl => x ++ sep ++ join sep tl
  end.

Definition jsonObject (members : list string) : string :=
  "{" ++ join "," members ++ "}".

End Render.

(* ------------------------------------------------------------------ *)
(** ** Simulator calculations ([js/simulator/calculations.js]) *)

(** The record built by [Simulator.gatherInputs]: every field is read with
    [parseFloat], so every field is a number. *)
Module Inputs.
Record t : Type := mk {
  sector : num;
  flow : num;
  hours : num;
  tss : num;
  tds : num;
  bod : num;
  cod : num;
  tssTarget : num;
  tdsTarget : num;
  waterPriority : num;
  carbonPriority : num;
  energyPriority : num;
  maxFootprint : num;
  maxBudget : num
}.
End Inputs.

Module Weights.
Record t : Type := mk { water : num; carbon : num; energy : num }.
End Weights.

Definition normalizeESGWeights (inputs : Inputs.t) : Weights.t :=
  let total := Inputs.waterPriority inputs + Inputs.carbonPriority inputs
               + Inputs.energyPriority inputs in
  if eqb total (Fin 0) then Weights.mk (Fin 0.33) (Fin 0.33) (Fin 0.34)
  else Weights.mk (Inputs.waterPriority inputs / total)
                  (Inputs.carbonPriority inputs / total)
                  (Inputs.energyPriority inputs / total).

Module Removal.
Record t : Type := mk { tss : num; tds : num }.
End Removal.

Definition calculateRemovalNeeded (inputs : Inputs.t) : Removal.t :=
  Removal.mk
    (if Inputs.tss inputs >? Fin 0
     then Fin 1 - Inputs.tssTarget inputs / Inputs.tss inputs else Fin 0)
    (if Inputs.tds inputs >? Fin 0
     then Fin 1 - Inputs.tdsTarget inputs / Inputs.tds inputs else Fin 0).

Module Sol.
Record t : Type := mk {
  name : string;
  description : string;
  techs : list string;
  tssRemoval : num;
  tdsRemoval : num;
  energy : num;
  footprint : num;
  capex : num;
  recovery : num;
  techScore : num;
  costScore : num;
  esgScore : num;
  overallScore : num;
  feasible : bool
}.
End Sol.

(** The body of the [TECH_CHAINS.forEach] callback of
    [evaluateTechnologies]: the solution pushed for one chain. *)
Definition evaluateChain (inputs : Inputs.t) (chain : Chain.t) : Sol.t :=
  let removalNeeded := calculateRemovalNeeded inputs in
  let esgWeights := normalizeESGWeights inputs in
  let perf := calculateChainPerformance (Chain.techs chain) in
  let footprint := Perf.footprint perf * Inputs.flow inputs * Fin 0.5 in
  let capex := Perf.capexFactor perf * Inputs.flow inputs * Fin 1000 in
  let recovery :=
    if Removal.tds removalNeeded >? Fin 0.5 then Fin 0.75 else Fin 0.9 in
  let tssScore :=
    if Perf.tssRemoval perf >=? Removal.tss removalNeeded then Fin 1
    else Perf.tssRemoval perf / (Removal.tss removalNeeded || Fin 1) in
  let tdsScore :=
    if Perf.tdsRemoval perf >=? Removal.tds removalNeeded then Fin 1
    else Perf.tdsRemoval perf / (Removal.tds removalNeeded || Fin 1) in
  let techScore := tssScore * tdsScore in
  let costScore := Fin 1 - min (capex / Inputs.maxBudget inputs) (Fin 1) in
  let waterScore := recovery in
  let energyScore := Fin 1 - min (Perf.energy perf / Fin 5) (Fin 1) in
  let carbonScore := Fin 1 - min (Perf.energy perf * Fin 0.5 / Fin 2) (Fin 1) in
  let esgScore := waterScore * Weights.water esgWeights
                  + energyScore * Weights.energy esgWeights
                  + carbonScore * Weights.carbon esgWeights in
  let overallScore :=
    techScore * Fin 0.4 + costScore * Fin 0.3 + esgScore * Fin 0.3 in
  let feasible :=
    (Perf.tssRemoval perf >=? Removal.tss removalNeeded) &&
    (Perf.tdsRemoval perf >=? Removal.tds removalNeeded) &&
    (footprint <=? Inputs.maxFootprint inputs) &&
    (capex <=? Inputs.maxBudget inputs) in
  Sol.mk (Chain.name chain) (Chain.description chain) (Chain.techs chain)
    (Perf.tssRemoval perf) (Perf.tdsRemoval perf) (Perf.energy perf)
    footprint capex recovery techScore costScore esgScore overallScore
    feasible.

(** [Array.prototype.sort] with a comparison function returning a number:
    a stable sort in which [a] stays before [b] unless [cmp a b > 0]; a
    [NaN] comparison counts as [0].  (With a comparison that is not a
    consistent order, an engine may arrange the elements differently; the
    result is a rearrangement of the array in every case.) *)
Section ArraySort.
Context {A : Type} (cmp : A -> A -> num).

Fixpoint sort_insert (x : A) (l : list A) : list A :=
  match l with
  | [] => [x]
  | y :: tl => if cmp x y >? Fin 0 then y :: sort_insert x tl else x :: l
  end.

Definition Array_sort (l : list A) : list A := fold_right sort_insert [] l.
End ArraySort.

Definition evaluateTechnologies (inputs : Inputs.t) : list Sol.t :=
  let solutions := map (evaluateChain inputs) TECH_CHAINS in
  Array_sort (fun a b => Sol.overallScore b - Sol.overallScore a) solutions.

Module MassBalance.
Record t : Type := mk {
  Qin : num; Qout : num; Qreject : num;
  Cin : num * num; Cout : num * num; Creject : num * num;   (* tss, tds *)
  recovery : num
}.
End MassBalance.

Definition calculateMassBalance (inputs : Inputs.t) (solution : Sol.t)
  : MassBalance.t :=
  let Qin := Inputs.flow inputs in
  let Qout := Qin * Sol.recovery solution in
  let Qreject := Qin * (Fin 1 - Sol.recovery solution) in
  let Cin := (Inputs.tss inputs, Inputs.tds inputs) in
  let Cout := (Inputs.tss inputs * (Fin 1 - Sol.tssRemoval solution),
               Inputs.tds inputs * (Fin 1 - Sol.tdsRemoval solution)) in
  let Creject := ((Qin * fst Cin - Qout * fst Cout) / Qreject,
                  (Qin * snd Cin - Qout * snd Cout) / Qreject) in
  MassBalance.mk Qin Qout Qreject Cin Cout Creject (Sol.recovery solution).

Module Energy.
Record t : Type := mk {
  specificEnergy : num; totalPower : num; annualEnergy : num;
  carbonFactor : num; annualCarbon : num
}.
End Energy.

Definition calculateEnergy (inputs : Inputs.t) (solution : Sol.t) : Energy.t :=
  let specificEnergy := Sol.energy solution in
  let totalPower := specificEnergy * Inputs.flow inputs in
  let annualEnergy := totalPower * Inputs.hours inputs in
  let carbonFactor := Fin 0.233 in
  let annualCarbon := annualEnergy * carbonFactor / Fin 1000 in
  Energy.mk specificEnergy totalPower annualEnergy carbonFactor annualCarbon.

Module Opex.
Record t : Type := mk {
  energy : num; chemicals : num; maintenance : num; labor : num;
  total : num; perCubicMeter : num
}.
End Opex.

Definition calculateOPEX (inputs : Inputs.t) (solution : Sol.t) : Opex.t :=
  let electricityRate := Fin 0.15 in
  let energy := calculateEnergy inputs solution in
  let energyCost := Energy.annualEnergy energy * electricityRate in
  let chemicalCost := Inputs.flow inputs * Inputs.hours inputs * Fin 0.02 in
  let maintenanceCost := Sol.capex solution * Fin 0.03 in
  let laborCost := Inputs.flow inputs * Fin 50 in
  let totalOPEX := energyCost + chemicalCost + maintenanceCost + laborCost in
  Opex.mk energyCost chemicalCost maintenanceCost laborCost totalOPEX
    (totalOPEX / (Inputs.flow inputs * Inputs.hours inputs)).

Module Optimization.
Record t : Type := mk {
  weights : num * num * num * num;       (* cost, tech, esg, risk *)
  objectives : num * num * num * num;    (* cost, tech, esg, risk *)
  totalScore : num;
  paretoOptimal : bool
}.
End Optimization.

Definition calculateOptimization (inputs : Inputs.t) (solution : Sol.t)
  : Optimization.t :=
  let w_cost := Fin 0.30 in
  let w_tech := Fin 0.30 in
  let w_esg := Fin 0.25 in
  let w_risk := Fin 0.15 in
  let f1_cost := Fin 1 - Sol.costScore solution in
  let f2_tech := Fin 1 - Sol.techScore solution in
  let f3_esg := Fin 1 - Sol.esgScore solution in
  let f4_risk := if Sol.feasible solution then Fin 0.1 else Fin 0.9 in
  let F := w_cost * f1_cost + w_tech * f2_tech + w_esg * f3_esg
           + w_risk * f4_risk in
  Optimization.mk (w_cost, w_tech, w_esg, w_risk)
    (f1_cost, f2_tech, f3_esg, f4_risk) F (F <? Fin 0.3).

Module Check.
Record t : Type := mk {
  name : string;
  required : num;
  achieved : num;
  pass : bool;
  margin : num
}.
End Check.

Definition checkConstraints (inputs : Inputs.t) (solution : Sol.t)
  : list Check.t :=
  let removalNeeded := calculateRemovalNeeded inputs in
  [ Check.mk "TSS Removal"
      (Removal.tss removalNeeded) (Sol.tssRemoval solution)
      (Sol.tssRemoval solution >=? Removal.tss removalNeeded)
      (Sol.tssRemoval solution - Removal.tss removalNeeded);
    Check.mk "TDS Removal"
      (Removal.tds removalNeeded) (Sol.tdsRemoval solution)
      (Sol.tdsRemoval solution >=? Removal.tds removalNeeded)
      (Sol.tdsRemoval solution - Removal.tds removalNeeded);
    Check.mk "Footprint"
      (Inputs.maxFootprint inputs) (Sol.footprint solution)
      (Sol.footprint solution <=? Inputs.maxFootprint inputs)
      (Inputs.maxFootprint inputs - Sol.footprint solution);
    Check.mk "Budget (CAPEX)"
      (Inputs.maxBudget inputs) (Sol.capex solution)
      (Sol.capex solution <=? Inputs.maxBudget inputs)
      (Inputs.maxBudget inputs - Sol.capex solution) ].

Module Esg.
Record t : Type := mk {
  scores : num * num * num * num;
     (* waterRecovery, energyEfficiency, carbonReduction, wasteMinimization *)
  composite : num;
  rating : string
}.
End Esg.

Definition calculateESGScore (inputs : Inputs.t) (solution : Sol.t) : Esg.t :=
  let energy := calculateEnergy inputs solution in
  let esgWeights := normalizeESGWeights inputs in
  let waterRecovery := Sol.recovery solution * Fin 100 in
  let energyEfficiency := max (Fin 0) (Fin 100 - Sol.energy solution * Fin 20) in
  let carbonReduction :=
    max (Fin 0) (Fin 100 - Energy.annualCarbon energy * Fin 2) in
  let wasteMinimization := Fin 75 in
  let composite :=
    waterRecovery * Weights.water esgWeights * Fin 0.3
    + energyEfficiency * Weights.energy esgWeights * Fin 0.3
    + carbonReduction * Weights.carbon esgWeights * Fin 0.25
    + wasteMinimization * Fin 0.15 in
  Esg.mk (waterRecovery, energyEfficiency, carbonReduction, wasteMinimization)
    composite
    (if composite >=? Fin 80 then "Excellent"
     else if composite >=? Fin 60 then "Good"
     else if composite >=? Fin 40 then "Moderate"
     else "Needs Improvement").

Module Confidence.
Record t : Type := mk {
  score : num;
  factors : num * num * num;   (* dataQuality, modelCertainty, constraintMargin *)
  decision : string;
  level : string
}.
End Confidence.

Definition calculateConfidence (inputs : Inputs.t) (solution : Sol.t)
  : Confidence.t :=
  let dataQuality := Fin 0.85 in
  let modelCertainty := Sol.techScore solution in
  let constraintMargin := if Sol.feasible solution then Fin 0.9 else Fin 0.3 in
  let confidence := Fin 0.4 * dataQuality + Fin 0.35 * modelCertainty
                    + Fin 0.25 * constraintMargin in
  let score := confidence * Fin 100 in
  Confidence.mk score
    (dataQuality * Fin 100, modelCertainty * Fin 100,
     constraintMargin * Fin 100)
    (if score >=? Fin 80 then "Auto-approve recommended"
     else if score >=? Fin 50 then "Human review recommended"
     else "Manual override required")
    (if score >=? Fin 80 then "high"
     else if score >=? Fin 50 then "medium" else "low").

Module Pricing.
Record t : Type := mk {
  capex : num; costPlus : num; valueBased : num; competitive : num;
  margins : num * num;           (* costPlus, valueBased *)
  annualOpex : num; tco : num; recommended : num;
  rationale : string
}.
End Pricing.

Definition calculatePricing (inputs : Inputs.t) (solution : Sol.t)
  : Pricing.t :=
  let costPlus := Sol.capex solution * Fin 1.25 in
  let valueBased := Sol.capex solution * Fin 1.40 in
  let competitive := Sol.capex solution * Fin 1.15 in
  let opex := calculateOPEX inputs solution in
  let tco := Sol.capex solution + Opex.total opex * Fin 10 in
  Pricing.mk (Sol.capex solution) costPlus valueBased competitive
    ((costPlus - Sol.capex solution) / costPlus * Fin 100,
     (valueBased - Sol.capex solution) / valueBased * Fin 100)
    (Opex.total opex) tco valueBased
    "Value-based pricing reflects ESG benefits and total value delivered".

(** *** Ledger fingerprint *)

(** ToInt32: the signed 32-bit integer congruent to [z]. *)
Definition toInt32 (z : Z) : Z := ((z + 2 ^ 31) mod 2 ^ 32 - 2 ^ 31)%Z.

(** [x << n] and [x & y] on Numbers holding integers. *)
Definition int32_shl (x : Z) (n : Z) : Z := toInt32 (Z.shiftl (toInt32 x) n).
Definition int32_and (x y : Z) : Z := Z.land (toInt32 x) (toInt32 y).

(** [data.charCodeAt(i)] for a string of one-byte characters. *)
Definition charCode (c : ascii) : Z := Z.of_N (N_of_ascii c).

(** One turn of the [for] loop over the characters of [data]. *)
Definition hashStep (hash : Z) (c : ascii) : Z :=
  let char := charCode c in
  let hash := (int32_shl hash 5 - hash + char)%Z in
  int32_and hash hash.

Definition hashLoop (data : string) : Z :=
  fold_left hashStep (list_ascii_of_string data) 0%Z.

(** [JSON.stringify({ inputs, solution: solution.name, timestamp })]. *)
Definition ledgerData (inputs : Inputs.t) (solution : Sol.t) (timestamp : Z)
  : string :=
  let num_member k v := Render.member k (Render.jsonNumber v) in
  Render.jsonObject
    [ Render.member "inputs"
        (Render.jsonObject
           [ num_member "sector" (Inputs.sector inputs);
             num_member "flow" (Inputs.flow inputs);
             num_member "hours" (Inputs.hours inputs);
             num_member "tss" (Inputs.tss inputs);
             num_member "tds" (Inputs.tds inputs);
             num_member "bod" (Inputs.bod inputs);
             num_member "cod" (Inputs.cod inputs);
             num_member "tssTarget" (Inputs.tssTarget inputs);
             num_member "tdsTarget" (Inputs.tdsTarget inputs);
             num_member "waterPriority" (Inputs.waterPriority inputs);
             num_member "carbonPriority" (Inputs.carbonPriority inputs);
             num_member "energyPriority" (Inputs.energyPriority inputs);
             num_member "maxFootprint" (Inputs.maxFootprint inputs);
             num_member "maxBudget" (Inputs.maxBudget inputs) ]);
      Render.member "solution" (Render.jsonString (Sol.name solution));
      Render.member "timestamp" (Render.decimalZ timestamp) ].

(** [Math.random()] draws a double of [0, 1); the draw is represented by
    the integer [k < 2^53] with value [k / 2^53].  This is
    [Math.random().toString(16)] for that draw. *)
Definition random_toString16 (k : N) : string :=
  if (k =? 0)%N then "0"
  else "0." ++ Render.fraction_digits 16 14 k (2 ^ 53).

(** The fingerprint, as a function of the two things the body reads from
    its environment: [now], the value of [Date.now()], and [rnd], the draw
    of [Math.random()]. *)
Definition generateLedgerHash (now : Z) (rnd : N)
  (inputs : Inputs.t) (solution : Sol.t) : string :=
  let data := ledgerData inputs solution now in
  let hash := hashLoop data in
  "0x" ++ Render.padStart 16 "0"%char (Render.toString16 (Z.abs_N hash))
       ++ Render.substr 2 48 (random_toString16 rnd).

(** The first eighteen characters of a fingerprint: [0x] and the padded
    hash. *)
Definition hashPart (fingerprint : string) : string :=
  String.substring 0 18 fingerprint.

(* ------------------------------------------------------------------ *)
(** ** The proposal engine ([proposal-engine.js]): specification *)

Module CONFIG.
Definition electricityRate : num := Fin 0.15.
Definition laborCostPerHour : num := Fin 45.
Definition discountRate : num := Fin 0.08.
Definition projectLifespan : nat := 10.
Definition defaultMargin : num := Fin 0.20.
Definition minMargin : num := Fin 0.10.
Definition autoApproveThreshold : num := Fin 0.80.
Definition manualReviewThreshold : num := Fin 0.50.
Definition defaultEsgWeights : Weights.t :=
  Weights.mk (Fin 0.40) (Fin 0.35) (Fin 0.25).
Definition gridCarbonFactor : num := Fin 0.233.
End CONFIG.

(** The [data] argument of the [CustomerSpec] constructor: any property may
    be missing ([None] is [undefined]). *)
Module Data.
Record quality : Type := mkQuality {
  tds : option num; tss : option num; bod : option num;
  cod : option num; ph : option num
}.
Record constraints : Type := mkConstraints {
  maxFootprint : option num;
  maxPower : option num;
  maxCapex : option num;
  containerized : option bool;
  allowedChemicals : option (list string)
}.
Record priorities : Type := mkPriorities {
  water : option num; carbon : option num; energy : option num
}.
Record vendors : Type := mkVendors {
  include : option (list string); exclude : option (list string)
}.
Record t : Type := mk {
  sector : option string;
  flowRate : option num;
  operatingHours : option num;
  feedWater : option quality;
  targetQuality : option quality;
  constraints_ : option constraints;
  optionalModules : option (list string);
  esgPriorities : option priorities;
  vendorPreferences : option vendors
}.
Definition empty : t := mk None None None None None None None None None.
End Data.

Module Feed.
Record t : Type := mk { tds : num; tss : num; bod : num; cod : num; ph : num }.
End Feed.

Module Target.
Record t : Type := mk { tds : num; tss : num; bod : num; cod : num }.
End Target.

Module Spec.
Record constraints : Type := mkConstraints {
  maxFootprint : option num;           (* [None] is [null] *)
  maxPower : option num;
  maxCapex : option num;
  containerized : bool;
  allowedChemicals : list string
}.
Record t : Type := mk {
  sector : string;
  flowRate : num;
  operatingHours : num;
  feedWater : Feed.t;
  targetQuality : Target.t;
  constraints_ : constraints;
  optionalModules : list string;
  esgPriorities : Weights.t;
  vendorPreferences : list string * list string      (* include, exclude *)
}.
End Spec.

(** [obj?.prop]: the property of an object that may be missing. *)
Definition chain_get {A B : Type} (obj : option A) (prop : A -> option B)
  : option B :=
  match obj with Some o => prop o | None => None end.

(** [x || d] where [x] may be [undefined]. *)
Definition num_or (x : option num) (d : num) : num :=
  match x with Some v => v || d | None => d end.

(** [x || null] on a number that may be [undefined]. *)
Definition num_or_null (x : option num) : option num :=
  match x with
  | Some v => if truthy v then Some v else None
  | None => None
  end.

Definition string_or (x : option string) (d : string) : string :=
  match x with
  | Some EmptyString | None => d
  | Some v => v
  end.

Definition bool_or_false (x : option bool) : bool :=
  match x with Some b => b | None => false end.

(** Arrays are truthy, the empty one too. *)
Definition list_or {A : Type} (x : option (list A)) (d : list A) : list A :=
  match x with Some l => l | None => d end.

(** [new CustomerSpec(data)]. *)
Definition CustomerSpec (data : Data.t) : Spec.t :=
  let fw := Data.feedWater data in
  let tq := Data.targetQuality data in
  let cs := Data.constraints_ data in
  let ep := Data.esgPriorities data in
  let vp := Data.vendorPreferences data in
  Spec.mk
    (string_or (Data.sector data) "pharmaceutical")
    (num_or (Data.flowRate data) (Fin 100))
    (num_or (Data.operatingHours data) (Fin 8000))
    (Feed.mk
       (num_or (chain_get fw Data.tds) (Fin 1500))
       (num_or (chain_get fw Data.tss) (Fin 50))
       (num_or (chain_get fw Data.bod) (Fin 120))
       (num_or (chain_get fw Data.cod) (Fin 200))
       (num_or (chain_get fw Data.ph) (Fin 7.2)))
    (Target.mk
       (num_or (chain_get tq Data.tds) (Fin 10))
       (num_or (chain_get tq Data.tss) (Fin 0.1))
       (num_or (chain_get tq Data.bod) (Fin 1))
       (num_or (chain_get tq Data.cod) (Fin 5)))
    (Spec.mkConstraints
       (num_or_null (chain_get cs Data.maxFootprint))
       (num_or_null (chain_get cs Data.maxPower))
       (num_or_null (chain_get cs Data.maxCapex))
       (bool_or_false (chain_get cs Data.containerized))
       (list_or (chain_get cs Data.allowedChemicals) ["all"]))
    (list_or (Data.optionalModules data) ["UV"; "chemicalDosing"])
    (Weights.mk
       (num_or (chain_get ep Data.water) (Fin 0.40))
       (num_or (chain_get ep Data.carbon) (Fin 0.35))
       (num_or (chain_get ep Data.energy) (Fin 0.25)))
    (list_or (chain_get vp Data.include) [],
     list_or (chain_get vp Data.exclude) []).

Module Required.
Record t : Type := mk { tds : num; tss : num; bod : num; cod : num }.
End Required.

(** [CustomerSpec.getRequiredRemoval]. *)
Definition getRequiredRemoval (this : Spec.t) : Required.t :=
  let target := Spec.targetQuality this in
  let feed := Spec.feedWater this in
  Required.mk
    (Fin 1 - Target.tds target / Feed.tds feed)
    (Fin 1 - Target.tss target / Feed.tss feed)
    (Fin 1 - Target.bod target / Feed.bod feed)
    (Fin 1 - Target.cod target / Feed.cod feed).

Definition getAnnualVolume (this : Spec.t) : num :=
  Spec.flowRate this * Spec.operatingHours this.

Module Validation.
Record t : Type := mk { valid : bool; errors : list string }.
End Validation.

(** [errors.push (msg)] under [if (cond)]. *)
Definition push_if (cond : bool) (msg : string) (errors : list string)
  : list string :=
  if cond then errors ++ [msg] else errors.

(** [CustomerSpec.validate]. *)
Definition validate (this : Spec.t) : Validation.t :=
  let errors := [] in
  let errors :=
    push_if (Spec.flowRate this <=? Fin 0) "Flow rate must be positive" errors in
  let errors :=
    push_if (Feed.tds (Spec.feedWater this) <? Target.tds (Spec.targetQuality this))
      "Target TDS exceeds feed TDS" errors in
  let errors :=
    push_if (Feed.tss (Spec.feedWater this) <? Target.tss (Spec.targetQuality this))
      "Target TSS exceeds feed TSS" errors in
  Validation.mk (Nat.eqb (List.length errors) 0) errors.

(* ------------------------------------------------------------------ *)
(** ** Calls that may throw *)

Inductive outcome (A : Type) : Type :=
| Returns (a : A)
| Throws (error : string).
Arguments Returns {A} a.
Arguments Throws {A} error.

Definition bind {A B : Type} (m : outcome A) (k : A -> outcome B) : outcome B :=
  match m with
  | Returns a => k a
  | Throws e => Throws e
  end.

(** [l.map(f)] where a call of [f] may throw. *)
Fixpoint mapM {A B : Type} (f : A -> outcome B) (l : list A)
  : outcome (list B) :=
  match l with
  | [] => Returns []
  | x :: tl =>
      bind (f x) (fun y => bind (mapM f tl) (fun ys => Returns (y :: ys)))
  end.

(** [arr.includes(s)] on an array of strings. *)
Definition includes (arr : list string) (s : string) : bool :=
  existsb (String.eqb s) arr.

(* ------------------------------------------------------------------ *)
(** ** The simulator run ([js/simulator/simulator.js])

    [Math.exp] is the one numeric primitive without an exact rational
    value: it is a parameter wherever a win probability is computed, and
    what is proved about the price search holds for every function with the
    range of an exponential. *)

Module WinProb.
Record t : Type := mk {
  z : num;
  probability : num;
  confidence : string;
  factors : num * num * num * num  (* priceRatio, techFit, esgScore, sectorMatch *)
}.
End WinProb.

Module Results.
Record t : Type := mk {
  inputs : Inputs.t;
  solutions : list Sol.t;
  bestSolution : option Sol.t;          (* [None] is [undefined] *)
  constraints : list Check.t;
  massBalance : MassBalance.t;
  energy : Energy.t;
  opex : Opex.t;
  optimization : Optimization.t;
  winProbability : WinProb.t;
  esgScore : Esg.t;
  confidence : Confidence.t;
  pricing : Pricing.t;
  ledgerHash : string
}.
End Results.

Section SimulatorRun.

Variable Math_exp : num -> num.

Definition calculateWinProbability (inputs : Inputs.t) (solution : Sol.t)
  : WinProb.t :=
  let intercept := Fin 1.5 in
  let c_priceRatio := Fin (-2.5) in
  let c_techFit := Fin 1.8 in
  let c_esgScore := Fin 0.5 in
  let c_sectorMatch := Fin 0.3 in
  let priceRatio := Sol.capex solution / Inputs.maxBudget inputs in
  let techFit := Sol.techScore solution in
  let esgScore := Sol.esgScore solution in
  let sectorMatch := Fin 0.8 in
  let z := intercept + c_priceRatio * priceRatio + c_techFit * techFit
           + c_esgScore * esgScore + c_sectorMatch * sectorMatch in
  let probability := Fin 1 / (Fin 1 + Math_exp (neg z)) in
  WinProb.mk z probability
    (if probability >? Fin 0.7 then "high"
     else if probability >? Fin 0.4 then "medium" else "low")
    (priceRatio, techFit, esgScore, sectorMatch).

(** [Simulator.run], from the gathered [inputs] to the [results] record it
    stores, displays and publishes (the form, the display and the event bus
    are outside the calculation); [now] and [rnd] are what the fingerprint
    reads from the clock and the random source.  Reading a property of
    [undefined] throws. *)
Definition run (now : Z) (rnd : N) (inputs : Inputs.t) : outcome Results.t :=
  let solutions := evaluateTechnologies inputs in
  let bestSolution := nth_error solutions 0 in
  match bestSolution with
  | None => Throws "TypeError"
  | Some best =>
      Returns
        (Results.mk inputs solutions bestSolution
           (checkConstraints inputs best)
           (calculateMassBalance inputs best)
           (calculateEnergy inputs best)
           (calculateOPEX inputs best)
           (calculateOptimization inputs best)
           (calculateWinProbability inputs best)
           (calculateESGScore inputs best)
           (calculateConfidence inputs best)
           (calculatePricing inputs best)
           (generateLedgerHash now rnd inputs best))
  end.

End SimulatorRun.

(* ------------------------------------------------------------------ *)
(** ** The proposal engine: solution design *)

Module Decision.
Record t : Type := mk { timestamp : string; action : string; reason : string }.
End Decision.

Module EsgMetrics.
Record t : Type := mk {
  waterRecovery : num;
  waterScore : num;
  annualCarbonTonnes : num;
  carbonReduction : num;
  carbonScore : num;
  specificEnergy : num;
  energyScore : num;
  composite : num
}.
End EsgMetrics.

Module Solution.
Record t : Type := mk {
  chain : Chain.t;
  techs : list string;
  name : string;
  description : string;
  performance : Perf.t;
  capex : num;
  opex : num;
  npv10yr : num;
  waterRecovery : num;
  esgMetrics : EsgMetrics.t;
  esgScore : num;
  confidence : num;
  score : num;
  meetsRequirements : bool
}.
End Solution.

(** What [INDUSTRY_PRESETS[sector]] evaluates to, when it is not
    [undefined]: an own preset, or a member of [Object.prototype]. *)
Inductive preset_entry : Type :=
| OwnPreset (p : Preset.t)
| InheritedMember (name : string).

Definition INDUSTRY_PRESETS_get (sector : string) : option preset_entry :=
  match assoc sector INDUSTRY_PRESETS with
  | Some p => Some (OwnPreset p)
  | None =>
      if includes Object_prototype_names sector
      then Some (InheritedMember sector)
      else None
  end.

Module SolutionEngine.

(** The engine object: [spec], [requiredRemoval] and the [decisions] logged
    so far. *)
Record t : Type := mk {
  spec : Spec.t;
  requiredRemoval : Required.t;
  decisions : list Decision.t
}.

(** [new SolutionEngine(spec)]. *)
Definition new (spec : Spec.t) : t := mk spec (getRequiredRemoval spec) [].

Section Clock.

(** [clock n] is the value of [new Date().toISOString()] at the reading
    that follows [n] logged decisions. *)
Variable clock : nat -> string.

Definition logDecision (this : t) (action reason : string) : t :=
  mk (spec this) (requiredRemoval this)
     (decisions this ++
      [Decision.mk (clock (List.length (decisions this))) action reason]).

Definition getDecisionTrail (this : t) : list Decision.t := decisions this.

Definition percent1 (x : num) : string := Render.toFixed 1 (x * Fin 100).

(** The predicate of [filterFeasibleChains], without its logging. *)
Definition meetsRequirements (this : t) (chain : Chain.t) : bool :=
  let perf := calculateChainPerformance (Chain.techs chain) in
  let meetsTds := Perf.tdsRemoval perf >=? Required.tds (requiredRemoval this) in
  let meetsTss := Perf.tssRemoval perf >=? Required.tss (requiredRemoval this) in
  let meetsBod := Perf.bodRemoval perf >=? Required.bod (requiredRemoval this) in
  meetsTds && meetsTss && meetsBod.

(** The callback of [TECH_CHAINS.filter]: the verdict on one chain and the
    engine after the decision is logged. *)
Definition filterCallback (this : t) (chain : Chain.t) : bool * t :=
  let perf := calculateChainPerformance (Chain.techs chain) in
  let meetsTds := Perf.tdsRemoval perf >=? Required.tds (requiredRemoval this) in
  let meetsTss := Perf.tssRemoval perf >=? Required.tss (requiredRemoval this) in
  let meetsBod := Perf.bodRemoval perf >=? Required.bod (requiredRemoval this) in
  if meetsTds && meetsTss && meetsBod
  then (true,
        logDecision this ("Included " ++ Chain.name chain)
          ("Meets all quality requirements (TDS: "
             ++ percent1 (Perf.tdsRemoval perf) ++ "%, TSS: "
             ++ percent1 (Perf.tssRemoval perf) ++ "%)"))
  else (false,
        logDecision this ("Excluded " ++ Chain.name chain)
          ("Does not meet requirements (TDS: "
             ++ percent1 (Perf.tdsRemoval perf) ++ "% vs "
             ++ percent1 (Required.tds (requiredRemoval this))
             ++ "% required)")).

(** [chains.filter(callback)], the engine threaded through the calls. *)
Fixpoint filterWith (chains : list Chain.t) (this : t) : list Chain.t * t :=
  match chains with
  | [] => ([], this)
  | chain :: rest =>
      let (keep, this1) := filterCallback this chain in
      let (kept, this2) := filterWith rest this1 in
      (if keep then chain :: kept else kept, this2)
  end.

Definition filterFeasibleChains (this : t) : list Chain.t * t :=
  filterWith TECH_CHAINS this.

Definition calculateCapex (this : t) (perf : Perf.t) (techs : list string)
  : num :=
  let baseEquipmentCost := Fin 5000 in
  let capex := Spec.flowRate (spec this) * baseEquipmentCost
               * Perf.capexFactor perf in
  let capex :=
    capex * (if Spec.containerized (Spec.constraints_ (spec this))
             then Fin 1.15 else Fin 1.25) in
  let capex :=
    if includes (Spec.optionalModules (spec this)) "UV"
       && negb (includes techs "UV")
    then capex + Spec.flowRate (spec this) * Fin 200
    else capex in
  round capex.

Definition calculateOpex (this : t) (perf : Perf.t) (annualVolume : num)
  : num :=
  let energyCost := Perf.energy perf * annualVolume * CONFIG.electricityRate in
  let chemicalCost := Perf.chemicals perf * annualVolume in
  let maintenanceCost :=
    Spec.flowRate (spec this) * Fin 5000 * Perf.capexFactor perf
    * Perf.maintenance perf in
  let laborCost := Fin 2000 * CONFIG.laborCostPerHour in
  round (energyCost + chemicalCost + maintenanceCost + laborCost).

(** One turn of the [for (year = 1; year <= projectLifespan; year++)]
    loop. *)
Definition npvStep (annualOpex : num) (npv : num) (year : nat) : num :=
  let opex := annualOpex * pow (Fin 1.03) (year - 1) in
  npv + opex / pow (Fin 1 + CONFIG.discountRate) year.

Definition calculateNPV (capex annualOpex : num) : num :=
  round (fold_left (npvStep annualOpex) (seq 1 CONFIG.projectLifespan) capex).

Definition calculateEsgMetrics (this : t) (perf : Perf.t) (annualVolume : num)
  : EsgMetrics.t :=
  let waterRecovery :=
    if Perf.tdsRemoval perf >? Fin 0.9 then Fin 0.82 else Fin 0.95 in
  let waterScore := waterRecovery * Fin 100 in
  let annualEnergy := Perf.energy perf * annualVolume in
  let annualCarbonKg := annualEnergy * CONFIG.gridCarbonFactor in
  let annualCarbonTonnes := annualCarbonKg / Fin 1000 in
  let baselineEnergy := Fin 4.5 * annualVolume in
  let baselineCarbonTonnes :=
    baselineEnergy * CONFIG.gridCarbonFactor / Fin 1000 in
  let carbonReduction := Fin 1 - annualCarbonTonnes / baselineCarbonTonnes in
  let carbonScore := carbonReduction * Fin 100 in
  let baselineSpecificEnergy := Fin 4.5 in
  let energyEfficiency := Fin 1 - Perf.energy perf / baselineSpecificEnergy in
  let energyScore := max (Fin 0) (energyEfficiency * Fin 100) in
  let composite :=
    waterScore * Weights.water (Spec.esgPriorities (spec this))
    + carbonScore * Weights.carbon (Spec.esgPriorities (spec this))
    + energyScore * Weights.energy (Spec.esgPriorities (spec this)) in
  EsgMetrics.mk waterRecovery (round waterScore) (round annualCarbonTonnes)
    carbonReduction (round carbonScore) (Perf.energy perf)
    (round energyScore) (round composite).

(** [calculateConfidence (perf, chain)].  When the sector names a member of
    [Object.prototype], [sectorPreset] is that member, its
    [preferredChains] is [undefined], and calling [includes] on it
    throws. *)
Definition calculateConfidence (this : t) (perf : Perf.t) (chain : Chain.t)
  : outcome num :=
  let confidence := Fin 0.7 in
  bind
    (match INDUSTRY_PRESETS_get (Spec.sector (spec this)) with
     | None => Returns confidence
     | Some (OwnPreset sectorPreset) =>
         if includes (Preset.preferredChains sectorPreset) (Chain.name chain)
         then Returns (confidence + Fin 0.15)
         else Returns confidence
     | Some (InheritedMember _) => Throws "TypeError"
     end)
    (fun confidence =>
       let tdsMargin :=
         (Perf.tdsRemoval perf - Required.tds (requiredRemoval this))
         / Required.tds (requiredRemoval this) in
       let confidence := confidence + min (Fin 0.1) (tdsMargin * Fin 0.5) in
       let confidence :=
         if forallb (includes ["UF"; "RO"; "MBR"]) (Chain.techs chain)
         then confidence + Fin 0.05 else confidence in
       Returns (min (Fin 0.95) confidence)).

Definition calculateScore (capex opex : num) (esgMetrics : EsgMetrics.t)
  (confidence : num) : num :=
  let maxCapex := Fin 3000000 in
  let maxOpex := Fin 500000 in
  let costScore := Fin 1 - (capex / maxCapex + opex / maxOpex) / Fin 2 in
  let esgScore := EsgMetrics.composite esgMetrics / Fin 100 in
  costScore * Fin 0.4 + esgScore * Fin 0.35 + confidence * Fin 0.25.

Definition evaluateSolution (this : t) (chain : Chain.t) : outcome Solution.t :=
  let perf := calculateChainPerformance (Chain.techs chain) in
  let annualVolume := getAnnualVolume (spec this) in
  let baseCapex := calculateCapex this perf (Chain.techs chain) in
  let annualOpex := calculateOpex this perf annualVolume in
  let esgMetrics := calculateEsgMetrics this perf annualVolume in
  let waterRecovery :=
    if includes (Chain.techs chain) "RO" then Fin 0.82 else Fin 0.95 in
  bind (calculateConfidence this perf chain) (fun confidence =>
  let score := calculateScore baseCapex annualOpex esgMetrics confidence in
  Returns
    (Solution.mk chain (Chain.techs chain) (Chain.name chain)
       (Chain.description chain) perf baseCapex annualOpex
       (calculateNPV baseCapex annualOpex) waterRecovery esgMetrics
       (EsgMetrics.composite esgMetrics) confidence score true)).

(** [generateSolutions]: the engine after the filter has logged its
    decisions, and the sorted solutions (or the error thrown while
    evaluating them). *)
Definition generateSolutions (this : t) : t * outcome (list Solution.t) :=
  let (feasibleChains, this1) := filterFeasibleChains this in
  (this1,
   bind (mapM (evaluateSolution this1) feasibleChains) (fun solutions =>
   Returns
     (Array_sort (fun a b => Solution.score b - Solution.score a) solutions))).

End Clock.

End SolutionEngine.

(* ------------------------------------------------------------------ *)
(** ** The proposal engine: pricing *)

Module Optimal.
Record t : Type := mk {
  price : num;
  margin : num;
  winProbability : num;
  expectedValue : num
}.
End Optimal.

Module Option_.
Record t : Type := mk {
  type : string;
  upfront : num;
  annual : num;
  transferYear : option num;
  description : string
}.
End Option_.

Module PricingModel.

(** The pricing object: [solution] and [spec]. *)
Record t : Type := mk { solution : Solution.t; spec : Spec.t }.

Definition calculatePrice (this : t) (margin : num) : num :=
  round (Solution.capex (solution this) * (Fin 1 + margin)).

Section WithExp.

Variable Math_exp : num -> num.

Definition calculateWinProbability (this : t) (price : num) : num :=
  let priceRatio := price / Solution.capex (solution this) in
  let z := Fin 3 - (priceRatio - Fin 1) * Fin 10
           + (Solution.confidence (solution this) - Fin 0.7) * Fin 5
           + (Solution.esgScore (solution this) / Fin 100 - Fin 0.7) * Fin 3 in
  Fin 1 / (Fin 1 + Math_exp (neg z)).

(** The expected value [winProb * (price - capex)] of a price. *)
Definition expectedValueAt (this : t) (price : num) : num :=
  calculateWinProbability this price
  * (price - Solution.capex (solution this)).

(** The body of the margin loop, on the pair
    [(bestPrice, bestExpectedValue)]. *)
Definition searchStep (this : t) (best : num * num) (margin : num)
  : num * num :=
  let price := calculatePrice this margin in
  let winProb := calculateWinProbability this price in
  let expectedValue := winProb * (price - Solution.capex (solution this)) in
  if expectedValue >? snd best then (price, expectedValue) else best.

(** [for (margin = 0.10; margin <= 0.40; margin += 0.01)], unrolled at
    most [fuel] times.  The counter is a binary64 number: the literals
    denote the nearest binary64 values, [margin += 0.01] is the rounded
    addition and [margin <= 0.40] the comparison of the engine. *)
Fixpoint searchLoop (this : t) (fuel : nat) (margin : float)
  (best : num * num) : num * num :=
  match fuel with
  | O => best
  | S k =>
      if PrimFloat.leb margin 0.40%float
      then searchLoop this k (PrimFloat.add margin 0.01%float)
             (searchStep this best (of_float margin))
      else best
  end.

(** The fuel is never what ends the loop (lemmas [testedMargins_fuel] and
    [searchLoop_fuel]): the counter passes 0.40 after thirty turns. *)
Definition findOptimalPrice (this : t) : Optimal.t :=
  let bestPrice := Solution.capex (solution this) * Fin 1.1 in
  let bestExpectedValue := Fin 0 in
  let (bestPrice, bestExpectedValue) :=
    searchLoop this 64 0.10%float (bestPrice, bestExpectedValue) in
  Optimal.mk bestPrice
    (bestPrice / Solution.capex (solution this) - Fin 1)
    (calculateWinProbability this bestPrice)
    bestExpectedValue.

End WithExp.

(** The values the loop counter takes, in order, and the margins the loop
    tests: the numbers they denote. *)
Fixpoint marginsFrom (fuel : nat) (margin : float) : list float :=
  match fuel with
  | O => []
  | S k =>
      if PrimFloat.leb margin 0.40%float
      then margin :: marginsFrom k (PrimFloat.add margin 0.01%float)
      else []
  end.

Definition testedMargins : list num :=
  map of_float (marginsFrom 64 0.10%float).

Definition getCapexBreakdown (this : t) : num * num * num * num * num :=
  let total := Solution.capex (solution this) in
  (round (total * Fin 0.45),     (* equipment *)
   round (total * Fin 0.25),     (* installation *)
   round (total * Fin 0.15),     (* controls *)
   round (total * Fin 0.08),     (* commissioning *)
   round (total * Fin 0.07)).    (* contingency *)

Definition getOpexBreakdown (this : t) : num * num * num * num :=
  let total := Solution.opex (solution this) in
  (round (total * Fin 0.42),     (* energy *)
   round (total * Fin 0.28),     (* chemicals *)
   round (total * Fin 0.18),     (* maintenance *)
   round (total * Fin 0.12)).    (* labor *)

Definition getPricingOptions (this : t) : Option_.t * Option_.t * Option_.t :=
  let capexPrice := calculatePrice this CONFIG.defaultMargin in
  let annualOpex := Solution.opex (solution this) in
  (Option_.mk "CapEx Sale" capexPrice (Fin 0) None
     "Full ownership transfer",
   Option_.mk "BOO (Build-Own-Operate)" (Fin 0)
     (round (Solution.npv10yr (solution this) * Fin 1.3 / Fin 10)) None
     "Service contract with full operation",
   Option_.mk "BOT (Build-Operate-Transfer)"
     (round (capexPrice * Fin 0.3)) (round (annualOpex * Fin 1.4))
     (Some (Fin 5))
     "Leased operation with ownership transfer").

End PricingModel.

(* ------------------------------------------------------------------ *)
(** ** The proposal engine: main entry point *)

Module Proposal.
Record pricing : Type := mkPricing {
  recommended : Optimal.t;
  breakdown_capex : num * num * num * num * num;
  breakdown_opex : num * num * num * num;
  options : Option_.t * Option_.t * Option_.t
}.
(** The record [generateProposal] resolves to.  Its [proposal] member, the
    HTML and JSON renderings of the other members, is display output and is
    left out. *)
Record t : Type := mk {
  specification : Spec.t;
  solutions : list Solution.t;
  selectedSolution : Solution.t;
  pricing_ : pricing;
  decisionTrail : list Decision.t
}.
End Proposal.

(** [generateProposal (inputData)]; a rejection of the promise it returns
    is [Throws]. *)
Definition generateProposal (Math_exp : num -> num) (clock : nat -> string)
  (inputData : Data.t) : outcome Proposal.t :=
  let spec := CustomerSpec inputData in
  let validation := validate spec in
  if negb (Validation.valid validation)
  then Throws ("Invalid specification: "
               ++ Render.join ", " (Validation.errors validation))
  else
    let engine := SolutionEngine.new spec in
    let (engine, generated) := SolutionEngine.generateSolutions clock engine in
    bind generated (fun solutions =>
    match solutions with
    | [] => Throws "No feasible solutions found for the given requirements"
    | bestSolution :: _ =>
        let pricing := PricingModel.mk bestSolution spec in
        Returns
          (Proposal.mk spec (firstn 5 solutions) bestSolution
             (Proposal.mkPricing
                (PricingModel.findOptimalPrice Math_exp pricing)
                (PricingModel.getCapexBreakdown pricing)
                (PricingModel.getOpexBreakdown pricing)
                (PricingModel.getPricingOptions pricing))
             (SolutionEngine.getDecisionTrail engine))
    end).

(* ------------------------------------------------------------------ *)
(** ** Utility functions ([js/core/utils.js]) *)

Module Utils.

Local Open Scope string_scope.

(** The object [escapeMap]: the replacement of each character. *)
Definition escapeMap : list (ascii * string) :=
  [ ("&"%char, "&amp;"); ("<"%char, "&lt;"); (">"%char, "&gt;");
    (ascii_of_nat 34, "&quot;"); ("'"%char, "&#39;") ].

Fixpoint escapeMap_get (c : ascii) (map : list (ascii * string))
  : option string :=
  match map with
  | [] => None
  | (k, v) :: rest => if Ascii.eqb c k then Some v else escapeMap_get c rest
  end.

(** The character class of the regular expression: ampersand, angle
    brackets, double and single quote. *)
Definition special (c : ascii) : bool :=
  existsb (Ascii.eqb c) ["&"; "<"; ">"; ascii_of_nat 34; "'"]%char.

(** [escapeHtml (str)] for a string [str]: every match of the class is
    replaced by [escapeMap[c]] (a replacement that is [undefined] prints as
    "undefined"). *)
Fixpoint escapeHtml (str : string) : string :=
  match str with
  | EmptyString => ""
  | String c tl =>
      (if special c
       then match escapeMap_get c escapeMap with
            | Some replacement => replacement
            | None => "undefined"
            end
       else String c "") ++ escapeHtml tl
  end.

(** [simpleHash (str)]: the loop of the ledger fingerprint, printed as
    [Math.abs(hash).toString(16).padStart(8, '0')]. *)
Definition simpleHash (str : string) : string :=
  let hash := hashLoop str in
  Render.padStart 8 "0"%char (Render.toString16 (Z.abs_N hash)).

End Utils.

(* ------------------------------------------------------------------ *)
(** ** Predicates and sample data used by the statements *)

(** Every removal fraction that [TECHNOLOGIES[techId]] contributes lies in
    [[0, 1]] (vacuous when the lookup is [undefined]). *)
Definition fractions_in01 (techId : string) : Prop :=
  match TECHNOLOGIES_get techId with
  | None => True
  | Some tech =>
      in01 (attr Tech.tssRemoval tech) /\ in01 (attr Tech.tdsRemoval tech) /\
      in01 (attr Tech.bodRemoval tech) /\ in01 (attr Tech.codRemoval tech)
  end.

(** [techId] is not the name of a member of [Object.prototype]. *)
Definition not_inherited (techId : string) : bool :=
  negb (existsb (String.eqb techId) Object_prototype_names).

Definition removals_in01 (p : Perf.t) : Prop :=
  in01 (Perf.tssRemoval p) /\ in01 (Perf.tdsRemoval p) /\
  in01 (Perf.bodRemoval p) /\ in01 (Perf.codRemoval p).

(** No removal fraction of [p] exceeds that of [q]. *)
Definition removals_le (p q : Perf.t) : Prop :=
  (Perf.tssRemoval p <=? Perf.tssRemoval q) = true /\
  (Perf.tdsRemoval p <=? Perf.tdsRemoval q) = true /\
  (Perf.bodRemoval p <=? Perf.bodRemoval q) = true /\
  (Perf.codRemoval p <=? Perf.codRemoval q) = true.

Definition acc_in01 (a : Acc.t) : Prop :=
  in01 (Acc.tssRemoval a) /\ in01 (Acc.tdsRemoval a) /\
  in01 (Acc.bodRemoval a) /\ in01 (Acc.codRemoval a).

(** The numeric members of a performance record (all but the echoed
    [techs]). *)
Definition metrics (p : Perf.t) : list num :=
  [Perf.tssRemoval p; Perf.tdsRemoval p; Perf.bodRemoval p; Perf.codRemoval p;
   Perf.energy p; Perf.footprint p; Perf.capexFactor p; Perf.maintenance p;
   Perf.chemicals p].

(** The simulator form at its default values, as [gatherInputs] reads
    it. *)
Definition defaultInputs : Inputs.t :=
  Inputs.mk (Fin 1) (Fin 100) (Fin 8000) (Fin 150) (Fin 2500) (Fin 200)
    (Fin 350) (Fin 5) (Fin 500) (Fin 0.5) (Fin 0.3) (Fin 0.2) (Fin 500)
    (Fin 2000000).

(** The same form with a budget that no chain can meet. *)
Definition tightBudgetInputs : Inputs.t :=
  Inputs.mk (Fin 1) (Fin 100) (Fin 8000) (Fin 150) (Fin 2500) (Fin 200)
    (Fin 350) (Fin 5) (Fin 500) (Fin 0.5) (Fin 0.3) (Fin 0.2) (Fin 500)
    (Fin 1000).

Definition ufOnly : Chain.t :=
  Chain.mk ["UF"] "UF Only" "Particle/pathogen removal".

(** A solution object that no evaluation produces: the default solution of
    the chain "UF Only", with a technical score of 5 and the flag
    [feasible] set. *)
Definition overfitSolution : Sol.t :=
  let s := evaluateChain defaultInputs ufOnly in
  Sol.mk (Sol.name s) (Sol.description s) (Sol.techs s) (Sol.tssRemoval s)
    (Sol.tdsRemoval s) (Sol.energy s) (Sol.footprint s) (Sol.capex s)
    (Sol.recovery s) (Fin 5) (Sol.costScore s) (Sol.esgScore s)
    (Sol.overallScore s) true.

Definition check_names : list string :=
  ["TSS Removal"; "TDS Removal"; "Footprint"; "Budget (CAPEX)"].

(** The action logged by [filterFeasibleChains] for a chain. *)
Definition filterAction (this : SolutionEngine.t) (chain : Chain.t) : string :=
  (if SolutionEngine.meetsRequirements this chain
   then "Included " else "Excluded ") ++ Chain.name chain.



Definition sampleClock : nat -> string := fun _ => "2026-01-01T00:00:00.000Z".

(** A request that only relaxes the default targets: TDS 100, TSS 1 and
    BOD 10 mg/L. *)
Definition relaxedData : Data.t :=
  Data.mk None None None None
    (Some (Data.mkQuality (Some (Fin 100)) (Some (Fin 1)) (Some (Fin 10))
             None None))
    None None None None.

(** Scenario C: feed TDS 500, target TDS 600. *)
Definition scenarioC : Data.t :=
  Data.mk None None None
    (Some (Data.mkQuality (Some (Fin 500)) None None None None))
    (Some (Data.mkQuality (Some (Fin 600)) None None None None))
    None None None None.

(** Targets for BOD and COD above the feed values (feed BOD 100, target
    BOD 200; feed COD 300, target COD 400). *)
Definition bodCodAboveFeed : Data.t :=
  Data.mk None None None
    (Some (Data.mkQuality None None (Some (Fin 100)) (Some (Fin 300)) None))
    (Some (Data.mkQuality None None (Some (Fin 200)) (Some (Fin 400)) None))
    None None None None.

(** A request whose feed water has no dissolved solids. *)
Definition zeroFeedData : Data.t :=
  Data.mk None None None
    (Some (Data.mkQuality (Some (Fin 0)) None None None None))
    None None None None None.

(** The default specification after [spec.feedWater.tds = 0]. *)
Definition zeroFeedSpec : Spec.t :=
  let spec := CustomerSpec Data.empty in
  Spec.mk (Spec.sector spec) (Spec.flowRate spec) (Spec.operatingHours spec)
    (Feed.mk (Fin 0) (Feed.tss (Spec.feedWater spec))
       (Feed.bod (Spec.feedWater spec)) (Feed.cod (Spec.feedWater spec))
       (Feed.ph (Spec.feedWater spec)))
    (Spec.targetQuality spec) (Spec.constraints_ spec)
    (Spec.optionalModules spec) (Spec.esgPriorities spec)
    (Spec.vendorPreferences spec).

(** Simulator inputs with a feed free of dissolved solids. *)
Definition zeroFeedInputs : Inputs.t :=
  Inputs.mk (Fin 1) (Fin 100) (Fin 8000) (Fin 150) (Fin 0) (Fin 200)
    (Fin 350) (Fin 5) (Fin 500) (Fin 0.5) (Fin 0.3) (Fin 0.2) (Fin 500)
    (Fin 2000000).

Definition flowError : string := "Flow rate must be positive".
Definition tdsError : string := "Target TDS exceeds feed TDS".
Definition tssError : string := "Target TSS exceeds feed TSS".

(** The range of an exponential, as a double has it: on a finite argument
    the value is a non-negative number (it underflows to [0]) or it
    overflows to [+Infinity]. *)
Definition exp_range (Math_exp : num -> num) : Prop :=
  forall q : Q,
    (exists e : Q, Math_exp (Fin q) = Fin e /\ (0 <= e)%Q) \/
    Math_exp (Fin q) = PInf.

(** A rational stand-in for [Math.exp], used where a statement is
    instantiated on sample data: the fourth-order series for a non-negative
    argument and its reciprocal for a negative one. *)
Definition exp_series (q : Q) : Q :=
  (1 + q + q * q * (1 # 2) + q * q * q * (1 # 6) + q * q * q * q * (1 # 24))%Q.

Definition exp_model (x : num) : num :=
  match x with
  | Fin q => if Qle_bool 0 q then Fin (exp_series q) else Fin (/ exp_series (- q))
  | PInf => PInf
  | NInf => Fin 0
  | NaN => NaN
  end.

(** A fixed reading of [Date.now()] and two draws of [Math.random()]:
    [0.5] and [0.25]. *)
Definition sampleNow : Z := 1700000000000.
Definition drawHalf : N := 2 ^ 52.
Definition drawQuarter : N := 2 ^ 51.

Definition noFeasibleMessage : string :=
  "No feasible solutions found for the given requirements".

Definition relaxedEngine : SolutionEngine.t :=
  SolutionEngine.new (CustomerSpec relaxedData).

Definition ufRo : Chain.t :=
  Chain.mk ["UF"; "RO"] "UF + RO" "Standard high-purity treatment".

(** The solution the engine evaluates for "UF + RO" under the relaxed
    targets (lemma [relaxedSolution_evaluated]). *)
Definition blankSolution : Solution.t :=
  Solution.mk ufRo [] "" "" (calculateChainPerformance []) NaN NaN NaN NaN
    (EsgMetrics.mk NaN NaN NaN NaN NaN NaN NaN NaN) NaN NaN NaN false.

Definition relaxedSolution : Solution.t :=
  Eval vm_compute in
    match SolutionEngine.evaluateSolution relaxedEngine ufRo with
    | Returns solution => solution
    | Throws _ => blankSolution
    end.

Definition relaxedPricing : PricingModel.t :=
  PricingModel.mk relaxedSolution (CustomerSpec relaxedData).



(** What the margin loop of [findOptimalPrice] maintains, for a capital cost
    [capex]: the best pair holds a price not below the capital cost and an
    expected value that is non-negative, not above the expected value of
    that price, and not below the expected value of any margin tested so
    far. *)
Definition price_search_inv (Math_exp : num -> num) (this : PricingModel.t)
  (capex : Q) (tested : list num) (best : num * num) : Prop :=
  exists bestPrice bestEV : Q,
    best = (Fin bestPrice, Fin bestEV) /\
    (capex <= bestPrice)%Q /\ (0 <= bestEV)%Q /\
    (Fin bestEV <=? PricingModel.expectedValueAt Math_exp this (Fin bestPrice))
    = true /\
    forall m, In m tested ->
      (PricingModel.expectedValueAt Math_exp this
         (PricingModel.calculatePrice this m) <=? Fin bestEV) = true.

(** The number a string of lower-case hexadecimal digits denotes. *)
Definition hexDigitValue (c : ascii) : N :=
  let n := N_of_ascii c in if (n <? 58)%N then (n - 48)%N else (n - 87)%N.

Fixpoint hexValue_from (v : N) (s : string) : N :=
  match s with
  | EmptyString => v
  | String c tl => hexValue_from (16 * v + hexDigitValue c) tl
  end.

Definition hexValue (s : string) : N := hexValue_from 0 s.

(* ------------------------------------------------------------------ *)
(** ** Predicates and sample data of the further properties *)

(** A finite number that is not negative. *)
Definition nonnegb (x : num) : bool := finite x && (Fin 0 <=? x).

(** The simulator inputs the score bounds are stated for: a finite
    non-negative flow, a finite positive budget, and finite non-negative
    priorities. *)
Definition scorable (inputs : Inputs.t) : Prop :=
  nonnegb (Inputs.flow inputs) = true /\
  (finite (Inputs.maxBudget inputs) && (Fin 0 <? Inputs.maxBudget inputs))%bool
  = true /\
  nonnegb (Inputs.waterPriority inputs) = true /\
  nonnegb (Inputs.carbonPriority inputs) = true /\
  nonnegb (Inputs.energyPriority inputs) = true.

(** The comparison function [(a, b) => key(b) - key(a)] and the order it
    sorts into: [a] before [b] when the key of [a] is not lower. *)
Definition descending {A : Type} (key : A -> num) (a b : A) : num :=
  key b - key a.

Definition key_order {A : Type} (key : A -> num) (a b : A) : Prop :=
  (key b <=? key a) = true.

(** [a] ranks before [b]: its overall score is not lower. *)
Definition ranks_before (a b : Sol.t) : Prop :=
  (Sol.overallScore b <=? Sol.overallScore a) = true.

(** The numbers of a specification that its constructor reads with a
    default: flow, hours, the feed and target qualities and the ESG
    priorities. *)
Definition spec_numbers (spec : Spec.t) : list num :=
  [ Spec.flowRate spec; Spec.operatingHours spec;
    Feed.tds (Spec.feedWater spec); Feed.tss (Spec.feedWater spec);
    Feed.bod (Spec.feedWater spec); Feed.cod (Spec.feedWater spec);
    Feed.ph (Spec.feedWater spec);
    Target.tds (Spec.targetQuality spec); Target.tss (Spec.targetQuality spec);
    Target.bod (Spec.targetQuality spec); Target.cod (Spec.targetQuality spec);
    Weights.water (Spec.esgPriorities spec);
    Weights.carbon (Spec.esgPriorities spec);
    Weights.energy (Spec.esgPriorities spec) ].

Definition required_numbers (r : Required.t) : list num :=
  [Required.tds r; Required.tss r; Required.bod r; Required.cod r].

(** The same engine for a specification that differs in its
    [constraints.containerized] flag only. *)
Definition withContainerized (b : bool) (this : SolutionEngine.t)
  : SolutionEngine.t :=
  let spec := SolutionEngine.spec this in
  let cs := Spec.constraints_ spec in
  SolutionEngine.mk
    (Spec.mk (Spec.sector spec) (Spec.flowRate spec) (Spec.operatingHours spec)
       (Spec.feedWater spec) (Spec.targetQuality spec)
       (Spec.mkConstraints (Spec.maxFootprint cs) (Spec.maxPower cs)
          (Spec.maxCapex cs) b (Spec.allowedChemicals cs))
       (Spec.optionalModules spec) (Spec.esgPriorities spec)
       (Spec.vendorPreferences spec))
    (SolutionEngine.requiredRemoval this)
    (SolutionEngine.decisions this).

(** [q ^ n] on rationals, as [pow] computes it. *)
Fixpoint Qpow (q : Q) (n : nat) : Q :=
  match n with
  | O => 1
  | S k => q * Qpow q k
  end.

(** The discounted weight of the operating cost of [year]:
    [1.03 ^ (year - 1) / 1.08 ^ year]. *)
Definition npvWeight (year : nat) : Q :=
  (Qpow 1.03 (year - 1) / Qpow (1 + 0.08) year)%Q.

Definition npvWeights (years : list nat) : Q :=
  fold_right (fun year acc => (npvWeight year + acc)%Q) 0%Q years.

(** An exponential does not decrease (on finite arguments). *)
Definition exp_monotone (Math_exp : num -> num) : Prop :=
  forall a b : Q, (a <= b)%Q -> (Math_exp (Fin a) <=? Math_exp (Fin b)) = true.

(** The sum of the five parts of a capital-cost breakdown and of the four
    parts of an operating-cost breakdown. *)
Definition capexParts (parts : num * num * num * num * num) : num :=
  let '(equipment, installation, controls, commissioning, contingency) := parts in
  equipment + installation + controls + commissioning + contingency.

Definition opexParts (parts : num * num * num * num) : num :=
  let '(energy, chemicals, maintenance, labor) := parts in
  energy + chemicals + maintenance + labor.

(** [a] is listed before [b] by the solution engine: its score is not
    lower. *)
Definition outranks (a b : Solution.t) : Prop :=
  (Solution.score b <=? Solution.score a) = true.

(** The solutions the engine generates for the relaxed targets. *)
Definition relaxedSolutions : list Solution.t :=
  Eval vm_compute in
    match snd (SolutionEngine.generateSolutions sampleClock relaxedEngine) with
    | Returns solutions => solutions
    | Throws _ => []
    end.

(** The characters that open or close markup or an attribute value. *)
Definition markup (c : ascii) : bool :=
  existsb (Ascii.eqb c) ["<"; ">"; ascii_of_nat 34; "'"]%char.

(* ------------------------------------------------------------------ *)
(** ** Arithmetic of JavaScript numbers *)

Lemma le_Fin (a b : Q) : (Fin a <=? Fin b) = true <-> (a <= b)%Q.
Proof. apply Qle_bool_iff. Qed.

Lemma le_Fin_false (a b : Q) : (Fin a <=? Fin b) = false <-> (b < a)%Q.
Proof.
  simpl. split; intro H.
  - apply Qnot_le_lt. intro Hle. apply Qle_bool_iff in Hle. congruence.
  - destruct (Qle_bool a b) eqn:E; [|reflexivity].
    apply Qle_bool_iff in E. exfalso. apply (Qlt_not_le _ _ H E).
Qed.

Lemma lt_Fin (a b : Q) : (Fin a <? Fin b) = true <-> (a < b)%Q.
Proof.
  simpl. rewrite negb_true_iff. apply le_Fin_false.
Qed.

Lemma lt_Fin_false (a b : Q) : (Fin a <? Fin b) = false <-> (b <= a)%Q.
Proof.
  simpl. rewrite negb_false_iff. apply Qle_bool_iff.
Qed.

Lemma Qeq_bool_false_pos (q : Q) : (0 < q)%Q -> Qeq_bool q 0 = false.
Proof.
  intro H. destruct (Qeq_bool q 0) eqn:E; [|reflexivity].
  apply Qeq_bool_iff in E. rewrite E in H. exfalso. apply (Qlt_irrefl _ H).
Qed.

Lemma in01_Fin (x : num) : in01 x -> exists q, x = Fin q /\ (0 <= q <= 1)%Q.
Proof. destruct x; simpl; try tauto. intro H. exists q. split; [reflexivity|exact H]. Qed.

Lemma in01_in01b (x : num) : in01 x <-> in01b x = true.
Proof.
  unfold in01b. destruct x; simpl; try (split; [tauto | discriminate]).
  rewrite andb_true_iff, !Qle_bool_iff. tauto.
Qed.

(** Serial composition stays in the unit interval and does not fall below
    the removal already reached. *)
Lemma serial_in01 (acc r : num) :
  in01 acc -> in01 r -> in01 (serial acc r) /\ (acc <=? serial acc r) = true.
Proof.
  intros Ha Hr.
  destruct (in01_Fin _ Ha) as (a & -> & Ha0 & Ha1).
  destruct (in01_Fin _ Hr) as (b & -> & Hb0 & Hb1).
  unfold serial. simpl. rewrite Qle_bool_iff.
  repeat split; nra.
Qed.

(** An identifier that is skipped leaves the accumulators as they are. *)
Lemma chainStep_undefined (acc : Acc.t) (techId : string) :
  TECHNOLOGIES_get techId = None -> chainStep acc techId = acc.
Proof. intro H. unfold chainStep. rewrite H. reflexivity. Qed.

Lemma chainStep_in01 (acc : Acc.t) (techId : string) :
  acc_in01 acc -> fractions_in01 techId -> acc_in01 (chainStep acc techId).
Proof.
  unfold acc_in01, fractions_in01, chainStep.
  intros (H1 & H2 & H3 & H4) Hf.
  destruct (TECHNOLOGIES_get techId) as [tech|]; simpl.
  - destruct Hf as (F1 & F2 & F3 & F4).
    repeat split; apply serial_in01; assumption.
  - tauto.
Qed.

Lemma chainLoop_in01 (techs : list string) :
  Forall fractions_in01 techs ->
  forall acc, acc_in01 acc -> acc_in01 (chainLoop techs acc).
Proof.
  unfold chainLoop.
  induction 1 as [|techId rest Hid _ IH]; intros acc Hacc; simpl.
  - exact Hacc.
  - apply IH. apply chainStep_in01; assumption.
Qed.

Lemma chainLoop_snoc (techs : list string) (techId : string) (acc : Acc.t) :
  chainLoop (techs ++ [techId]) acc = chainStep (chainLoop techs acc) techId.
Proof. unfold chainLoop. rewrite fold_left_app. reflexivity. Qed.

Lemma in01_le_refl (x : num) : in01 x -> (x <=? x) = true.
Proof.
  intro H. destruct (in01_Fin _ H) as (q & -> & _).
  apply le_Fin. apply Qle_refl.
Qed.

Lemma acc_init_in01 : acc_in01 Acc.init.
Proof. unfold acc_in01; simpl. repeat split; discriminate. Qed.

(** Every technology registered in [TECHNOLOGIES] has its four removal
    fractions in the unit interval. *)
Lemma registry_fractions_in01 :
  Forall (fun entry => fractions_in01 (fst entry)) TECHNOLOGIES.
Proof.
  repeat constructor; unfold fractions_in01; simpl; repeat split; discriminate.
Qed.

(** A name that is neither registered nor a member of [Object.prototype]
    reads as [undefined], and every other name that is not such a member
    has fractions in the unit interval. *)
Lemma fractions_in01_own (techId : string) :
  existsb (String.eqb techId) Object_prototype_names = false ->
  fractions_in01 techId.
Proof.
  intro Hp. unfold fractions_in01, TECHNOLOGIES_get. rewrite Hp.
  destruct (assoc techId TECHNOLOGIES) as [t|] eqn:E; [|exact I].
  revert E. unfold TECHNOLOGIES. simpl.
  repeat (destruct (String.eqb techId _);
          [intro E; injection E as <-; simpl; repeat split; discriminate|]).
  discriminate.
Qed.

(** Renderings on sample values. *)
Example rendering_samples :
  Render.numToString (Fin 100) = "100" /\
  Render.numToString (Fin 0.4) = "0.4" /\
  Render.numToString (Fin (-2.25)) = "-2.25" /\
  Render.toFixed 1 (Fin 99.33) = "99.3" /\
  Render.toFixed 0 (Fin 2.5) = "3" /\
  Render.toFixed 2 (Fin (-0.001)) = "-0.00" /\
  Render.toString16 255 = "ff" /\
  Render.padStart 4 "0"%char "ab" = "00ab" /\
  Render.substr 2 48 "0.8" = "8" /\
  random_toString16 drawHalf = "0.8" /\
  random_toString16 drawQuarter = "0.4" /\
  hashLoop "abc" = 96354%Z.
Proof. repeat split; reflexivity. Qed.

(* ------------------------------------------------------------------ *)
(** ** Chain composer *)

(** C4.  For every chain whose technologies have removal fractions in
    [[0, 1]], each combined removal fraction (TSS, TDS, BOD, COD) computed
    by [calculateChainPerformance] lies in [[0, 1]], and appending one more
    such technology never lowers any of them. *)
Theorem chain_removal_bounded_monotone (techs : list string) :
  Forall fractions_in01 techs ->
  removals_in01 (calculateChainPerformance techs) /\
  forall techId, fractions_in01 techId ->
    removals_le (calculateChainPerformance techs)
                (calculateChainPerformance (techs ++ [techId])).
Proof.
  intro Hall.
  pose proof (chainLoop_in01 techs Hall Acc.init acc_init_in01) as Hacc.
  split.
  - exact Hacc.
  - intros techId Hid.
    unfold removals_le, calculateChainPerformance, perfOf; simpl.
    rewrite chainLoop_snoc.
    destruct Hacc as (H1 & H2 & H3 & H4).
    unfold chainStep. unfold fractions_in01 in Hid.
    destruct (TECHNOLOGIES_get techId) as [tech|]; simpl.
    + destruct Hid as (F1 & F2 & F3 & F4).
      repeat split; apply serial_in01; assumption.
    + repeat split; apply in01_le_refl; assumption.
Qed.

Lemma chain_removal_bounded_monotone_witness :
  Forall fractions_in01 ["DAF"; "UF"] /\
  removals_in01 (calculateChainPerformance ["DAF"; "UF"]) /\
  removals_le (calculateChainPerformance ["DAF"; "UF"])
              (calculateChainPerformance (["DAF"; "UF"] ++ ["RO"])).
Proof.
  assert (H : Forall fractions_in01 ["DAF"; "UF"]).
  { apply Forall_cons; [apply fractions_in01_own; reflexivity|].
    apply Forall_cons; [apply fractions_in01_own; reflexivity|].
    apply Forall_nil. }
  split; [exact H|].
  destruct (chain_removal_bounded_monotone ["DAF"; "UF"] H) as [Hb Hm].
  split; [exact Hb|].
  apply Hm. apply fractions_in01_own. reflexivity.
Defined.

(** An identifier that reads as [undefined] is skipped wherever it stands
    in the chain: every numeric member of the result is unchanged. *)
Lemma undefined_identifier_skipped (before after : list string) (techId : string) :
  TECHNOLOGIES_get techId = None ->
  metrics (calculateChainPerformance (before ++ techId :: after)) =
  metrics (calculateChainPerformance (before ++ after)).
Proof.
  intro H. unfold calculateChainPerformance, metrics, perfOf, chainLoop; simpl.
  rewrite !fold_left_app. simpl. rewrite (chainStep_undefined _ _ H).
  reflexivity.
Qed.

(** C10 (evaluation at the failing input).  ["constructor"] is not a
    registered technology, yet [TECHNOLOGIES["constructor"]] is the
    inherited [Object] function: the guard [if (!tech) return] lets it
    through, its attributes read as [undefined], and every numeric member
    of the result becomes [NaN] where the chain [["UF"]] alone gives
    numbers. *)
Theorem inherited_identifier_not_skipped :
  assoc "constructor" TECHNOLOGIES = None /\
  metrics (calculateChainPerformance ["UF"; "constructor"]) =
    [NaN; NaN; NaN; NaN; NaN; NaN; NaN; NaN; NaN] /\
  removals_in01 (calculateChainPerformance ["UF"]) /\
  metrics (calculateChainPerformance ["UF"; "constructor"]) <>
  metrics (calculateChainPerformance ["UF"]).
Proof.
  split; [reflexivity|].
  split; [reflexivity|].
  split.
  - unfold removals_in01; simpl. repeat split; discriminate.
  - discriminate.
Qed.

(* ------------------------------------------------------------------ *)
(** ** Sorting *)

Section ArraySortFacts.
Context {A : Type} (cmp : A -> A -> num).

Lemma sort_insert_perm (x : A) (l : list A) :
  Permutation (sort_insert cmp x l) (x :: l).
Proof.
  induction l as [|y tl IH]; cbn [sort_insert].
  - apply Permutation_refl.
  - destruct (cmp x y >? Fin 0).
    + apply Permutation_trans with (y :: x :: tl).
      * apply perm_skip. exact IH.
      * apply perm_swap.
    + apply Permutation_refl.
Qed.

(** The sorted array is a rearrangement of the array. *)
Lemma Array_sort_perm (l : list A) : Permutation (Array_sort cmp l) l.
Proof.
  induction l as [|x tl IH]; cbn [Array_sort fold_right].
  - apply perm_nil.
  - apply Permutation_trans with (x :: Array_sort cmp tl).
    + apply sort_insert_perm.
    + apply perm_skip. exact IH.
Qed.

Lemma Array_sort_In (l : list A) (x : A) : In x (Array_sort cmp l) <-> In x l.
Proof.
  split; apply Permutation_in;
    [apply Array_sort_perm | apply Permutation_sym, Array_sort_perm].
Qed.

Lemma Array_sort_length (l : list A) : List.length (Array_sort cmp l) = List.length l.
Proof. apply Permutation_length, Array_sort_perm. Qed.

End ArraySortFacts.

(* ------------------------------------------------------------------ *)
(** ** Evaluation of the chains *)


Lemma evaluateTechnologies_In (inputs : Inputs.t) (solution : Sol.t) :
  In solution (evaluateTechnologies inputs) <->
  exists chain, In chain TECH_CHAINS /\ solution = evaluateChain inputs chain.
Proof.
  unfold evaluateTechnologies. rewrite Array_sort_In, in_map_iff.
  split; intros (chain & H1 & H2); exists chain; auto.
Qed.

Lemma evaluateChain_In (inputs : Inputs.t) (chain : Chain.t) :
  In chain TECH_CHAINS ->
  In (evaluateChain inputs chain) (evaluateTechnologies inputs).
Proof.
  intro H. apply (proj2 (evaluateTechnologies_In inputs _)).
  exists chain. split; [exact H | reflexivity].
Qed.

Lemma ufOnly_In : In ufOnly TECH_CHAINS.
Proof. right. right. left. reflexivity. Qed.

(** C5.  For every input record and every solution returned by
    [evaluateTechnologies], [checkConstraints] returns the four checks
    (TSS removal, TDS removal, footprint, budget), and the solution's
    [feasible] flag is true if and only if all four have [pass = true]. *)
Theorem feasible_iff_all_checks_pass (inputs : Inputs.t) (solution : Sol.t) :
  In solution (evaluateTechnologies inputs) ->
  map Check.name (checkConstraints inputs solution) = check_names /\
  (Sol.feasible solution = true <->
   forall c, In c (checkConstraints inputs solution) -> Check.pass c = true).
Proof.
  intro Hin. apply evaluateTechnologies_In in Hin.
  destruct Hin as (chain & _ & ->).
  split; [reflexivity|].
  rewrite <- forallb_forall.
  unfold checkConstraints, evaluateChain.
  cbn -[ge le mul calculateRemovalNeeded calculateChainPerformance
        normalizeESGWeights].
  rewrite !andb_true_iff. tauto.
Qed.

Lemma feasible_iff_all_checks_pass_witness :
  let solution := evaluateChain defaultInputs ufOnly in
  In solution (evaluateTechnologies defaultInputs) /\
  map Check.name (checkConstraints defaultInputs solution) = check_names /\
  (Sol.feasible solution = true <->
   forall c, In c (checkConstraints defaultInputs solution) ->
             Check.pass c = true).
Proof.
  intro solution.
  assert (H : In solution (evaluateTechnologies defaultInputs)).
  { apply evaluateChain_In. exact ufOnly_In. }
  split; [exact H|].
  exact (feasible_iff_all_checks_pass defaultInputs solution H).
Defined.

Lemma evaluateTechnologies_length (inputs : Inputs.t) :
  List.length (evaluateTechnologies inputs) = List.length TECH_CHAINS.
Proof.
  unfold evaluateTechnologies. rewrite Array_sort_length. apply length_map.
Qed.

(** The ranking is never empty: it has a first solution. *)
Lemma evaluateTechnologies_head (inputs : Inputs.t) :
  exists best rest, evaluateTechnologies inputs = best :: rest.
Proof.
  pose proof (evaluateTechnologies_length inputs) as H.
  destruct (evaluateTechnologies inputs) as [|best rest].
  - discriminate H.
  - exists best, rest. reflexivity.
Qed.

Lemma feasible_forallb_pass (inputs : Inputs.t) (solution : Sol.t) :
  In solution (evaluateTechnologies inputs) ->
  Sol.feasible solution
  = forallb Check.pass (checkConstraints inputs solution).
Proof.
  intro Hin. apply evaluateTechnologies_In in Hin.
  destruct Hin as (chain & _ & ->).
  unfold checkConstraints, evaluateChain.
  cbn -[ge le mul calculateRemovalNeeded calculateChainPerformance
        normalizeESGWeights].
  rewrite !andb_true_r, !andb_assoc. reflexivity.
Qed.

(* ------------------------------------------------------------------ *)
(** ** Technical fit and confidence *)

Lemma in01_one : in01 (Fin 1).
Proof. simpl. split; discriminate. Qed.

Lemma in01_zero : in01 (Fin 0).
Proof. simpl. split; discriminate. Qed.

Lemma in01_mul (x y : num) : in01 x -> in01 y -> in01 (x * y).
Proof.
  intros Hx Hy.
  destruct (in01_Fin _ Hx) as (a & -> & Ha0 & Ha1).
  destruct (in01_Fin _ Hy) as (b & -> & Hb0 & Hb1).
  simpl. split; nra.
Qed.

(** The score of one parameter, [achieved >= needed ? 1 : achieved /
    (needed || 1)], lies in the unit interval whatever [needed] is. *)
Lemma fit_in01 (achieved needed : num) :
  in01 achieved ->
  in01 (if achieved >=? needed then Fin 1 else achieved / (needed || Fin 1)).
Proof.
  intro Ha. destruct (in01_Fin _ Ha) as (p & -> & Hp0 & Hp1).
  destruct needed as [n| | |]; unfold ge.
  - destruct (Fin n <=? Fin p) eqn:E; [exact in01_one|].
    apply le_Fin_false in E.
    assert (Hn : (0 < n)%Q) by lra.
    unfold or_else, truthy. rewrite (Qeq_bool_false_pos n Hn). simpl.
    rewrite (Qeq_bool_false_pos n Hn).
    split.
    + apply Qle_shift_div_l; [exact Hn | lra].
    + apply Qle_shift_div_r; [exact Hn | lra].
  - simpl. split; discriminate.
  - exact in01_one.
  - simpl. split.
    + apply Qle_shift_div_l; [reflexivity | lra].
    + apply Qle_shift_div_r; [reflexivity | lra].
Qed.

Lemma not_inherited_fractions (ids : list string) :
  forallb not_inherited ids = true -> Forall fractions_in01 ids.
Proof.
  induction ids as [|techId rest IH]; cbn [forallb]; intro H.
  - apply Forall_nil.
  - apply andb_true_iff in H. destruct H as [H1 H2].
    apply Forall_cons; [|apply IH; exact H2].
    apply fractions_in01_own. unfold not_inherited in H1.
    apply negb_true_iff in H1. exact H1.
Qed.

Lemma TECH_CHAINS_fractions :
  Forall (fun chain => Forall fractions_in01 (Chain.techs chain)) TECH_CHAINS.
Proof.
  apply Forall_forall. intros chain Hin. apply not_inherited_fractions.
  revert chain Hin. apply Forall_forall.
  unfold TECH_CHAINS. repeat constructor.
Qed.

Lemma TECH_CHAINS_removals_in01 (chain : Chain.t) :
  In chain TECH_CHAINS ->
  removals_in01 (calculateChainPerformance (Chain.techs chain)).
Proof.
  intro Hin.
  pose proof (proj1 (Forall_forall _ _) TECH_CHAINS_fractions chain Hin) as Hf.
  exact (chainLoop_in01 _ Hf Acc.init acc_init_in01).
Qed.

(** The technical score of every evaluated chain lies in [[0, 1]],
    whatever the inputs are. *)
Lemma techScore_in01 (inputs : Inputs.t) (solution : Sol.t) :
  In solution (evaluateTechnologies inputs) -> in01 (Sol.techScore solution).
Proof.
  intro Hin. apply evaluateTechnologies_In in Hin.
  destruct Hin as (chain & Hc & ->).
  destruct (TECH_CHAINS_removals_in01 chain Hc) as (Htss & Htds & _).
  unfold evaluateChain.
  cbn -[ge le mul div or_else calculateRemovalNeeded calculateChainPerformance
        normalizeESGWeights].
  apply in01_mul; apply fit_in01; assumption.
Qed.

(** The score as a function of the technical score and the feasibility
    flag. *)
Lemma confidence_score_range (inputs : Inputs.t) (solution : Sol.t) :
  in01 (Sol.techScore solution) ->
  exists s, Confidence.score (calculateConfidence inputs solution) = Fin s /\
            (41.5 <= s <= 91.5)%Q.
Proof.
  intro Ht. destruct (in01_Fin _ Ht) as (t & Et & Ht0 & Ht1).
  unfold calculateConfidence. rewrite Et.
  destruct (Sol.feasible solution); simpl; eexists; (split; [reflexivity|]);
    split; lra.
Qed.

(** C8 (the claim fails for a solution that no evaluation produced).
    [calculateConfidence] does not clamp: for a solution object with
    [techScore = 5] and [feasible = true] the score is above 100. *)
Lemma confidence_score_unclamped :
  let c := calculateConfidence defaultInputs overfitSolution in
  (Confidence.score c >? Fin 100) = true /\
  (Confidence.score c <=? Fin 100) = false /\
  Confidence.decision c = "Auto-approve recommended".
Proof. vm_compute. repeat split. Qed.

(** C8 (amended).  For every input and every solution returned by
    [evaluateTechnologies], the confidence score returned by
    [calculateConfidence] lies in [[0, 100]]; and for any solution
    whatever, a score of at least 80 comes with the decision label
    "Auto-approve recommended". *)
Theorem confidence_score_bounded (inputs evaluated : Inputs.t) (solution : Sol.t) :
  In solution (evaluateTechnologies evaluated) ->
  let c := calculateConfidence inputs solution in
  (Fin 0 <=? Confidence.score c) = true /\
  (Confidence.score c <=? Fin 100) = true /\
  forall other : Sol.t,
    let c' := calculateConfidence inputs other in
    (Confidence.score c' >=? Fin 80) = true ->
    Confidence.decision c' = "Auto-approve recommended".
Proof.
  intros Hin c.
  destruct (confidence_score_range inputs solution (techScore_in01 _ _ Hin))
    as (s & Es & Hs0 & Hs1).
  subst c. rewrite Es.
  split; [apply le_Fin; lra|].
  split; [apply le_Fin; lra|].
  intros other c' H. subst c'.
  unfold calculateConfidence in *.
  cbn [Confidence.score Confidence.decision] in *.
  rewrite H. reflexivity.
Qed.

Lemma confidence_score_bounded_witness :
  let solution := evaluateChain defaultInputs ufOnly in
  let c := calculateConfidence defaultInputs solution in
  In solution (evaluateTechnologies defaultInputs) /\
  (Fin 0 <=? Confidence.score c) = true /\
  (Confidence.score c <=? Fin 100) = true.
Proof.
  intros solution c.
  assert (H : In solution (evaluateTechnologies defaultInputs)).
  { apply evaluateChain_In. exact ufOnly_In. }
  split; [exact H|].
  destruct (confidence_score_bounded defaultInputs defaultInputs solution H)
    as (H0 & H100 & _).
  split; assumption.
Defined.

(* ------------------------------------------------------------------ *)
(** ** Feasibility filter of the solution engine *)

Section FilterFacts.
Variable clock : nat -> string.

Lemma meetsRequirements_ext (this this' : SolutionEngine.t) (chain : Chain.t) :
  SolutionEngine.requiredRemoval this' = SolutionEngine.requiredRemoval this ->
  SolutionEngine.meetsRequirements this' chain
  = SolutionEngine.meetsRequirements this chain.
Proof. intro H. unfold SolutionEngine.meetsRequirements. rewrite H. reflexivity. Qed.

Lemma filterAction_ext (this this' : SolutionEngine.t) (chain : Chain.t) :
  SolutionEngine.requiredRemoval this' = SolutionEngine.requiredRemoval this ->
  filterAction this' chain = filterAction this chain.
Proof.
  intro H. unfold filterAction. rewrite (meetsRequirements_ext _ _ _ H).
  reflexivity.
Qed.

(** One call of the filter's callback: the verdict is the predicate, the
    engine keeps its requirement and gains one decision. *)
Lemma filterCallback_spec (this : SolutionEngine.t) (chain : Chain.t) :
  let (keep, this') := SolutionEngine.filterCallback clock this chain in
  keep = SolutionEngine.meetsRequirements this chain /\
  SolutionEngine.requiredRemoval this' = SolutionEngine.requiredRemoval this /\
  map Decision.action (SolutionEngine.decisions this')
  = (map Decision.action (SolutionEngine.decisions this)
     ++ [filterAction this chain])%list.
Proof.
  unfold SolutionEngine.filterCallback, filterAction,
    SolutionEngine.meetsRequirements.
  destruct (_ && _ && _)%bool;
    (split; [reflexivity|]; split; [reflexivity|]);
    cbn [SolutionEngine.logDecision SolutionEngine.decisions];
    rewrite map_app; reflexivity.
Qed.

Lemma filterWith_spec (chains : list Chain.t) :
  forall this : SolutionEngine.t,
  let (kept, this') := SolutionEngine.filterWith clock chains this in
  kept = filter (SolutionEngine.meetsRequirements this) chains /\
  SolutionEngine.requiredRemoval this' = SolutionEngine.requiredRemoval this /\
  map Decision.action (SolutionEngine.decisions this')
  = (map Decision.action (SolutionEngine.decisions this)
     ++ map (filterAction this) chains)%list.
Proof.
  induction chains as [|chain rest IH]; intro this;
    cbn [SolutionEngine.filterWith].
  - cbn [filter map]. rewrite app_nil_r. auto.
  - pose proof (filterCallback_spec this chain) as Hc.
    destruct (SolutionEngine.filterCallback clock this chain) as [keep this1].
    destruct Hc as (-> & Hreq & Hdec).
    specialize (IH this1).
    destruct (SolutionEngine.filterWith clock rest this1) as [kept this2].
    destruct IH as (-> & Hreq2 & Hdec2).
    cbn [filter map].
    split; [|split].
    + rewrite (filter_ext _ _ (fun c => meetsRequirements_ext this this1 c Hreq)).
      reflexivity.
    + congruence.
    + rewrite Hdec2, Hdec, <- app_assoc. cbn [app]. f_equal. f_equal.
      apply map_ext. intro c. apply filterAction_ext. exact Hreq.
Qed.



End FilterFacts.



(** With the relaxed targets the five chains that end in reverse osmosis
    are kept and the other three are logged as excluded. *)
Example filter_relaxed_targets :
  let this := SolutionEngine.new (CustomerSpec relaxedData) in
  let (kept, this') := SolutionEngine.filterFeasibleChains sampleClock this in
  map Chain.name kept
  = ["UF + RO"; "MBR + RO"; "UF + RO + UV"; "DAF + UF + RO"; "UF + AOP + RO"] /\
  map Decision.action (SolutionEngine.decisions this')
  = ["Included UF + RO"; "Included MBR + RO"; "Excluded UF Only";
     "Excluded MBR Only"; "Included UF + RO + UV"; "Included DAF + UF + RO";
     "Excluded MBR + NF"; "Included UF + AOP + RO"] /\
  nth_error (map Decision.reason (SolutionEngine.decisions this')) 2
  = Some "Does not meet requirements (TDS: 5.0% vs 93.3% required)".
Proof. vm_compute. repeat split. Qed.

(* ------------------------------------------------------------------ *)
(** ** Validation of a specification *)

(** C3 (the claim fails for BOD and COD).  A specification whose BOD and
    COD targets exceed the feed values is reported valid, with no error. *)
Lemma validate_ignores_bod_cod :
  let this := CustomerSpec bodCodAboveFeed in
  (Feed.bod (Spec.feedWater this) <? Target.bod (Spec.targetQuality this)) = true /\
  (Feed.cod (Spec.feedWater this) <? Target.cod (Spec.targetQuality this)) = true /\
  validate this = Validation.mk true [].
Proof. vm_compute. repeat split. Qed.

(** C3 (amended).  For every specification, [validate] reports exactly the
    violations among these three: a flow rate that is not strictly
    positive, a TDS target above the feed TDS, a TSS target above the feed
    TSS.  Each violated check contributes its error (all of them, not just
    the first), [valid] is false exactly when one of the three is violated,
    and in Scenario C (target TDS 600, feed TDS 500) the result is
    [valid = false] with the single TDS error. *)
Theorem validate_reports_flow_tds_tss (this : Spec.t) :
  let v := validate this in
  let feed := Spec.feedWater this in
  let target := Spec.targetQuality this in
  (In flowError (Validation.errors v) <-> (Spec.flowRate this <=? Fin 0) = true) /\
  (In tdsError (Validation.errors v) <-> (Feed.tds feed <? Target.tds target) = true) /\
  (In tssError (Validation.errors v) <-> (Feed.tss feed <? Target.tss target) = true) /\
  (forall e, In e (Validation.errors v) ->
             e = flowError \/ e = tdsError \/ e = tssError) /\
  (Validation.valid v = false <->
   (Spec.flowRate this <=? Fin 0) = true \/
   (Feed.tds feed <? Target.tds target) = true \/
   (Feed.tss feed <? Target.tss target) = true) /\
  validate (CustomerSpec scenarioC) = Validation.mk false [tdsError].
Proof.
  intros v feed target. subst v feed target.
  split; [|split; [|split; [|split; [|split; [|reflexivity]]]]];
    unfold validate, push_if, flowError, tdsError, tssError;
    destruct (Spec.flowRate this <=? Fin 0);
    destruct (Feed.tds (Spec.feedWater this) <? Target.tds (Spec.targetQuality this));
    destruct (Feed.tss (Spec.feedWater this) <? Target.tss (Spec.targetQuality this));
    cbn [app List.length Nat.eqb Validation.errors Validation.valid In];
    intuition (try discriminate; try congruence).
Qed.

(* ------------------------------------------------------------------ *)
(** ** Required removal *)

(** The simulator's [calculateRemovalNeeded] guards both parameters: a feed
    concentration of [0] gives a required removal of [0]. *)
Lemma calculateRemovalNeeded_zero_feed (inputs : Inputs.t) :
  (Inputs.tss inputs = Fin 0 ->
   Removal.tss (calculateRemovalNeeded inputs) = Fin 0) /\
  (Inputs.tds inputs = Fin 0 ->
   Removal.tds (calculateRemovalNeeded inputs) = Fin 0).
Proof.
  unfold calculateRemovalNeeded; cbn [Removal.tss Removal.tds].
  split; intros ->; reflexivity.
Qed.

(** With a positive finite feed and a finite target the required removal is
    the finite number [1 - target / feed]. *)
Lemma calculateRemovalNeeded_finite (inputs : Inputs.t) (feed target : Q) :
  Inputs.tss inputs = Fin feed -> Inputs.tssTarget inputs = Fin target ->
  (0 < feed)%Q ->
  Removal.tss (calculateRemovalNeeded inputs) = Fin (1 - target / feed).
Proof.
  intros Hf Ht Hpos. unfold calculateRemovalNeeded; cbn [Removal.tss].
  rewrite Hf, Ht.
  assert (E : (Fin feed >? Fin 0) = true) by (apply lt_Fin; exact Hpos).
  rewrite E. simpl. rewrite (Qeq_bool_false_pos feed Hpos). reflexivity.
Qed.

(** C7 (evaluation at the failing input).  For a feed with TDS [0] the
    simulator path gives a required removal of [0]; the proposal engine
    does not: the constructor replaces the zero feed by its default of 1500
    mg/L, so [getRequiredRemoval] answers [1 - 10/1500] instead of [0], and
    on a specification whose feed TDS is [0] it divides by zero and answers
    [-Infinity]. *)
Theorem getRequiredRemoval_unguarded :
  Removal.tds (calculateRemovalNeeded zeroFeedInputs) = Fin 0 /\
  Feed.tds (Spec.feedWater (CustomerSpec zeroFeedData)) = Fin 1500 /\
  eqb (Required.tds (getRequiredRemoval (CustomerSpec zeroFeedData)))
      (Fin (1 - 10 / 1500)) = true /\
  eqb (Required.tds (getRequiredRemoval (CustomerSpec zeroFeedData)))
      (Fin 0) = false /\
  Feed.tds (Spec.feedWater zeroFeedSpec) = Fin 0 /\
  Required.tds (getRequiredRemoval zeroFeedSpec) = NInf.
Proof. repeat split; reflexivity. Qed.

(* ------------------------------------------------------------------ *)
(** ** No feasible chain *)

Lemma exp_model_range : exp_range exp_model.
Proof.
  intro q. left. unfold exp_model.
  destruct (Qle_bool 0 q) eqn:E.
  - apply Qle_bool_iff in E. eexists. split; [reflexivity|].
    unfold exp_series. nra.
  - eexists. split; [reflexivity|].
    assert (Hq : (q < 0)%Q).
    { apply Qnot_le_lt. intro H. apply Qle_bool_iff in H. congruence. }
    apply Qlt_le_weak, Qinv_lt_0_compat. unfold exp_series. nra.
Qed.

Lemma filter_none {A : Type} (f : A -> bool) (l : list A) :
  (forall x, In x l -> f x = false) -> filter f l = [].
Proof.
  induction l as [|x tl IH]; intro H; cbn [filter].
  - reflexivity.
  - rewrite (H x (or_introl eq_refl)). apply IH.
    intros y Hy. apply H. right. exact Hy.
Qed.

Lemma forallb_false_exists {A : Type} (f : A -> bool) (l : list A) :
  forallb f l = false -> exists x, In x l /\ f x = false.
Proof.
  induction l as [|x tl IH]; cbn [forallb]; intro H.
  - discriminate H.
  - destruct (f x) eqn:E.
    + destruct (IH H) as (y & Hy & Ey). exists y. split; [right; exact Hy|exact Ey].
    + exists x. split; [left; reflexivity|exact E].
Qed.

(** [generateSolutions] on an engine for which no chain meets the removal
    requirements returns no solution. *)
Lemma generateSolutions_none (clock : nat -> string) (this : SolutionEngine.t) :
  (forall chain, In chain TECH_CHAINS ->
                 SolutionEngine.meetsRequirements this chain = false) ->
  snd (SolutionEngine.generateSolutions clock this) = Returns [].
Proof.
  intro Hnone. unfold SolutionEngine.generateSolutions,
    SolutionEngine.filterFeasibleChains.
  pose proof (filterWith_spec clock TECH_CHAINS this) as H.
  destruct (SolutionEngine.filterWith clock TECH_CHAINS this) as [kept this'].
  destruct H as (-> & _ & _).
  rewrite (filter_none _ _ Hnone). reflexivity.
Qed.

(** No chain of the registry removes 98% of the dissolved solids. *)
Lemma TECH_CHAINS_tds_below (chain : Chain.t) :
  In chain TECH_CHAINS ->
  (Perf.tdsRemoval (calculateChainPerformance (Chain.techs chain))
   <? Fin 0.98) = true.
Proof.
  intro Hin.
  assert (H : forallb (fun chain =>
                Perf.tdsRemoval (calculateChainPerformance (Chain.techs chain))
                <? Fin 0.98) TECH_CHAINS = true) by (vm_compute; reflexivity).
  rewrite forallb_forall in H. exact (H chain Hin).
Qed.

Lemma ge_below_threshold (achieved required threshold : num) :
  (achieved <? threshold) = true -> (required >=? threshold) = true ->
  (achieved >=? required) = false.
Proof.
  destruct achieved as [a| | |], required as [r| | |],
    threshold as [t| | |]; try discriminate; try reflexivity.
  intros Ha Hr. apply lt_Fin in Ha. unfold ge in *.
  apply le_Fin in Hr. apply le_Fin_false. lra.
Qed.

(** C9 (the claim fails on [Simulator.run]).  With a budget that no chain
    can meet, no solution is feasible, and the run still returns a result
    whose [bestSolution] is defined: the top-ranked chain, infeasible. *)
Lemma run_best_solution_defined :
  forallb (fun s => negb (Sol.feasible s))
          (evaluateTechnologies tightBudgetInputs) = true /\
  exists results best,
    run exp_model sampleNow drawHalf tightBudgetInputs = Returns results /\
    Results.bestSolution results = Some best /\
    Sol.name best = "UF + RO" /\
    Sol.feasible best = false.
Proof.
  split; [vm_compute; reflexivity|].
  destruct (evaluateTechnologies_head tightBudgetInputs) as (best & rest & E).
  unfold run. rewrite E. cbn [nth_error].
  eexists. exists best. split; [reflexivity|].
  split; [reflexivity|].
  assert (Eb : nth_error (evaluateTechnologies tightBudgetInputs) 0 = Some best)
    by (rewrite E; reflexivity).
  revert Eb. clear E. vm_compute. intro Eb. injection Eb as <-.
  split; reflexivity.
Qed.

(** C9 (amended).  [Simulator.run] always returns a result whose
    [bestSolution] is the first solution of the ranking, with the
    constraint checks of that solution; when no chain satisfies all
    constraints, that solution has [feasible = false] and at least one of
    its checks has [pass = false].  [generateProposal], for a valid
    specification that requires a TDS removal of 98% or more (no chain of
    the registry reaches it), throws the error "No feasible solutions
    found for the given requirements". *)
Theorem no_feasible_chain_outcomes :
  (forall (Math_exp : num -> num) (now : Z) (rnd : N) (inputs : Inputs.t),
     exists results best,
       run Math_exp now rnd inputs = Returns results /\
       Results.bestSolution results = Some best /\
       nth_error (evaluateTechnologies inputs) 0 = Some best /\
       Results.solutions results = evaluateTechnologies inputs /\
       Results.constraints results = checkConstraints inputs best /\
       ((forall s, In s (evaluateTechnologies inputs) ->
                   Sol.feasible s = false) ->
        Sol.feasible best = false /\
        exists c, In c (Results.constraints results) /\
                  Check.pass c = false)) /\
  (forall (Math_exp : num -> num) (clock : nat -> string) (data : Data.t),
     Validation.valid (validate (CustomerSpec data)) = true ->
     (Required.tds (getRequiredRemoval (CustomerSpec data)) >=? Fin 0.98)
     = true ->
     generateProposal Math_exp clock data = Throws noFeasibleMessage).
Proof.
  split.
  - intros Math_exp now rnd inputs.
    destruct (evaluateTechnologies_head inputs) as (best & rest & E).
    assert (Hin : In best (evaluateTechnologies inputs))
      by (rewrite E; left; reflexivity).
    assert (Hnth : nth_error (evaluateTechnologies inputs) 0 = Some best)
      by (rewrite E; reflexivity).
    clear E. unfold run. cbv zeta. rewrite Hnth.
    eexists. exists best.
    split; [reflexivity|].
    cbn [Results.bestSolution Results.solutions Results.constraints].
    repeat (split; [reflexivity|]).
    intro Hnone. split; [exact (Hnone best Hin)|].
    pose proof (feasible_forallb_pass inputs best Hin) as Hf.
    rewrite (Hnone best Hin) in Hf. symmetry in Hf.
    exact (forallb_false_exists _ _ Hf).
  - intros Math_exp clock data Hvalid Hreq.
    assert (Hnone : forall chain, In chain TECH_CHAINS ->
              SolutionEngine.meetsRequirements
                (SolutionEngine.new (CustomerSpec data)) chain = false).
    { intros chain Hin. unfold SolutionEngine.meetsRequirements.
      cbn [SolutionEngine.new SolutionEngine.requiredRemoval].
      rewrite (ge_below_threshold _ _ _ (TECH_CHAINS_tds_below chain Hin) Hreq).
      reflexivity. }
    unfold generateProposal. rewrite Hvalid. cbn [negb].
    pose proof (generateSolutions_none clock _ Hnone) as Hgen.
    destruct (SolutionEngine.generateSolutions clock
                (SolutionEngine.new (CustomerSpec data))) as [engine generated].
    cbn [snd] in Hgen. rewrite Hgen. reflexivity.
Qed.

Lemma no_feasible_chain_outcomes_witness :
  Validation.valid (validate (CustomerSpec Data.empty)) = true /\
  (Required.tds (getRequiredRemoval (CustomerSpec Data.empty)) >=? Fin 0.98)
  = true /\
  generateProposal exp_model sampleClock Data.empty = Throws noFeasibleMessage.
Proof.
  split; [reflexivity|].
  split; [reflexivity|].
  apply (proj2 no_feasible_chain_outcomes exp_model sampleClock Data.empty);
    reflexivity.
Defined.

(* ------------------------------------------------------------------ *)
(** ** Ledger fingerprint *)

Lemma toInt32_range (z : Z) : (- 2 ^ 31 <= toInt32 z < 2 ^ 31)%Z.
Proof.
  unfold toInt32.
  pose proof (Z.mod_pos_bound (z + 2 ^ 31) (2 ^ 32) eq_refl) as H.
  lia.
Qed.

Lemma hashStep_range (hash : Z) (c : ascii) :
  (- 2 ^ 31 <= hashStep hash c < 2 ^ 31)%Z.
Proof.
  unfold hashStep, int32_and. rewrite Z.land_diag. apply toInt32_range.
Qed.

(** The hash is a signed 32-bit integer after every character. *)
Lemma hashLoop_range (data : string) :
  (- 2 ^ 31 <= hashLoop data < 2 ^ 31)%Z.
Proof.
  unfold hashLoop.
  assert (H : forall l h, (- 2 ^ 31 <= h < 2 ^ 31)%Z ->
                          (- 2 ^ 31 <= fold_left hashStep l h < 2 ^ 31)%Z).
  { induction l as [|c tl IH]; intros h Hh; cbn [fold_left].
    - exact Hh.
    - apply IH. apply hashStep_range. }
  apply H. lia.
Qed.

Lemma radix16_length (fuel : nat) :
  forall (k : nat) (n : N) (acc : string),
    (n < 16 ^ N.of_nat (S k))%N ->
    (String.length (Render.radix16 fuel n acc) <= S k + String.length acc)%nat.
Proof.
  induction fuel as [|fuel IH]; intros k n acc Hn; cbn [Render.radix16].
  - lia.
  - destruct (n / 16 =? 0)%N eqn:E.
    + cbn [String.length]. lia.
    + apply N.eqb_neq in E.
      destruct k as [|k].
      * exfalso. apply E. apply N.div_small. exact Hn.
      * specialize (IH k (n / 16)%N
                       (String (Render.hexdigit (n mod 16)) acc)).
        cbn [String.length] in IH.
        assert (Hd : (n / 16 < 16 ^ N.of_nat (S k))%N).
        { apply N.Div0.div_lt_upper_bound.
          replace (16 * 16 ^ N.of_nat (S k))%N with (16 ^ N.of_nat (S (S k)))%N.
          - exact Hn.
          - rewrite (Nat2N.inj_succ (S k)), N.pow_succ_r'. reflexivity. }
        specialize (IH Hd). lia.
Qed.

Lemma hexDigitValue_hexdigit (d : N) :
  (d < 16)%N -> hexDigitValue (Render.hexdigit d) = d.
Proof.
  intro H. unfold hexDigitValue, Render.hexdigit.
  destruct (d <? 10)%N eqn:E.
  - apply N.ltb_lt in E. rewrite N_ascii_embedding by lia.
    replace (48 + d <? 58)%N with true by (symmetry; apply N.ltb_lt; lia).
    lia.
  - apply N.ltb_ge in E. rewrite N_ascii_embedding by lia.
    replace (87 + d <? 58)%N with false by (symmetry; apply N.ltb_ge; lia).
    lia.
Qed.

Lemma hexValue_radix16 (fuel : nat) :
  forall (n : N) (acc : string),
    (n < 16 ^ N.of_nat fuel)%N ->
    hexValue_from 0 (Render.radix16 fuel n acc) = hexValue_from n acc.
Proof.
  induction fuel as [|fuel IH]; intros n acc Hn; cbn [Render.radix16].
  - change (16 ^ N.of_nat 0)%N with 1%N in Hn.
    replace n with 0%N by lia. reflexivity.
  - assert (Hmod : (n mod 16 < 16)%N) by (apply N.mod_lt; discriminate).
    destruct (n / 16 =? 0)%N eqn:E.
    + apply N.eqb_eq in E. cbn [hexValue_from].
      rewrite (hexDigitValue_hexdigit _ Hmod).
      f_equal. pose proof (N.div_mod n 16). lia.
    + rewrite IH.
      * cbn [hexValue_from]. rewrite (hexDigitValue_hexdigit _ Hmod).
        f_equal. pose proof (N.div_mod n 16). lia.
      * apply N.Div0.div_lt_upper_bound.
        rewrite Nat2N.inj_succ, N.pow_succ_r' in Hn. exact Hn.
Qed.

(** [toString16] prints all the digits of its argument: read back as a
    hexadecimal numeral, the string is the number. *)
Lemma hexValue_toString16 (n : N) : hexValue (Render.toString16 n) = n.
Proof.
  unfold hexValue, Render.toString16.
  rewrite hexValue_radix16; [reflexivity|].
  rewrite Nat2N.inj_succ, N2Nat.id, N.pow_succ_r'.
  destruct n as [|p]; [reflexivity|].
  pose proof (N.size_gt (N.pos p)) as H1.
  assert (H2 : (2 ^ N.size (N.pos p) <= 16 ^ N.size (N.pos p))%N)
    by (apply N.pow_le_mono_l; lia).
  assert (H3 : (0 < 16 ^ N.size (N.pos p))%N) by (apply N.neq_0_lt_0, N.pow_nonzero; discriminate).
  lia.
Qed.

Lemma repeat_char_length (c : ascii) (n : nat) :
  String.length (Render.repeat_char c n) = n.
Proof. induction n as [|n IH]; cbn; congruence. Qed.

Lemma string_length_append (a b : string) :
  String.length (a ++ b) = (String.length a + String.length b)%nat.
Proof. induction a as [|c a IH]; cbn; congruence. Qed.

Lemma padStart_length (n : nat) (c : ascii) (s : string) :
  (String.length s <= n)%nat -> String.length (Render.padStart n c s) = n.
Proof.
  intro H. unfold Render.padStart.
  rewrite string_length_append, repeat_char_length. lia.
Qed.

Lemma substring_prefix (a b : string) :
  String.substring 0 (String.length a) (a ++ b) = a.
Proof.
  induction a as [|c a IH]; cbn.
  - destruct b; reflexivity.
  - rewrite IH. reflexivity.
Qed.

Lemma append_cancel_l (a b b' : string) : a ++ b = a ++ b' -> b = b'.
Proof.
  induction a as [|c a IH]; cbn; intro H.
  - exact H.
  - injection H as H. apply IH. exact H.
Qed.

(** The padded hash has sixteen characters. *)
Lemma padded_hash_length (data : string) :
  String.length
    (Render.padStart 16 "0"%char
       (Render.toString16 (Z.abs_N (hashLoop data)))) = 16%nat.
Proof.
  apply padStart_length. unfold Render.toString16.
  pose proof (hashLoop_range data) as Hr.
  pose proof (radix16_length
                (S (N.to_nat (N.size (Z.abs_N (hashLoop data)))))
                7 (Z.abs_N (hashLoop data)) "") as H.
  cbn [String.length] in H.
  assert (Hn : (Z.abs_N (hashLoop data) < 16 ^ N.of_nat 8)%N).
  { change (16 ^ N.of_nat 8)%N with 4294967296%N. lia. }
  specialize (H Hn). lia.
Qed.

(** The hash part of a fingerprint is a function of the inputs, the
    solution and the timestamp: the random draw does not reach it. *)
Lemma hashPart_deterministic (now : Z) (rnd rnd' : N)
      (inputs : Inputs.t) (solution : Sol.t) :
  hashPart (generateLedgerHash now rnd inputs solution)
  = hashPart (generateLedgerHash now rnd' inputs solution).
Proof.
  assert (H : forall r,
    hashPart (generateLedgerHash now r inputs solution)
    = "0x" ++ Render.padStart 16 "0"%char
         (Render.toString16
            (Z.abs_N (hashLoop (ledgerData inputs solution now))))).
  { intro r. unfold hashPart, generateLedgerHash. cbv zeta.
    set (P := Render.padStart 16 "0"%char _).
    set (S := Render.substr 2 48 _).
    assert (HP : String.length P = 16%nat) by apply padded_hash_length.
    change ("0x" ++ P ++ S) with (String "0" (String "x" (P ++ S))).
    change 18%nat with (2 + 16)%nat. cbn [String.substring Nat.add].
    rewrite <- HP, substring_prefix. reflexivity. }
  rewrite (H rnd), (H rnd'). reflexivity.
Qed.

(** Two draws with different renderings give different fingerprints. *)
Lemma generateLedgerHash_follows_draw (now : Z) (rnd rnd' : N)
      (inputs : Inputs.t) (solution : Sol.t) :
  Render.substr 2 48 (random_toString16 rnd)
    <> Render.substr 2 48 (random_toString16 rnd') ->
  generateLedgerHash now rnd inputs solution
    <> generateLedgerHash now rnd' inputs solution.
Proof.
  intros Hneq Heq. apply Hneq. unfold generateLedgerHash in Heq.
  cbv zeta in Heq.
  apply append_cancel_l in Heq. apply append_cancel_l in Heq. exact Heq.
Qed.

(** C1 (evaluation at the failing input).  With the inputs, the selected
    solution and the timestamp all held fixed, the draws [0.5] and [0.25]
    of [Math.random()] give two different fingerprints: they share the
    eighteen characters of the hash part and differ in the suffix taken
    from the draw. *)
Theorem generateLedgerHash_not_deterministic :
  let solution := evaluateChain defaultInputs ufOnly in
  let first := generateLedgerHash sampleNow drawHalf defaultInputs solution in
  let second := generateLedgerHash sampleNow drawQuarter defaultInputs solution in
  first = "0x00000000106fe85b8" /\
  second = "0x00000000106fe85b4" /\
  first <> second /\
  hashPart first = hashPart second.
Proof.
  vm_compute. repeat split. discriminate.
Qed.

(* ------------------------------------------------------------------ *)
(** ** Margin search *)

Lemma add_Fin (a b : Q) : Fin a + Fin b = Fin (a + b).
Proof. reflexivity. Qed.

Lemma sub_Fin (a b : Q) : Fin a - Fin b = Fin (a - b).
Proof. reflexivity. Qed.

Lemma mul_Fin (a b : Q) : Fin a * Fin b = Fin (a * b).
Proof. reflexivity. Qed.

Lemma neg_Fin (a : Q) : neg (Fin a) = Fin (- a).
Proof. reflexivity. Qed.

Lemma div_Fin (a b : Q) : Qeq_bool b 0 = false -> Fin a / Fin b = Fin (a / b).
Proof. intro H. unfold div. rewrite H. reflexivity. Qed.

Lemma round_Fin (a : Q) : round (Fin a) = Fin (inject_Z (Qfloor (a + (1 # 2)))).
Proof. reflexivity. Qed.

(** Arithmetic on finite operands computes on the rationals. *)
Ltac fin_arith := cbn [add sub mul neg round].

Lemma finite_Fin (x : num) : finite x = true -> exists q, x = Fin q.
Proof. destruct x; try discriminate. intros _. eexists. reflexivity. Qed.

(** The margins the loop tests are finite numbers, thirty of them: the
    counter reaches 0.39000000000000024 and its next value,
    0.40000000000000024, is above the binary64 number 0.40. *)
Lemma testedMargins_finite :
  Forall (fun m => exists q, m = Fin q) PricingModel.testedMargins.
Proof.
  apply Forall_forall. intros m Hin. apply finite_Fin.
  assert (H : forallb finite PricingModel.testedMargins = true)
    by (vm_compute; reflexivity).
  rewrite forallb_forall in H. exact (H m Hin).
Qed.

Lemma testedMargins_length : List.length PricingModel.testedMargins = 30%nat.
Proof. vm_compute. reflexivity. Qed.

(** Once the loop has stopped with fuel to spare, more fuel changes
    nothing. *)
Lemma marginsFrom_stable (fuel : nat) :
  forall (margin : float) (n : nat),
    (List.length (PricingModel.marginsFrom fuel margin) < fuel)%nat ->
    PricingModel.marginsFrom (fuel + n) margin
    = PricingModel.marginsFrom fuel margin.
Proof.
  induction fuel as [|fuel IH]; intros margin n H.
  - cbn in H. lia.
  - cbn [Nat.add PricingModel.marginsFrom] in *.
    destruct (PrimFloat.leb margin 0.40%float); [|reflexivity].
    cbn [List.length] in H. f_equal. apply IH. lia.
Qed.

(** The fuel of [findOptimalPrice] is not what ends its loop. *)
Lemma testedMargins_fuel (n : nat) :
  map of_float (PricingModel.marginsFrom (64 + n) 0.10%float)
  = PricingModel.testedMargins.
Proof.
  unfold PricingModel.testedMargins.
  rewrite (marginsFrom_stable 64 0.10%float n); [reflexivity|].
  vm_compute. lia.
Qed.

Section PriceSearch.

Variable Math_exp : num -> num.
Hypothesis Math_exp_range : exp_range Math_exp.

Variable this : PricingModel.t.
Variables capex confidence esgScore : Q.
Hypothesis capex_value :
  Solution.capex (PricingModel.solution this) = Fin capex.
Hypothesis capex_positive : (0 < capex)%Q.
Hypothesis confidence_value :
  Solution.confidence (PricingModel.solution this) = Fin confidence.
Hypothesis esgScore_value :
  Solution.esgScore (PricingModel.solution this) = Fin esgScore.

Local Abbreviation EV := (PricingModel.expectedValueAt Math_exp this).
Local Abbreviation step := (PricingModel.searchStep Math_exp this).
Local Abbreviation search_inv := (price_search_inv Math_exp this capex).

Lemma searchLoop_fold (fuel : nat) :
  forall (margin : float) (best : num * num),
    PricingModel.searchLoop Math_exp this fuel margin best
    = fold_left step (map of_float (PricingModel.marginsFrom fuel margin)) best.
Proof.
  induction fuel as [|fuel IH]; intros margin best;
    cbn [PricingModel.searchLoop PricingModel.marginsFrom].
  - reflexivity.
  - destruct (PrimFloat.leb margin 0.40%float); [|reflexivity].
    cbn [map fold_left]. apply IH.
Qed.

(** The loop of [findOptimalPrice] ends by its own condition: any larger
    fuel gives the same result. *)
Lemma searchLoop_fuel (n : nat) (best : num * num) :
  PricingModel.searchLoop Math_exp this (64 + n) 0.10%float best
  = PricingModel.searchLoop Math_exp this 64 0.10%float best.
Proof.
  rewrite !searchLoop_fold, testedMargins_fuel. reflexivity.
Qed.

Lemma calculatePrice_Fin (m : Q) :
  exists p, PricingModel.calculatePrice this (Fin m) = Fin p.
Proof.
  unfold PricingModel.calculatePrice. rewrite capex_value.
  fin_arith. eexists. reflexivity.
Qed.

(** The modelled win probability of a finite price is a non-negative
    number. *)
Lemma calculateWinProbability_Fin (p : Q) :
  exists w, PricingModel.calculateWinProbability Math_exp this (Fin p) = Fin w
            /\ (0 <= w)%Q.
Proof.
  unfold PricingModel.calculateWinProbability.
  rewrite capex_value, confidence_value, esgScore_value.
  rewrite (div_Fin p capex (Qeq_bool_false_pos _ capex_positive)).
  rewrite (div_Fin esgScore 100 eq_refl).
  fin_arith.
  match goal with |- context [Math_exp (Fin ?z)] =>
    destruct (Math_exp_range z) as [(e & -> & He) | ->]
  end.
  - assert (Hpos : (0 < 1 + e)%Q) by lra.
    rewrite (div_Fin 1 (1 + e) (Qeq_bool_false_pos _ Hpos)).
    eexists. split; [reflexivity|].
    apply Qle_shift_div_l; [exact Hpos | lra].
  - exists 0%Q. split; [reflexivity | apply Qle_refl].
Qed.

Lemma expectedValueAt_Fin (p : Q) :
  exists w, EV (Fin p) = Fin (w * (p - capex)) /\ (0 <= w)%Q.
Proof.
  destruct (calculateWinProbability_Fin p) as (w & Hw & Hw0).
  exists w. split; [|exact Hw0].
  unfold PricingModel.expectedValueAt. rewrite Hw, capex_value.
  reflexivity.
Qed.

Lemma step_unfold (best : num * num) (margin : num) :
  step best margin
  = if EV (PricingModel.calculatePrice this margin) >? snd best
    then (PricingModel.calculatePrice this margin,
          EV (PricingModel.calculatePrice this margin))
    else best.
Proof. reflexivity. Qed.

Lemma search_inv_init :
  search_inv [] (Solution.capex (PricingModel.solution this) * Fin 1.1, Fin 0).
Proof.
  rewrite capex_value, mul_Fin.
  exists (capex * 1.1)%Q, 0%Q.
  split; [reflexivity|].
  split; [lra|]. split; [apply Qle_refl|].
  split; [|intros m []].
  destruct (expectedValueAt_Fin (capex * 1.1)) as (w & -> & Hw).
  apply le_Fin. nra.
Qed.

Lemma search_inv_step (tested : list num) (best : num * num) (m : Q) :
  search_inv tested best ->
  search_inv (tested ++ [Fin m]) (step best (Fin m)).
Proof.
  intros (bp & bev & -> & Hbp & Hbev & Hown & Hall).
  rewrite step_unfold. cbn [snd].
  destruct (calculatePrice_Fin m) as (p & Ep). rewrite Ep.
  destruct (expectedValueAt_Fin p) as (w & Eev & Hw). rewrite Eev.
  unfold gt.
  destruct (Fin bev <? Fin (w * (p - capex))) eqn:E.
  - apply lt_Fin in E.
    exists p, (w * (p - capex))%Q.
    split; [reflexivity|].
    split; [nra|]. split; [lra|].
    split; [rewrite Eev; apply le_Fin, Qle_refl|].
    intros m' Hin. apply in_app_or in Hin. destruct Hin as [Hin|[<-|[]]].
    + specialize (Hall m' Hin).
      destruct (EV (PricingModel.calculatePrice this m')) as [ev'| | |];
        try discriminate Hall; [|reflexivity].
      apply le_Fin. apply le_Fin in Hall. lra.
    + rewrite Ep, Eev. apply le_Fin, Qle_refl.
  - apply lt_Fin_false in E.
    exists bp, bev.
    split; [reflexivity|].
    split; [exact Hbp|]. split; [exact Hbev|].
    split; [exact Hown|].
    intros m' Hin. apply in_app_or in Hin. destruct Hin as [Hin|[<-|[]]].
    + exact (Hall m' Hin).
    + rewrite Ep, Eev. apply le_Fin. exact E.
Qed.

Lemma search_inv_fold (margins : list num) :
  Forall (fun m => exists q, m = Fin q) margins ->
  forall tested best,
    search_inv tested best ->
    search_inv (tested ++ margins) (fold_left step margins best).
Proof.
  induction 1 as [|m rest (q & ->) _ IH]; intros tested best Hinv;
    cbn [fold_left].
  - rewrite app_nil_r. exact Hinv.
  - replace (tested ++ Fin q :: rest)%list
      with ((tested ++ [Fin q]) ++ rest)%list
      by (rewrite <- app_assoc; reflexivity).
    apply IH. apply search_inv_step. exact Hinv.
Qed.

(** What the search does reach: for a candidate with a positive capital
    cost (and finite confidence and ESG score), the price returned is not
    below the capital cost, its margin is non-negative, and its expected
    value is not below that of any of the thirty margins the loop tests. *)
Lemma findOptimalPrice_best_of_tested :
  let best := PricingModel.findOptimalPrice Math_exp this in
  (Solution.capex (PricingModel.solution this) <=? Optimal.price best) = true /\
  (Fin 0 <=? Optimal.margin best) = true /\
  forall margin, In margin PricingModel.testedMargins ->
    (PricingModel.expectedValueAt Math_exp this
       (PricingModel.calculatePrice this margin)
     <=? PricingModel.expectedValueAt Math_exp this (Optimal.price best))
    = true.
Proof.
  unfold PricingModel.findOptimalPrice. cbv zeta.
  rewrite searchLoop_fold.
  pose proof (search_inv_fold _ testedMargins_finite [] _ search_inv_init)
    as (bp & bev & E & Hbp & Hbev & Hown & Hall).
  cbn [app] in E, Hall.
  change (map of_float (PricingModel.marginsFrom 64 0.10%float))
    with PricingModel.testedMargins.
  rewrite E. cbn [Optimal.price Optimal.margin].
  rewrite capex_value.
  split; [apply le_Fin; exact Hbp|].
  split.
  - rewrite (div_Fin bp capex (Qeq_bool_false_pos _ capex_positive)), sub_Fin.
    apply le_Fin.
    assert (H1 : (1 <= bp / capex)%Q)
      by (apply Qle_shift_div_l; [exact capex_positive | lra]).
    lra.
  - intros margin Hin. specialize (Hall margin Hin).
    destruct (EV (PricingModel.calculatePrice this margin)) as [ev| | |];
      try discriminate Hall;
      destruct (EV (Fin bp)) as [ev'| | |]; try discriminate Hown;
      try reflexivity.
    apply le_Fin. apply le_Fin in Hall. apply le_Fin in Hown. lra.
Qed.

End PriceSearch.

Lemma relaxedSolution_evaluated :
  SolutionEngine.evaluateSolution relaxedEngine ufRo = Returns relaxedSolution.
Proof. vm_compute. reflexivity. Qed.


(** The search on the sample solution: a 30% margin. *)
Example findOptimalPrice_relaxed :
  let best := PricingModel.findOptimalPrice exp_model relaxedPricing in
  Optimal.price best = Fin 2626000 /\
  Render.toFixed 4 (Optimal.margin best) = "0.3000".
Proof. vm_compute. split; reflexivity. Qed.

(* ------------------------------------------------------------------ *)
(** * Further properties of the engine *)

(* ------------------------------------------------------------------ *)
(** ** Simulator calculations: weights, scores, ranking *)

Lemma eqb_Fin (a b : Q) : eqb (Fin a) (Fin b) = true <-> (a == b)%Q.
Proof. apply Qeq_bool_iff. Qed.

Lemma Qeq_bool_false_inv (q : Q) : Qeq_bool q 0 = false -> ~ (q == 0)%Q.
Proof. intros H E. apply Qeq_bool_iff in E. congruence. Qed.

Lemma nonnegb_Fin (x : num) :
  nonnegb x = true -> exists q, x = Fin q /\ (0 <= q)%Q.
Proof.
  unfold nonnegb. rewrite andb_true_iff. intros [Hf Hle].
  destruct (finite_Fin _ Hf) as (q & ->). exists q.
  split; [reflexivity | apply le_Fin; exact Hle].
Qed.

(** The normalized weights as rationals, for finite priorities. *)
Lemma normalizeESGWeights_Fin (inputs : Inputs.t) (w c e : Q) :
  Inputs.waterPriority inputs = Fin w ->
  Inputs.carbonPriority inputs = Fin c ->
  Inputs.energyPriority inputs = Fin e ->
  exists ww wc we,
    normalizeESGWeights inputs = Weights.mk (Fin ww) (Fin wc) (Fin we) /\
    (ww + wc + we == 1)%Q /\
    ((0 <= w)%Q -> (0 <= c)%Q -> (0 <= e)%Q ->
     (0 <= ww <= 1)%Q /\ (0 <= wc <= 1)%Q /\ (0 <= we <= 1)%Q).
Proof.
  intros Hw Hc He. unfold normalizeESGWeights. rewrite Hw, Hc, He.
  cbn [add eqb].
  destruct (Qeq_bool (w + c + e) 0) eqn:E.
  - exists 0.33%Q, 0.33%Q, 0.34%Q. split; [reflexivity|].
    split; [reflexivity|]. intros _ _ _. lra.
  - rewrite !(div_Fin _ _ E).
    exists (w / (w + c + e))%Q, (c / (w + c + e))%Q, (e / (w + c + e))%Q.
    split; [reflexivity|].
    pose proof (Qeq_bool_false_inv _ E) as Hne.
    split; [field; exact Hne|].
    intros Hw0 Hc0 He0.
    assert (Hpos : (0 < w + c + e)%Q).
    { destruct (Qlt_le_dec 0 (w + c + e)) as [H|H]; [exact H|].
      exfalso. apply Hne. lra. }
    repeat split;
      first [apply Qle_shift_div_l; [exact Hpos|lra]
            |apply Qle_shift_div_r; [exact Hpos|lra]].
Qed.

(** X4.  For finite priorities that are not negative, each normalized
    ESG weight lies in [[0, 1]]; and when the three priorities are zero
    the weights are the defaults 0.33 / 0.33 / 0.34. *)
Theorem normalized_weights_in_unit_interval (inputs : Inputs.t) :
  nonnegb (Inputs.waterPriority inputs) = true ->
  nonnegb (Inputs.carbonPriority inputs) = true ->
  nonnegb (Inputs.energyPriority inputs) = true ->
  let weights := normalizeESGWeights inputs in
  (in01 (Weights.water weights) /\ in01 (Weights.carbon weights) /\
   in01 (Weights.energy weights)) /\
  (eqb (Inputs.waterPriority inputs) (Fin 0) = true ->
   eqb (Inputs.carbonPriority inputs) (Fin 0) = true ->
   eqb (Inputs.energyPriority inputs) (Fin 0) = true ->
   weights = Weights.mk (Fin 0.33) (Fin 0.33) (Fin 0.34)).
Proof.
  intros Hw Hc He.
  destruct (nonnegb_Fin _ Hw) as (w & Ew & Hw0).
  destruct (nonnegb_Fin _ Hc) as (c & Ec & Hc0).
  destruct (nonnegb_Fin _ He) as (e & Ee & He0).
  destruct (normalizeESGWeights_Fin inputs w c e Ew Ec Ee)
    as (ww & wc & we & E & _ & Hrange).
  cbv zeta. split.
  - rewrite E. cbn [Weights.water Weights.carbon Weights.energy in01].
    exact (Hrange Hw0 Hc0 He0).
  - rewrite Ew, Ec, Ee. intros Zw Zc Ze.
    apply eqb_Fin in Zw, Zc, Ze.
    unfold normalizeESGWeights. rewrite Ew, Ec, Ee. cbn [add eqb].
    assert (Z : Qeq_bool (w + c + e) 0 = true)
      by (apply Qeq_bool_iff; rewrite Zw, Zc, Ze; reflexivity).
    rewrite Z. reflexivity.
Qed.

Lemma normalized_weights_in_unit_interval_witness :
  let weights := normalizeESGWeights defaultInputs in
  nonnegb (Inputs.waterPriority defaultInputs) = true /\
  in01 (Weights.water weights) /\ in01 (Weights.carbon weights) /\
  in01 (Weights.energy weights).
Proof.
  split; [reflexivity|].
  exact (proj1 (normalized_weights_in_unit_interval defaultInputs
                  eq_refl eq_refl eq_refl)).
Defined.

(** The per-parameter score is exactly 1 when the requirement is met. *)
Lemma evaluateChain_feasible_techScore (inputs : Inputs.t) (chain : Chain.t) :
  Sol.feasible (evaluateChain inputs chain) = true ->
  Sol.techScore (evaluateChain inputs chain) = Fin 1 * Fin 1.
Proof.
  unfold evaluateChain.
  cbn -[ge le mul div or_else calculateRemovalNeeded calculateChainPerformance
        normalizeESGWeights].
  rewrite !andb_true_iff. intros [[[H1 H2] _] _]. rewrite H1, H2.
  reflexivity.
Qed.

(** X5.  For every solution of an evaluation: a feasible solution has
    technical score 1, and the confidence decision is "Auto-approve
    recommended" exactly when the solution is feasible (a feasible solution
    scores 91.5, an infeasible one at most 76.5). *)
Theorem auto_approve_iff_feasible (inputs evaluated : Inputs.t) (solution : Sol.t) :
  In solution (evaluateTechnologies evaluated) ->
  (Sol.feasible solution = true -> eqb (Sol.techScore solution) (Fin 1) = true) /\
  (Confidence.decision (calculateConfidence inputs solution)
   = "Auto-approve recommended" <-> Sol.feasible solution = true).
Proof.
  intro Hin.
  pose proof (techScore_in01 _ _ Hin) as Ht.
  apply evaluateTechnologies_In in Hin. destruct Hin as (chain & _ & ->).
  split.
  - intro Hf. rewrite (evaluateChain_feasible_techScore _ _ Hf). reflexivity.
  - unfold calculateConfidence.
    destruct (Sol.feasible (evaluateChain evaluated chain)) eqn:Hf.
    + rewrite (evaluateChain_feasible_techScore _ _ Hf).
      split; [reflexivity|]. intros _. reflexivity.
    + destruct (in01_Fin _ Ht) as (t & -> & Ht0 & Ht1).
      cbn [add mul Confidence.decision].
      match goal with |- context [Fin ?s >=? Fin 80] =>
        assert (E : (Fin s >=? Fin 80) = false) by (apply le_Fin_false; lra)
      end.
      rewrite E. split; [|discriminate].
      destruct (_ >=? Fin 50); discriminate.
Qed.

Lemma auto_approve_iff_feasible_witness :
  let solution := evaluateChain defaultInputs ufOnly in
  In solution (evaluateTechnologies defaultInputs) /\
  (Confidence.decision (calculateConfidence defaultInputs solution)
   = "Auto-approve recommended" <-> Sol.feasible solution = true).
Proof.
  intro solution.
  assert (H : In solution (evaluateTechnologies defaultInputs))
    by (apply evaluateChain_In; exact ufOnly_In).
  split; [exact H|].
  exact (proj2 (auto_approve_iff_feasible defaultInputs defaultInputs solution H)).
Defined.

Lemma in01_complement (x : num) : in01 x -> in01 (Fin 1 - x).
Proof.
  intro H. destruct (in01_Fin _ H) as (q & -> & H0 & H1).
  cbn. split; lra.
Qed.

Lemma min_one_in01 (x : Q) : (0 <= x)%Q -> in01 (min (Fin x) (Fin 1)).
Proof.
  intro H. unfold min. destruct (Fin x <=? Fin 1) eqn:E.
  - apply le_Fin in E. cbn. split; assumption.
  - exact in01_one.
Qed.

(** A mix of three numbers of the unit interval with weights of the unit
    interval that sum to 1 lies in the unit interval. *)
Lemma in01_mix (a b c : num) (wa wb wc : Q) :
  in01 a -> in01 b -> in01 c ->
  (0 <= wa)%Q -> (0 <= wb)%Q -> (0 <= wc)%Q -> (wa + wb + wc == 1)%Q ->
  in01 (a * Fin wa + b * Fin wb + c * Fin wc).
Proof.
  intros Ha Hb Hc Hwa Hwb Hwc Hsum.
  destruct (in01_Fin _ Ha) as (x & -> & ? & ?).
  destruct (in01_Fin _ Hb) as (y & -> & ? & ?).
  destruct (in01_Fin _ Hc) as (z & -> & ? & ?).
  cbn. split; nra.
Qed.

(** The additive attributes of every chain of [TECH_CHAINS] are finite and
    non-negative. *)
Lemma TECH_CHAINS_additive (chain : Chain.t) :
  In chain TECH_CHAINS ->
  let perf := calculateChainPerformance (Chain.techs chain) in
  exists e fp cf : Q,
    Perf.energy perf = Fin e /\ Perf.footprint perf = Fin fp /\
    Perf.capexFactor perf = Fin cf /\
    (0 <= e)%Q /\ (0 <= fp)%Q /\ (0 <= cf)%Q.
Proof.
  intro Hin.
  assert (H : forallb (fun chain =>
                let perf := calculateChainPerformance (Chain.techs chain) in
                nonnegb (Perf.energy perf) && nonnegb (Perf.footprint perf)
                && nonnegb (Perf.capexFactor perf)) TECH_CHAINS = true)
    by (vm_compute; reflexivity).
  rewrite forallb_forall in H. specialize (H chain Hin). cbv zeta in H.
  rewrite !andb_true_iff in H. destruct H as [[He Hfp] Hcf].
  destruct (nonnegb_Fin _ He) as (e & Ee & ?).
  destruct (nonnegb_Fin _ Hfp) as (fp & Efp & ?).
  destruct (nonnegb_Fin _ Hcf) as (cf & Ecf & ?).
  exists e, fp, cf. cbv zeta. tauto.
Qed.

Lemma scorable_Fin (inputs : Inputs.t) :
  scorable inputs ->
  exists fl mb w c e : Q,
    Inputs.flow inputs = Fin fl /\ Inputs.maxBudget inputs = Fin mb /\
    Inputs.waterPriority inputs = Fin w /\
    Inputs.carbonPriority inputs = Fin c /\
    Inputs.energyPriority inputs = Fin e /\
    (0 <= fl)%Q /\ (0 < mb)%Q /\ (0 <= w)%Q /\ (0 <= c)%Q /\ (0 <= e)%Q.
Proof.
  intros (Hfl & Hmb & Hw & Hc & He).
  destruct (nonnegb_Fin _ Hfl) as (fl & ? & ?).
  destruct (nonnegb_Fin _ Hw) as (w & ? & ?).
  destruct (nonnegb_Fin _ Hc) as (c & ? & ?).
  destruct (nonnegb_Fin _ He) as (e & ? & ?).
  apply andb_true_iff in Hmb. destruct Hmb as [Hmbf Hmbp].
  destruct (finite_Fin _ Hmbf) as (mb & Emb). rewrite Emb in Hmbp.
  apply lt_Fin in Hmbp.
  exists fl, mb, w, c, e. tauto.
Qed.

Lemma evaluateChain_costScore (inputs : Inputs.t) (chain : Chain.t) :
  scorable inputs -> In chain TECH_CHAINS ->
  in01 (Sol.costScore (evaluateChain inputs chain)).
Proof.
  intros Hs Hin.
  destruct (scorable_Fin _ Hs)
    as (fl & mb & w & c & e & Efl & Emb & _ & _ & _ & Hfl & Hmb & _).
  destruct (TECH_CHAINS_additive chain Hin)
    as (en & fp & cf & _ & _ & Ecf & _ & _ & Hcf).
  unfold evaluateChain.
  cbn [Sol.costScore].
  rewrite Ecf, Efl, Emb. cbn [mul].
  rewrite (div_Fin _ _ (Qeq_bool_false_pos _ Hmb)).
  apply in01_complement, min_one_in01.
  apply Qle_shift_div_l; [exact Hmb|]. nra.
Qed.

Lemma evaluateChain_esgScore (inputs : Inputs.t) (chain : Chain.t) :
  scorable inputs -> In chain TECH_CHAINS ->
  in01 (Sol.esgScore (evaluateChain inputs chain)).
Proof.
  intros Hs Hin.
  destruct (scorable_Fin _ Hs)
    as (fl & mb & w & c & e & _ & _ & Ew & Ec & Ee & _ & _ & Hw & Hc & He).
  destruct (TECH_CHAINS_additive chain Hin)
    as (en & fp & cf & Een & _ & _ & Hen & _ & _).
  destruct (normalizeESGWeights_Fin inputs w c e Ew Ec Ee)
    as (ww & wc & we & E & Hsum & Hrange).
  destruct (Hrange Hw Hc He) as (R1 & R2 & R3).
  unfold evaluateChain.
  cbn [Sol.esgScore].
  rewrite E, Een. cbn [Weights.water Weights.carbon Weights.energy].
  rewrite (div_Fin en 5 eq_refl).
  change (Fin en * Fin 0.5) with (Fin (en * 0.5)).
  rewrite (div_Fin (en * 0.5) 2 eq_refl).
  apply in01_mix; try lra.
  - destruct (_ >? Fin 0.5); cbn; split; discriminate.
  - apply in01_complement, min_one_in01.
    apply Qle_shift_div_l; [reflexivity | lra].
  - apply in01_complement, min_one_in01.
    apply Qle_shift_div_l; [reflexivity | lra].
Qed.

Lemma evaluated_component_scores (inputs : Inputs.t) (solution : Sol.t) :
  scorable inputs ->
  In solution (evaluateTechnologies inputs) ->
  in01 (Sol.techScore solution) /\ in01 (Sol.costScore solution) /\
  in01 (Sol.esgScore solution).
Proof.
  intros Hs Hin.
  pose proof (techScore_in01 _ _ Hin) as Ht.
  apply evaluateTechnologies_In in Hin. destruct Hin as (chain & Hc & ->).
  pose proof (evaluateChain_costScore inputs chain Hs Hc) as Hcost.
  pose proof (evaluateChain_esgScore inputs chain Hs Hc) as Hesg.
  repeat split; assumption.
Qed.

(** X7.  For a finite non-negative flow, a finite positive budget and
    finite non-negative priorities, the technical, cost, ESG and overall
    scores of every evaluated solution lie in [[0, 1]]. *)
Theorem evaluated_scores_in_unit_interval (inputs : Inputs.t) (solution : Sol.t) :
  scorable inputs ->
  In solution (evaluateTechnologies inputs) ->
  in01 (Sol.techScore solution) /\ in01 (Sol.costScore solution) /\
  in01 (Sol.esgScore solution) /\ in01 (Sol.overallScore solution).
Proof.
  intros Hs Hin.
  destruct (evaluated_component_scores inputs solution Hs Hin) as (Ht & Hcost & Hesg).
  repeat split; try assumption.
  apply evaluateTechnologies_In in Hin. destruct Hin as (chain & Hc & ->).
  change (Sol.overallScore (evaluateChain inputs chain))
    with (Sol.techScore (evaluateChain inputs chain) * Fin 0.4
          + Sol.costScore (evaluateChain inputs chain) * Fin 0.3
          + Sol.esgScore (evaluateChain inputs chain) * Fin 0.3).
  apply in01_mix; try assumption; lra.
Qed.

Lemma defaultInputs_scorable : scorable defaultInputs.
Proof. repeat split. Qed.

Lemma evaluated_scores_in_unit_interval_witness :
  let solution := evaluateChain defaultInputs ufOnly in
  scorable defaultInputs /\
  In solution (evaluateTechnologies defaultInputs) /\
  in01 (Sol.overallScore solution).
Proof.
  intro solution.
  assert (H : In solution (evaluateTechnologies defaultInputs))
    by (apply evaluateChain_In; exact ufOnly_In).
  split; [exact defaultInputs_scorable|]. split; [exact H|].
  destruct (evaluated_scores_in_unit_interval defaultInputs solution
              defaultInputs_scorable H) as (_ & _ & _ & Ho).
  exact Ho.
Defined.

(* ------------------------------------------------------------------ *)
(** ** Ranking *)

Lemma le_trans_num (x y z : num) :
  (x <=? y) = true -> (y <=? z) = true -> (x <=? z) = true.
Proof.
  destruct x, y, z; cbn; try discriminate; try reflexivity.
  rewrite !Qle_bool_iff. intros. lra.
Qed.

Section SortedByKey.
Context {A : Type} (key : A -> num).

Local Abbreviation cmp := (descending key).
Local Abbreviation R := (key_order key).

Lemma sort_insert_HdRel (x y : A) (l : list A) :
  R y x -> HdRel R y l -> HdRel R y (sort_insert cmp x l).
Proof.
  intros Hyx Hl. destruct l as [|z tl]; cbn [sort_insert].
  - constructor. exact Hyx.
  - destruct (cmp x z >? Fin 0); constructor.
    + inversion Hl; assumption.
    + exact Hyx.
Qed.

Lemma sort_insert_sorted (x : A) (l : list A) :
  finite (key x) = true -> Forall (fun a => finite (key a) = true) l ->
  Sorted R l -> Sorted R (sort_insert cmp x l).
Proof.
  intros Hx Hfin Hs. induction Hs as [|y tl Htl IH Hhd]; cbn [sort_insert].
  - repeat constructor.
  - inversion Hfin as [|? ? Hy Hfin']; subst.
    destruct (finite_Fin _ Hx) as (kx & Ex).
    destruct (finite_Fin _ Hy) as (ky & Ey).
    destruct (cmp x y >? Fin 0) eqn:E.
    + constructor; [apply IH; exact Hfin'|].
      apply sort_insert_HdRel; [|exact Hhd].
      unfold key_order, descending in *. rewrite Ex, Ey in *. cbn [sub add neg] in E.
      apply lt_Fin in E. apply le_Fin. lra.
    + constructor; [constructor; assumption|].
      constructor. unfold key_order, descending in *. rewrite Ex, Ey in *.
      cbn [sub add neg] in E. apply lt_Fin_false in E. apply le_Fin. lra.
Qed.

(** With finite keys, the array sorted by [(a, b) => key(b) - key(a)] is in
    descending order of the key. *)
Lemma Array_sort_sorted (l : list A) :
  Forall (fun a => finite (key a) = true) l ->
  Sorted R (Array_sort cmp l).
Proof.
  induction 1 as [|x tl Hx Htl IH]; cbn [Array_sort fold_right].
  - constructor.
  - apply sort_insert_sorted; [exact Hx| |exact IH].
    apply Forall_forall. intros a Ha.
    apply (proj1 (Array_sort_In cmp tl a)) in Ha.
    rewrite Forall_forall in Htl. exact (Htl a Ha).
Qed.

Lemma R_transitive : Relations_1.Transitive R.
Proof. intros a b c Hab Hbc. unfold key_order in *. eapply le_trans_num; eassumption. Qed.

End SortedByKey.

(** X8.  When the overall scores of the evaluated chains are all finite,
    [evaluateTechnologies] returns the solutions in descending order of
    overall score, so its first solution (the [bestSolution] of a run) has
    the highest overall score of all. *)
Theorem evaluateTechnologies_ranked (inputs : Inputs.t) :
  Forall (fun chain => finite (Sol.overallScore (evaluateChain inputs chain)) = true)
         TECH_CHAINS ->
  StronglySorted ranks_before (evaluateTechnologies inputs) /\
  forall best rest, evaluateTechnologies inputs = best :: rest ->
    forall solution, In solution (evaluateTechnologies inputs) ->
      (Sol.overallScore solution <=? Sol.overallScore best) = true.
Proof.
  intro Hfin.
  assert (Hs : StronglySorted ranks_before (evaluateTechnologies inputs)).
  { apply Sorted_StronglySorted; [exact (R_transitive Sol.overallScore)|].
    apply (Array_sort_sorted Sol.overallScore).
    apply Forall_forall. intros s Hs. apply in_map_iff in Hs.
    destruct Hs as (chain & <- & Hc).
    rewrite Forall_forall in Hfin. exact (Hfin chain Hc). }
  split; [exact Hs|].
  intros best rest E solution Hin. rewrite E in Hs, Hin.
  apply StronglySorted_inv in Hs. destruct Hs as [_ Hall].
  destruct Hin as [<-|Hin].
  - rewrite Forall_forall in Hfin.
    assert (Hb : In best (evaluateTechnologies inputs))
      by (rewrite E; left; reflexivity).
    apply evaluateTechnologies_In in Hb. destruct Hb as (chain & Hc & ->).
    destruct (finite_Fin _ (Hfin chain Hc)) as (q & ->).
    apply le_Fin. lra.
  - rewrite Forall_forall in Hall. exact (Hall solution Hin).
Qed.

Lemma scorable_finite_scores (inputs : Inputs.t) :
  scorable inputs ->
  Forall (fun chain => finite (Sol.overallScore (evaluateChain inputs chain)) = true)
         TECH_CHAINS.
Proof.
  intro Hs. apply Forall_forall. intros chain Hc.
  destruct (evaluated_component_scores inputs _ Hs (evaluateChain_In inputs chain Hc))
    as (Ht & Hcost & Hesg).
  change (Sol.overallScore (evaluateChain inputs chain))
    with (Sol.techScore (evaluateChain inputs chain) * Fin 0.4
          + Sol.costScore (evaluateChain inputs chain) * Fin 0.3
          + Sol.esgScore (evaluateChain inputs chain) * Fin 0.3).
  destruct (in01_Fin _ Ht) as (t & -> & _).
  destruct (in01_Fin _ Hcost) as (c & -> & _).
  destruct (in01_Fin _ Hesg) as (e & -> & _).
  reflexivity.
Qed.

Lemma evaluateTechnologies_ranked_witness :
  Forall (fun chain =>
            finite (Sol.overallScore (evaluateChain defaultInputs chain)) = true)
         TECH_CHAINS /\
  StronglySorted ranks_before (evaluateTechnologies defaultInputs).
Proof.
  pose proof (scorable_finite_scores defaultInputs defaultInputs_scorable) as H.
  split; [exact H|].
  exact (proj1 (evaluateTechnologies_ranked defaultInputs H)).
Defined.

(* ------------------------------------------------------------------ *)
(** ** Mass balance and ESG composite *)

Lemma evaluateChain_recovery (inputs : Inputs.t) (chain : Chain.t) :
  Sol.recovery (evaluateChain inputs chain) = Fin 0.75 \/
  Sol.recovery (evaluateChain inputs chain) = Fin 0.9.
Proof.
  unfold evaluateChain. cbn [Sol.recovery].
  destruct (_ >? Fin 0.5); [left|right]; reflexivity.
Qed.

(** What an evaluated solution carries: finite removals of the unit
    interval, a recovery of 0.75 or 0.9 and a finite non-negative energy. *)
Lemma evaluated_solution_shape (evaluated : Inputs.t) (solution : Sol.t) :
  In solution (evaluateTechnologies evaluated) ->
  exists rtss rtds rec en : Q,
    Sol.tssRemoval solution = Fin rtss /\ Sol.tdsRemoval solution = Fin rtds /\
    Sol.recovery solution = Fin rec /\ Sol.energy solution = Fin en /\
    (0 <= rtss <= 1)%Q /\ (0 <= rtds <= 1)%Q /\
    (rec = 0.75%Q \/ rec = 0.9%Q) /\ (0 <= en)%Q.
Proof.
  intro Hin. apply evaluateTechnologies_In in Hin.
  destruct Hin as (chain & Hc & ->).
  destruct (TECH_CHAINS_removals_in01 chain Hc) as (Htss & Htds & _).
  destruct (in01_Fin _ Htss) as (rtss & Etss & ?).
  destruct (in01_Fin _ Htds) as (rtds & Etds & ?).
  destruct (TECH_CHAINS_additive chain Hc) as (en & fp & cf & Een & _ & _ & Hen & _).
  destruct (evaluateChain_recovery evaluated chain) as [Er|Er].
  - exists rtss, rtds, 0.75%Q, en.
    change (Sol.tssRemoval (evaluateChain evaluated chain))
      with (Perf.tssRemoval (calculateChainPerformance (Chain.techs chain))).
    change (Sol.tdsRemoval (evaluateChain evaluated chain))
      with (Perf.tdsRemoval (calculateChainPerformance (Chain.techs chain))).
    change (Sol.energy (evaluateChain evaluated chain))
      with (Perf.energy (calculateChainPerformance (Chain.techs chain))).
    tauto.
  - exists rtss, rtds, 0.9%Q, en.
    change (Sol.tssRemoval (evaluateChain evaluated chain))
      with (Perf.tssRemoval (calculateChainPerformance (Chain.techs chain))).
    change (Sol.tdsRemoval (evaluateChain evaluated chain))
      with (Perf.tdsRemoval (calculateChainPerformance (Chain.techs chain))).
    change (Sol.energy (evaluateChain evaluated chain))
      with (Perf.energy (calculateChainPerformance (Chain.techs chain))).
    tauto.
Qed.

(** X10.  With a flow of zero the reject concentrations are not guarded:
    for an evaluated solution and finite feed concentrations both are
    [NaN] (zero load over zero reject flow). *)
Theorem mass_balance_zero_flow (inputs evaluated : Inputs.t) (solution : Sol.t) :
  In solution (evaluateTechnologies evaluated) ->
  Inputs.flow inputs = Fin 0 ->
  finite (Inputs.tss inputs) = true -> finite (Inputs.tds inputs) = true ->
  MassBalance.Creject (calculateMassBalance inputs solution) = (NaN, NaN).
Proof.
  intros Hin Hflow Htss Htds.
  destruct (finite_Fin _ Htss) as (tss & Etss).
  destruct (finite_Fin _ Htds) as (tds & Etds).
  destruct (evaluated_solution_shape _ _ Hin)
    as (rtss & rtds & rec & en & Ertss & Ertds & Erec & _ & _ & _ & Hrec & _).
  unfold calculateMassBalance. rewrite Hflow, Etss, Etds, Ertss, Ertds, Erec.
  cbn [MassBalance.Creject mul sub add neg fst snd].
  assert (Hz : forall a b : Q, (a == 0)%Q -> (b == 0)%Q -> Fin a / Fin b = NaN).
  { intros a b Ha Hb. unfold div.
    rewrite (proj2 (Qeq_bool_iff b 0) Hb).
    rewrite (proj1 (Qeq_alt a 0) Ha). reflexivity. }
  rewrite !Hz; [reflexivity| | | |]; ring.
Qed.

Lemma mass_balance_zero_flow_witness :
  let inputs := Inputs.mk (Fin 1) (Fin 0) (Fin 8000) (Fin 150) (Fin 2500)
                  (Fin 200) (Fin 350) (Fin 5) (Fin 500) (Fin 0.5) (Fin 0.3)
                  (Fin 0.2) (Fin 500) (Fin 2000000) in
  let solution := evaluateChain defaultInputs ufOnly in
  In solution (evaluateTechnologies defaultInputs) /\
  MassBalance.Creject (calculateMassBalance inputs solution) = (NaN, NaN).
Proof.
  intros inputs solution.
  assert (H : In solution (evaluateTechnologies defaultInputs))
    by (apply evaluateChain_In; exact ufOnly_In).
  split; [exact H|].
  exact (mass_balance_zero_flow inputs defaultInputs solution H
           eq_refl eq_refl eq_refl).
Defined.

Lemma max_zero_Fin (x : Q) :
  exists y, max (Fin 0) (Fin x) = Fin y /\ (0 <= y)%Q /\ (x <= y)%Q /\
            ((x <= 100)%Q -> (y <= 100)%Q).
Proof.
  unfold max. destruct (Fin 0 <=? Fin x) eqn:E.
  - apply le_Fin in E. exists x. repeat split; lra.
  - apply le_Fin_false in E. exists 0%Q. repeat split; lra.
Qed.

(** X11.  For an evaluated solution, finite non-negative flow, hours and
    priorities, the ESG composite of [calculateESGScore] never reaches 60,
    so its rating is "Moderate" or "Needs Improvement": the ratings
    "Excellent" and "Good" are never given. *)
Theorem esg_rating_never_good (inputs evaluated : Inputs.t) (solution : Sol.t) :
  In solution (evaluateTechnologies evaluated) ->
  nonnegb (Inputs.flow inputs) = true -> nonnegb (Inputs.hours inputs) = true ->
  nonnegb (Inputs.waterPriority inputs) = true ->
  nonnegb (Inputs.carbonPriority inputs) = true ->
  nonnegb (Inputs.energyPriority inputs) = true ->
  let esg := calculateESGScore inputs solution in
  (Esg.composite esg >=? Fin 60) = false /\
  (Esg.rating esg = "Moderate" \/ Esg.rating esg = "Needs Improvement").
Proof.
  intros Hin Hfl Hh Hw Hc He.
  destruct (nonnegb_Fin _ Hfl) as (fl & Efl & Hfl0).
  destruct (nonnegb_Fin _ Hh) as (h & Eh & Hh0).
  destruct (nonnegb_Fin _ Hw) as (w & Ew & Hw0).
  destruct (nonnegb_Fin _ Hc) as (c & Ec & Hc0).
  destruct (nonnegb_Fin _ He) as (e & Ee & He0).
  destruct (evaluated_solution_shape _ _ Hin)
    as (rtss & rtds & rec & en & _ & _ & Erec & Een & _ & _ & Hrec & Hen).
  destruct (normalizeESGWeights_Fin inputs w c e Ew Ec Ee)
    as (ww & wc & we & E & Hsum & Hrange).
  destruct (Hrange Hw0 Hc0 He0) as (R1 & R2 & R3).
  unfold calculateESGScore, calculateEnergy.
  rewrite E, Erec, Een, Efl, Eh.
  cbn [Energy.annualCarbon Weights.water Weights.carbon Weights.energy
       mul sub add neg].
  rewrite (div_Fin _ 1000 eq_refl). cbn [mul add neg].
  match goal with |- context [max (Fin 0) (Fin ?a)] =>
    destruct (max_zero_Fin a) as (ee & -> & Hee0 & _ & Hee100) end.
  match goal with |- context [max (Fin 0) (Fin ?a)] =>
    destruct (max_zero_Fin a) as (cr & -> & Hcr0 & _ & Hcr100) end.
  assert (Hee : (ee <= 100)%Q) by (apply Hee100; nra).
  assert (Hcr : (cr <= 100)%Q).
  { apply Hcr100.
    assert (0 <= en * fl * h * 0.233 / 1000)%Q.
    { apply Qle_shift_div_l; [reflexivity|]. 
      assert (0 <= en * fl)%Q by nra. assert (0 <= en * fl * h)%Q by nra. nra. }
    lra. }
  cbn [Esg.composite Esg.rating mul add].
  unfold ge.
  match goal with |- context [Fin 60 <=? Fin ?q] => set (comp := q) end.
  assert (Hhi : (comp <= 41.25)%Q).
  { subst comp.
    assert (ee * we <= 100 * we)%Q by nra.
    assert (cr * wc <= 100 * wc)%Q by nra.
    destruct Hrec as [-> | ->]; nra. }
  assert (E80 : (Fin 80 <=? Fin comp) = false) by (apply le_Fin_false; lra).
  assert (E60 : (Fin 60 <=? Fin comp) = false) by (apply le_Fin_false; lra).
  split; [exact E60|].
  rewrite E80, E60. destruct (Fin 40 <=? Fin comp); [left|right]; reflexivity.
Qed.

Lemma esg_rating_never_good_witness :
  let solution := evaluateChain defaultInputs ufOnly in
  let esg := calculateESGScore defaultInputs solution in
  In solution (evaluateTechnologies defaultInputs) /\
  (Esg.rating esg = "Moderate" \/ Esg.rating esg = "Needs Improvement").
Proof.
  intros solution esg.
  assert (H : In solution (evaluateTechnologies defaultInputs))
    by (apply evaluateChain_In; exact ufOnly_In).
  split; [exact H|].
  exact (proj2 (esg_rating_never_good defaultInputs defaultInputs solution H
                  eq_refl eq_refl eq_refl eq_refl eq_refl)).
Defined.

(* ------------------------------------------------------------------ *)
(** ** Operating cost, optimisation objective and win probability *)

Lemma evaluated_capex (inputs : Inputs.t) (solution : Sol.t) (flow : Q) :
  In solution (evaluateTechnologies inputs) ->
  Inputs.flow inputs = Fin flow ->
  exists cf en : Q,
    Sol.capex solution = Fin (cf * flow * 1000) /\ Sol.energy solution = Fin en /\
    (0 <= cf)%Q /\ (0 <= en)%Q.
Proof.
  intros Hin Hflow. apply evaluateTechnologies_In in Hin.
  destruct Hin as (chain & Hc & ->).
  destruct (TECH_CHAINS_additive chain Hc)
    as (en & fp & cf & Een & _ & Ecf & Hen & _ & Hcf).
  exists cf, en. unfold evaluateChain. cbn [Sol.capex Sol.energy].
  rewrite Ecf, Een, Hflow. repeat split; assumption.
Qed.

(** X13.  With a flow of zero the cost per cubic metre is not guarded: for a
    solution evaluated from such inputs (its capex is zero as well) and
    finite operating hours the total is [0] and the cost per cubic metre is
    [NaN]. *)
Theorem opex_zero_flow (inputs : Inputs.t) (solution : Sol.t) :
  In solution (evaluateTechnologies inputs) ->
  Inputs.flow inputs = Fin 0 -> finite (Inputs.hours inputs) = true ->
  let opex := calculateOPEX inputs solution in
  eqb (Opex.total opex) (Fin 0) = true /\ Opex.perCubicMeter opex = NaN.
Proof.
  intros Hin Hflow Hh.
  destruct (finite_Fin _ Hh) as (hours & Hhours).
  destruct (evaluated_capex _ _ _ Hin Hflow) as (cf & en & Ecap & Een & Hcf & Hen).
  unfold calculateOPEX, calculateEnergy.
  rewrite Hflow, Hhours, Ecap, Een.
  cbn [Energy.annualEnergy Opex.total Opex.perCubicMeter mul add].
  split.
  - apply eqb_Fin. ring.
  - unfold div.
    assert (E1 : Qeq_bool (0 * hours) 0 = true) by (apply Qeq_bool_iff; ring).
    rewrite E1.
    match goal with |- match (?a ?= 0)%Q with _ => _ end = _ =>
      assert (E2 : (a ?= 0)%Q = Eq) by (apply Qeq_alt; ring) end.
    rewrite E2. reflexivity.
Qed.

Lemma opex_zero_flow_witness :
  let inputs := Inputs.mk (Fin 1) (Fin 0) (Fin 8000) (Fin 150) (Fin 2500)
                  (Fin 200) (Fin 350) (Fin 5) (Fin 500) (Fin 0.5) (Fin 0.3)
                  (Fin 0.2) (Fin 500) (Fin 2000000) in
  let solution := evaluateChain inputs ufOnly in
  In solution (evaluateTechnologies inputs) /\
  Opex.perCubicMeter (calculateOPEX inputs solution) = NaN.
Proof.
  intros inputs solution.
  assert (H : In solution (evaluateTechnologies inputs))
    by (apply evaluateChain_In; exact ufOnly_In).
  split; [exact H|].
  exact (proj2 (opex_zero_flow inputs solution H eq_refl eq_refl)).
Defined.

(** The logistic function of a finite argument is a number of the unit
    interval, whatever exponential with the range of one computes it. *)
Lemma sigmoid_in01 (Math_exp : num -> num) :
  exp_range Math_exp ->
  forall z : Q, in01 (Fin 1 / (Fin 1 + Math_exp (neg (Fin z)))).
Proof.
  intros Math_exp_range z.
  cbn [neg]. destruct (Math_exp_range (- z)) as [(e & -> & He) | ->].
  - cbn [add]. assert (Hpos : (0 < 1 + e)%Q) by lra.
    rewrite (div_Fin _ _ (Qeq_bool_false_pos _ Hpos)). cbn [in01].
    split.
    + apply Qle_shift_div_l; [exact Hpos|]. lra.
    + apply Qle_shift_div_r; [exact Hpos|]. lra.
  - cbn. lra.
Qed.

(** X15.  Whatever exponential with the range of one is used for
    [Math.exp], the win probability of a solution evaluated from scorable
    inputs is a number of the unit interval. *)
Theorem win_probability_in_unit_interval
        (Math_exp : num -> num) (inputs : Inputs.t) (solution : Sol.t) :
  exp_range Math_exp ->
  scorable inputs ->
  In solution (evaluateTechnologies inputs) ->
  let wp := calculateWinProbability Math_exp inputs solution in
  in01 (WinProb.probability wp).
Proof.
  intros Hr Hs Hin.
  destruct (evaluated_component_scores _ _ Hs Hin) as (Ht & _ & He).
  destruct (scorable_Fin _ Hs)
    as (fl & mb & w & c & e & Efl & Emb & _ & _ & _ & Hfl & Hmb & _).
  destruct (evaluated_capex _ _ _ Hin Efl) as (cf & en & Ecap & _ & _ & _).
  destruct (in01_Fin _ Ht) as (t & Et & _).
  destruct (in01_Fin _ He) as (g & Eg & _).
  unfold calculateWinProbability. rewrite Ecap, Emb, Et, Eg.
  rewrite (div_Fin _ _ (Qeq_bool_false_pos _ Hmb)).
  cbn [WinProb.z WinProb.probability mul add].
  apply (sigmoid_in01 Math_exp Hr).
Qed.

Lemma win_probability_in_unit_interval_witness :
  let solution := evaluateChain defaultInputs ufOnly in
  In solution (evaluateTechnologies defaultInputs) /\
  in01 (WinProb.probability
          (calculateWinProbability exp_model defaultInputs solution)).
Proof.
  intros solution.
  assert (H : In solution (evaluateTechnologies defaultInputs))
    by (apply evaluateChain_In; exact ufOnly_In).
  split; [exact H|].
  exact (win_probability_in_unit_interval exp_model defaultInputs solution
           exp_model_range defaultInputs_scorable H).
Defined.

(* ------------------------------------------------------------------ *)
(** ** The proposal engine: specification and cost figures *)

Lemma num_or_truthy (x : option num) (d : num) :
  truthy d = true -> truthy (num_or x d) = true.
Proof.
  intro Hd. destruct x as [v|]; [|exact Hd].
  unfold num_or, or_else. destruct (truthy v) eqn:E; [exact E|exact Hd].
Qed.

(** X16.  Whatever the request holds, no number of a constructed
    specification is [0] or [NaN]: a missing, zero or [NaN] flow, hours,
    feed or target concentration or ESG priority is replaced by its
    default. *)
Theorem CustomerSpec_numbers_truthy (data : Data.t) :
  Forall (fun x => truthy x = true) (spec_numbers (CustomerSpec data)).
Proof.
  unfold spec_numbers, CustomerSpec.
  cbn [Spec.flowRate Spec.operatingHours Spec.feedWater Spec.targetQuality
       Spec.esgPriorities Feed.tds Feed.tss Feed.bod Feed.cod Feed.ph
       Target.tds Target.tss Target.bod Target.cod
       Weights.water Weights.carbon Weights.energy].
  repeat (apply Forall_cons; [apply num_or_truthy; reflexivity|]).
  apply Forall_nil.
Qed.

Lemma finite_not_nan (x : num) : finite x = true -> x <> NaN.
Proof. intros H E. rewrite E in H. discriminate H. Qed.

Lemma truthy_div_finite (a b : num) :
  finite a = true -> finite b = true -> truthy b = true ->
  finite (Fin 1 - a / b) = true.
Proof.
  destruct a as [a| | |]; try discriminate.
  destruct b as [b| | |]; try discriminate.
  intros _ _ Hb. cbn [truthy] in Hb. apply negb_true_iff in Hb.
  rewrite (div_Fin _ _ Hb). reflexivity.
Qed.

(** X17.  For a constructed specification whose numbers are all finite,
    none of the four required removals of [getRequiredRemoval] is [NaN]:
    the constructor's defaults keep every feed concentration away from
    zero, so no quotient is [0 / 0]. *)
Theorem constructed_spec_removal_not_nan (data : Data.t) :
  Forall (fun x => finite x = true) (spec_numbers (CustomerSpec data)) ->
  Forall (fun x => x <> NaN)
         (required_numbers (getRequiredRemoval (CustomerSpec data))).
Proof.
  intro Hfin. unfold spec_numbers in Hfin.
  repeat match goal with
         | H : Forall _ (_ :: _) |- _ => inversion H; clear H; subst
         end.
  unfold required_numbers, getRequiredRemoval.
  cbn [Required.tds Required.tss Required.bod Required.cod].
  repeat (apply Forall_cons;
          [apply finite_not_nan, truthy_div_finite;
           [assumption | assumption | apply num_or_truthy; reflexivity]|]).
  apply Forall_nil.
Qed.

Lemma constructed_spec_removal_not_nan_witness :
  Forall (fun x => x <> NaN)
         (required_numbers (getRequiredRemoval (CustomerSpec relaxedData))).
Proof.
  apply (constructed_spec_removal_not_nan relaxedData).
  repeat (apply Forall_cons; [reflexivity|]). apply Forall_nil.
Defined.

Lemma round_le (a b : Q) : (a <= b)%Q -> (round (Fin a) <=? round (Fin b)) = true.
Proof.
  intro H. cbn [round]. apply le_Fin. rewrite <- Zle_Qle.
  apply Qfloor_resp_le. lra.
Qed.

(** X18.  For a finite non-negative flow and a chain of the registry, the
    capital cost of a containerized plant (installation factor 1.15) is
    never above that of the same plant built on site (1.25), with or
    without the UV surcharge. *)
Theorem containerized_capex_not_higher
        (this : SolutionEngine.t) (chain : Chain.t) :
  In chain TECH_CHAINS ->
  nonnegb (Spec.flowRate (SolutionEngine.spec this)) = true ->
  let perf := calculateChainPerformance (Chain.techs chain) in
  (SolutionEngine.calculateCapex (withContainerized true this) perf
     (Chain.techs chain)
   <=? SolutionEngine.calculateCapex (withContainerized false this) perf
         (Chain.techs chain))
  = true.
Proof.
  intros Hin Hf perf.
  destruct (nonnegb_Fin _ Hf) as (f & Ef & Hf0).
  destruct (TECH_CHAINS_additive chain Hin)
    as (en & fp & cf & _ & _ & Ecf & _ & _ & Hcf0).
  unfold SolutionEngine.calculateCapex, withContainerized.
  cbn [SolutionEngine.spec Spec.flowRate Spec.constraints_ Spec.containerized
       Spec.optionalModules].
  subst perf. rewrite Ef, Ecf.
  assert (H0 : (0 <= f * 5000 * cf)%Q) by nra.
  destruct (_ && _)%bool; cbn [mul add]; apply round_le; lra.
Qed.

Lemma containerized_capex_not_higher_witness :
  let perf := calculateChainPerformance (Chain.techs ufRo) in
  In ufRo TECH_CHAINS /\
  (SolutionEngine.calculateCapex (withContainerized true relaxedEngine) perf
     (Chain.techs ufRo)
   <=? SolutionEngine.calculateCapex (withContainerized false relaxedEngine) perf
         (Chain.techs ufRo)) = true.
Proof.
  intro perf.
  assert (H : In ufRo TECH_CHAINS) by (left; reflexivity).
  split; [exact H|].
  exact (containerized_capex_not_higher relaxedEngine ufRo H eq_refl).
Defined.

Lemma pow_Fin (q : Q) (n : nat) : pow (Fin q) n = Fin (Qpow q n).
Proof.
  induction n as [|n IH]; [reflexivity|].
  cbn [pow Qpow]. rewrite IH. reflexivity.
Qed.

Lemma Qpow_pos (q : Q) (n : nat) : (0 < q)%Q -> (0 < Qpow q n)%Q.
Proof.
  intro Hq. induction n as [|n IH]; cbn [Qpow]; [reflexivity|nra].
Qed.

Lemma npvStep_Fin (o n : Q) (year : nat) :
  SolutionEngine.npvStep (Fin o) (Fin n) year = Fin (n + o * Qpow 1.03 (year - 1) / Qpow (1 + 0.08) year).
Proof.
  unfold SolutionEngine.npvStep, CONFIG.discountRate.
  rewrite !add_Fin, !pow_Fin, mul_Fin.
  rewrite div_Fin; [reflexivity|].
  apply Qeq_bool_false_pos, Qpow_pos. reflexivity.
Qed.

Lemma npv_fold (o : Q) (years : list nat) :
  forall n : Q, exists m : Q,
    fold_left (SolutionEngine.npvStep (Fin o)) years (Fin n) = Fin m /\
    (m == n + o * npvWeights years)%Q.
Proof.
  induction years as [|year rest IH]; intro n; cbn [fold_left npvWeights fold_right].
  - exists n. split; [reflexivity|ring].
  - rewrite npvStep_Fin.
    destruct (IH (n + o * Qpow 1.03 (year - 1) / Qpow (1 + 0.08) year)%Q)
      as (m & E & Hm).
    exists m. split; [exact E|].
    rewrite Hm. fold (npvWeights rest). unfold npvWeight. field.
    intro H. pose proof (Qpow_pos (1 + 0.08) year eq_refl) as Hp.
    rewrite H in Hp. apply (Qlt_irrefl _ Hp).
Qed.

Lemma npvWeights_nonneg (years : list nat) : (0 <= npvWeights years)%Q.
Proof.
  induction years as [|year rest IH]; cbn [npvWeights fold_right].
  - apply Qle_refl.
  - fold (npvWeights rest).
    assert (0 <= npvWeight year)%Q.
    { unfold npvWeight. apply Qle_shift_div_l.
      - apply Qpow_pos. reflexivity.
      - pose proof (Qpow_pos 1.03 (year - 1) eq_refl). lra. }
    lra.
Qed.

(** X19.  For a finite capital cost and a finite annual operating cost that
    is not negative, the ten-year NPV is never below the (rounded) capital
    cost: every year adds a discounted cost that is not negative. *)
Theorem npv_at_least_capex (capex annualOpex : Q) :
  (0 <= annualOpex)%Q ->
  (round (Fin capex)
   <=? SolutionEngine.calculateNPV (Fin capex) (Fin annualOpex)) = true.
Proof.
  intro Ho. unfold SolutionEngine.calculateNPV.
  destruct (npv_fold annualOpex (seq 1 CONFIG.projectLifespan) capex)
    as (m & -> & Hm).
  pose proof (npvWeights_nonneg (seq 1 CONFIG.projectLifespan)) as Hw.
  apply round_le. rewrite Hm. nra.
Qed.

Lemma npv_at_least_capex_witness :
  (round (Fin 1000000)
   <=? SolutionEngine.calculateNPV (Fin 1000000) (Fin 100000)) = true.
Proof.
  apply (npv_at_least_capex 1000000 100000). discriminate.
Defined.

(* ------------------------------------------------------------------ *)
(** ** The proposal engine: confidence, decision trail, proposal *)

Lemma includes_In (arr : list string) (s : string) :
  includes arr s = true <-> In s arr.
Proof.
  unfold includes. rewrite existsb_exists. split.
  - intros (x & Hx & E). apply String.eqb_eq in E. subst. exact Hx.
  - intro H. exists s. split; [exact H|apply String.eqb_refl].
Qed.

Lemma inherited_not_own (sector : string) :
  includes Object_prototype_names sector = true ->
  assoc sector INDUSTRY_PRESETS = None.
Proof.
  intro H. apply includes_In in H. unfold Object_prototype_names in H.
  repeat (destruct H as [<- | H]; [reflexivity|]). destruct H.
Qed.

Lemma INDUSTRY_PRESETS_get_inherited (sector : string) :
  (exists name, INDUSTRY_PRESETS_get sector = Some (InheritedMember name)) <->
  includes Object_prototype_names sector = true.
Proof.
  unfold INDUSTRY_PRESETS_get. split.
  - intros (name & H). destruct (assoc sector INDUSTRY_PRESETS); [discriminate|].
    destruct (includes Object_prototype_names sector); [reflexivity|discriminate].
  - intro H. rewrite (inherited_not_own _ H), H. eexists. reflexivity.
Qed.

(** X21.  [SolutionEngine.calculateConfidence] throws exactly when the
    sector of the specification names a member of [Object.prototype]
    ("constructor", "toString", ...): the lookup in [INDUSTRY_PRESETS] then
    yields an object without [preferredChains].  For every other sector,
    known or not, it returns. *)
Theorem engine_confidence_throws
        (this : SolutionEngine.t) (perf : Perf.t) (chain : Chain.t) :
  (exists e, SolutionEngine.calculateConfidence this perf chain = Throws e) <->
  includes Object_prototype_names (Spec.sector (SolutionEngine.spec this)) = true.
Proof.
  rewrite <- INDUSTRY_PRESETS_get_inherited.
  unfold SolutionEngine.calculateConfidence.
  destruct (INDUSTRY_PRESETS_get (Spec.sector (SolutionEngine.spec this)))
    as [[p|name]|]; cbn [bind].
  - split; [|intros (n & H); discriminate H].
    destruct (includes (Preset.preferredChains p) (Chain.name chain));
      intros (e & H); discriminate H.
  - split; [intros _; exists name; reflexivity|].
    intros _. exists "TypeError". reflexivity.
  - split; [intros (e & H); discriminate H|intros (n & H); discriminate H].
Qed.

Lemma min_Fin (a b : Q) :
  exists c, min (Fin a) (Fin b) = Fin c /\ (c <= a)%Q /\ (c <= b)%Q /\
            (c = a \/ c = b).
Proof.
  unfold min. destruct (Fin a <=? Fin b) eqn:E.
  - apply le_Fin in E. exists a. repeat split; try lra. left. reflexivity.
  - apply le_Fin_false in E. exists b. repeat split; try lra. right. reflexivity.
Qed.

(** X22.  When the sector is not a member of [Object.prototype], the
    required TDS removal is a positive finite number and the chain reaches
    it (as every chain that passed the filter does), the confidence is a
    finite number between 0.7 and 0.95. *)
Theorem engine_confidence_range
        (this : SolutionEngine.t) (perf : Perf.t) (chain : Chain.t)
        (required achieved : Q) :
  includes Object_prototype_names (Spec.sector (SolutionEngine.spec this)) = false ->
  Required.tds (SolutionEngine.requiredRemoval this) = Fin required ->
  Perf.tdsRemoval perf = Fin achieved ->
  (0 < required)%Q -> (required <= achieved)%Q ->
  exists c, SolutionEngine.calculateConfidence this perf chain = Returns (Fin c) /\
            (0.7 <= c <= 0.95)%Q.
Proof.
  intros Hs Er Ea Hr Hra.
  assert (Hbase : exists b,
             (match INDUSTRY_PRESETS_get (Spec.sector (SolutionEngine.spec this)) with
              | None => Returns (Fin 0.7)
              | Some (OwnPreset sectorPreset) =>
                  if includes (Preset.preferredChains sectorPreset) (Chain.name chain)
                  then Returns (Fin 0.7 + Fin 0.15)
                  else Returns (Fin 0.7)
              | Some (InheritedMember _) => Throws "TypeError"
              end) = Returns (Fin b) /\ (0.7 <= b <= 0.85)%Q).
  { destruct (INDUSTRY_PRESETS_get (Spec.sector (SolutionEngine.spec this)))
      as [[p|name]|] eqn:E.
    - destruct (includes (Preset.preferredChains p) (Chain.name chain));
        eexists; (split; [reflexivity|]); cbn; lra.
    - assert (H : includes Object_prototype_names
                    (Spec.sector (SolutionEngine.spec this)) = true)
        by (apply INDUSTRY_PRESETS_get_inherited; exists name; exact E).
      congruence.
    - eexists; (split; [reflexivity|]); lra. }
  destruct Hbase as (b & Eb & Hb).
  unfold SolutionEngine.calculateConfidence. rewrite Eb. cbn [bind].
  rewrite Er, Ea. rewrite sub_Fin.
  rewrite (div_Fin _ _ (Qeq_bool_false_pos _ Hr)). rewrite mul_Fin.
  destruct (min_Fin 0.1 ((achieved - required) / required * 0.5))
    as (m & -> & Hm1 & Hm2 & Hm).
  assert (Hm0 : (0 <= m)%Q).
  { assert (Hq : (0 <= (achieved - required) / required)%Q)
      by (apply Qle_shift_div_l; [exact Hr|lra]).
    destruct Hm as [-> | ->]; lra. }
  rewrite add_Fin.
  destruct (forallb _ _); [rewrite add_Fin|];
    match goal with |- context [min (Fin 0.95) (Fin ?x)] =>
      destruct (min_Fin 0.95 x) as (c & -> & Hc1 & Hc2 & [-> | ->]) end;
    eexists; (split; [reflexivity|]); lra.
Qed.

Lemma engine_confidence_range_witness :
  exists c,
    SolutionEngine.calculateConfidence relaxedEngine
      (calculateChainPerformance (Chain.techs ufRo)) ufRo = Returns (Fin c) /\
    (0.7 <= c <= 0.95)%Q.
Proof.
  refine (engine_confidence_range relaxedEngine
            (calculateChainPerformance (Chain.techs ufRo)) ufRo
            _ _ eq_refl eq_refl eq_refl _ _).
  - reflexivity.
  - vm_compute. discriminate.
Defined.

Section DecisionTrail.

Variable clock : nat -> string.

Lemma filterCallback_trail (this : SolutionEngine.t) (chain : Chain.t) :
  let this' := snd (SolutionEngine.filterCallback clock this chain) in
  SolutionEngine.spec this' = SolutionEngine.spec this /\
  exists d,
    SolutionEngine.decisions this' = (SolutionEngine.decisions this ++ [d])%list /\
    Decision.timestamp d = clock (List.length (SolutionEngine.decisions this)).
Proof.
  unfold SolutionEngine.filterCallback.
  destruct (_ && _ && _)%bool; cbn [snd SolutionEngine.logDecision
    SolutionEngine.spec SolutionEngine.decisions];
    (split; [reflexivity|]); eexists; split; reflexivity.
Qed.

Lemma filterWith_trail (chains : list Chain.t) :
  forall this : SolutionEngine.t,
  let this' := snd (SolutionEngine.filterWith clock chains this) in
  SolutionEngine.spec this' = SolutionEngine.spec this /\
  exists added,
    SolutionEngine.decisions this' = (SolutionEngine.decisions this ++ added)%list /\
    map Decision.timestamp added
    = map clock (seq (List.length (SolutionEngine.decisions this))
                     (List.length chains)).
Proof.
  induction chains as [|chain rest IH]; intro this;
    cbn [SolutionEngine.filterWith].
  - cbn [snd]. split; [reflexivity|]. exists []. rewrite app_nil_r.
    split; reflexivity.
  - pose proof (filterCallback_trail this chain) as Hc.
    destruct (SolutionEngine.filterCallback clock this chain) as [keep this1].
    cbn [snd] in Hc. destruct Hc as (Hspec & d & Hd & Ht).
    specialize (IH this1).
    destruct (SolutionEngine.filterWith clock rest this1) as [kept this2].
    cbn [snd] in IH |- *. destruct IH as (Hspec2 & added & Hadd & Hts).
    split; [congruence|].
    exists (d :: added). split.
    + rewrite Hadd, Hd, <- app_assoc. reflexivity.
    + cbn [map List.length seq]. rewrite Ht. f_equal.
      rewrite Hts, Hd, length_app. cbn [List.length].
      rewrite Nat.add_1_r. reflexivity.
Qed.

End DecisionTrail.

(** X23.  The decision trail is append-only: [filterFeasibleChains] leaves
    the specification and the required removals of the engine as they are,
    keeps the decisions logged before as a prefix of the trail, and adds
    one decision per chain of [TECH_CHAINS], eight in all, stamped with
    eight successive readings of the clock. *)
Theorem decision_trail_append_only (clock : nat -> string)
        (this : SolutionEngine.t) :
  let this' := snd (SolutionEngine.filterFeasibleChains clock this) in
  SolutionEngine.spec this' = SolutionEngine.spec this /\
  SolutionEngine.requiredRemoval this' = SolutionEngine.requiredRemoval this /\
  exists added,
    SolutionEngine.getDecisionTrail this'
    = (SolutionEngine.getDecisionTrail this ++ added)%list /\
    List.length added = 8%nat /\
    map Decision.timestamp added
    = map clock (seq (List.length (SolutionEngine.getDecisionTrail this)) 8).
Proof.
  unfold SolutionEngine.filterFeasibleChains, SolutionEngine.getDecisionTrail.
  pose proof (filterWith_trail clock TECH_CHAINS this) as H.
  pose proof (filterWith_spec clock TECH_CHAINS this) as H2.
  destruct (SolutionEngine.filterWith clock TECH_CHAINS this) as [kept this'].
  cbn [snd] in *. destruct H as (Hspec & added & Hadd & Hts).
  destruct H2 as (_ & Hreq & _).
  split; [exact Hspec|]. split; [exact Hreq|].
  exists added. split; [exact Hadd|]. split; [|exact Hts].
  rewrite <- (length_map Decision.timestamp), Hts, length_map, length_seq.
  reflexivity.
Qed.

(* ------------------------------------------------------------------ *)
(** ** The proposal as a whole *)

Section ProposalRun.

Variable clock : nat -> string.

Lemma evaluateSolution_chain (this : SolutionEngine.t) (chain : Chain.t)
      (solution : Solution.t) :
  SolutionEngine.evaluateSolution this chain = Returns solution ->
  Solution.chain solution = chain.
Proof.
  unfold SolutionEngine.evaluateSolution.
  destruct (SolutionEngine.calculateConfidence this _ chain) as [confidence|e];
    cbn [bind]; intro H; [|discriminate H].
  injection H as <-. reflexivity.
Qed.

Lemma mapM_chains (this : SolutionEngine.t) (chains : list Chain.t) :
  forall solutions,
    mapM (SolutionEngine.evaluateSolution this) chains = Returns solutions ->
    map Solution.chain solutions = chains.
Proof.
  induction chains as [|chain rest IH]; intros solutions; cbn [mapM].
  - intro H. injection H as <-. reflexivity.
  - destruct (SolutionEngine.evaluateSolution this chain) as [s|e] eqn:Es;
      cbn [bind]; [|discriminate].
    destruct (mapM (SolutionEngine.evaluateSolution this) rest) as [ss|e];
      cbn [bind]; [|discriminate].
    intro H. injection H as <-. cbn [map].
    rewrite (evaluateSolution_chain _ _ _ Es), (IH ss eq_refl). reflexivity.
Qed.

(** The solutions [generateSolutions] returns are those of the chains the
    filter kept, rearranged. *)
Lemma generateSolutions_chains (this : SolutionEngine.t)
      (solutions : list Solution.t) :
  snd (SolutionEngine.generateSolutions clock this) = Returns solutions ->
  Permutation (map Solution.chain solutions)
              (fst (SolutionEngine.filterFeasibleChains clock this)).
Proof.
  unfold SolutionEngine.generateSolutions.
  destruct (SolutionEngine.filterFeasibleChains clock this) as [kept this'].
  cbn [fst snd].
  destruct (mapM (SolutionEngine.evaluateSolution this') kept) as [ss|e] eqn:E;
    cbn [bind]; [|discriminate].
  intro H. injection H as <-.
  rewrite <- (mapM_chains _ _ _ E). apply Permutation_map, Array_sort_perm.
Qed.

Lemma filterFeasibleChains_registry (this : SolutionEngine.t) (chain : Chain.t) :
  In chain (fst (SolutionEngine.filterFeasibleChains clock this)) ->
  In chain TECH_CHAINS.
Proof.
  unfold SolutionEngine.filterFeasibleChains.
  pose proof (filterWith_spec clock TECH_CHAINS this) as H.
  destruct (SolutionEngine.filterWith clock TECH_CHAINS this) as [kept this'].
  destruct H as (-> & _). cbn [fst]. intro Hin.
  apply filter_In in Hin. exact (proj1 Hin).
Qed.

End ProposalRun.

Lemma firstn_subset {A : Type} (n : nat) (l : list A) (x : A) :
  In x (firstn n l) -> In x l.
Proof.
  intro H. rewrite <- (firstn_skipn n l). apply in_or_app. left. exact H.
Qed.

(** X24.  Every proposal that [generateProposal] returns is for a valid
    specification, the constructed one; it lists at least one and at most
    five solutions, each for a chain of [TECH_CHAINS] that the filter
    kept, the selected solution is the first of them, and the decision
    trail has the eight decisions of the filter. *)
Theorem generateProposal_returned (Math_exp : num -> num)
        (clock : nat -> string) (data : Data.t) (proposal : Proposal.t) :
  generateProposal Math_exp clock data = Returns proposal ->
  let spec := CustomerSpec data in
  Validation.valid (validate spec) = true /\
  Proposal.specification proposal = spec /\
  nth_error (Proposal.solutions proposal) 0
  = Some (Proposal.selectedSolution proposal) /\
  (List.length (Proposal.solutions proposal) <= 5)%nat /\
  (forall solution, In solution (Proposal.solutions proposal) ->
     In (Solution.chain solution)
        (fst (SolutionEngine.filterFeasibleChains clock
                (SolutionEngine.new spec))) /\
     In (Solution.chain solution) TECH_CHAINS) /\
  List.length (Proposal.decisionTrail proposal) = 8%nat.
Proof.
  intros Hret spec. unfold generateProposal in Hret. fold spec in Hret.
  destruct (Validation.valid (validate spec)) eqn:Hvalid;
    cbn [negb] in Hret; [|discriminate Hret].
  split; [reflexivity|].
  pose proof (generateSolutions_chains clock (SolutionEngine.new spec)) as Hch.
  pose proof (filterFeasibleChains_registry clock (SolutionEngine.new spec))
    as Hreg.
  pose proof (filterWith_trail clock TECH_CHAINS (SolutionEngine.new spec))
    as Htrail.
  unfold SolutionEngine.generateSolutions in Hret, Hch.
  unfold SolutionEngine.filterFeasibleChains in Hret, Hch, Hreg |- *.
  destruct (SolutionEngine.filterWith clock TECH_CHAINS (SolutionEngine.new spec))
    as [kept engine].
  cbn [fst snd] in Hch, Hreg, Htrail |- *.
  destruct (mapM (SolutionEngine.evaluateSolution engine) kept)
    as [evaluated|e]; cbn [bind] in Hret, Hch; [|discriminate Hret].
  specialize (Hch _ eq_refl).
  destruct (Array_sort _ evaluated) as [|best rest] eqn:Es;
    [discriminate Hret|].
  remember (firstn 5 (best :: rest)) as shown eqn:Eshown in Hret.
  injection Hret as <-.
  cbn [Proposal.specification Proposal.solutions Proposal.selectedSolution
       Proposal.decisionTrail].
  split; [reflexivity|].
  split; [rewrite Eshown; reflexivity|].
  split; [rewrite Eshown; apply firstn_le_length|].
  split.
  - intros solution Hs. rewrite Eshown in Hs. apply firstn_subset in Hs.
    assert (H : In (Solution.chain solution) kept).
    { apply (Permutation_in _ Hch). apply in_map. exact Hs. }
    split; [exact H | exact (Hreg _ H)].
  - destruct Htrail as (_ & added & Hadd & Hts).
    unfold SolutionEngine.getDecisionTrail. rewrite Hadd.
    cbn [SolutionEngine.new SolutionEngine.decisions app].
    rewrite <- (length_map Decision.timestamp), Hts, length_map, length_seq.
    reflexivity.
Qed.

Lemma generateProposal_returned_witness :
  exists proposal,
    generateProposal exp_model sampleClock relaxedData = Returns proposal /\
    nth_error (Proposal.solutions proposal) 0
    = Some (Proposal.selectedSolution proposal) /\
    (List.length (Proposal.solutions proposal) <= 5)%nat /\
    List.length (Proposal.decisionTrail proposal) = 8%nat.
Proof.
  destruct (generateProposal exp_model sampleClock relaxedData)
    as [proposal|e] eqn:E.
  - exists proposal. split; [reflexivity|].
    destruct (generateProposal_returned exp_model sampleClock relaxedData
                proposal E) as (_ & _ & H1 & H2 & _ & H3).
    repeat split; assumption.
  - exfalso. revert E. vm_compute. discriminate.
Defined.

(* ------------------------------------------------------------------ *)
(** ** The proposal engine: pricing figures *)

Lemma round_near (x : Q) :
  exists r : Q, round (Fin x) = Fin r /\ (x - (1 # 2) < r)%Q /\ (r <= x + (1 # 2))%Q.
Proof.
  eexists. split; [reflexivity|].
  pose proof (Qfloor_le (x + (1 # 2))) as Hle.
  pose proof (Qlt_floor (x + (1 # 2))) as Hlt.
  rewrite inject_Z_plus in Hlt. change (inject_Z 1) with 1%Q in Hlt.
  split; lra.
Qed.

(** X25.  The parts of a cost breakdown add up to the total only up to
    the rounding of each part: for a capital cost of at most a billion in
    absolute value the five parts of [getCapexBreakdown] sum to within 3
    of it, and for such an operating cost the four parts of
    [getOpexBreakdown] sum to within 2.5 of it. *)
Theorem breakdowns_sum_to_total (this : PricingModel.t) (capex opex : Q) :
  Solution.capex (PricingModel.solution this) = Fin capex ->
  Solution.opex (PricingModel.solution this) = Fin opex ->
  (- 1000000000 <= capex <= 1000000000)%Q ->
  (- 1000000000 <= opex <= 1000000000)%Q ->
  let c := capexParts (PricingModel.getCapexBreakdown this) in
  let o := opexParts (PricingModel.getOpexBreakdown this) in
  (Fin capex - Fin 3 <? c) = true /\ (c <? Fin capex + Fin 3) = true /\
  (Fin opex - Fin 2.5 <? o) = true /\ (o <? Fin opex + Fin 2.5) = true.
Proof.
  intros Ec Eo _ _.
  unfold PricingModel.getCapexBreakdown, PricingModel.getOpexBreakdown,
    capexParts, opexParts.
  rewrite Ec, Eo. rewrite !mul_Fin.
  destruct (round_near (capex * 0.45)) as (r1 & -> & ? & ?).
  destruct (round_near (capex * 0.25)) as (r2 & -> & ? & ?).
  destruct (round_near (capex * 0.15)) as (r3 & -> & ? & ?).
  destruct (round_near (capex * 0.08)) as (r4 & -> & ? & ?).
  destruct (round_near (capex * 0.07)) as (r5 & -> & ? & ?).
  destruct (round_near (opex * 0.42)) as (s1 & -> & ? & ?).
  destruct (round_near (opex * 0.28)) as (s2 & -> & ? & ?).
  destruct (round_near (opex * 0.18)) as (s3 & -> & ? & ?).
  destruct (round_near (opex * 0.12)) as (s4 & -> & ? & ?).
  rewrite !add_Fin, !sub_Fin.
  split; [apply lt_Fin; lra|]. split; [apply lt_Fin; lra|].
  split; [apply lt_Fin; lra|]. apply lt_Fin; lra.
Qed.

Lemma breakdowns_sum_to_total_witness :
  let c := capexParts (PricingModel.getCapexBreakdown relaxedPricing) in
  (Solution.capex relaxedSolution - Fin 3 <? c) = true /\
  (c <? Solution.capex relaxedSolution + Fin 3) = true.
Proof.
  intro c.
  destruct (breakdowns_sum_to_total relaxedPricing _ _ eq_refl eq_refl)
    as (H1 & H2 & _).
  - split; discriminate.
  - split; discriminate.
  - split; assumption.
Defined.

Lemma exp_series_ge_1 (q : Q) : (0 <= q)%Q -> (1 <= exp_series q)%Q.
Proof.
  intro H. unfold exp_series.
  assert (0 <= q * q)%Q by nra.
  assert (0 <= q * q * q)%Q by nra.
  assert (0 <= q * q * q * q)%Q by nra.
  lra.
Qed.

Lemma exp_series_monotone (a b : Q) :
  (0 <= a)%Q -> (a <= b)%Q -> (exp_series a <= exp_series b)%Q.
Proof.
  intros Ha Hab. unfold exp_series.
  assert (H2 : (a * a <= b * b)%Q) by nra.
  assert (H3 : (a * a * a <= b * b * b)%Q).
  { assert (a * a * a <= b * b * a)%Q by nra.
    assert (b * b * a <= b * b * b)%Q by nra. lra. }
  assert (H4 : (a * a * a * a <= b * b * b * b)%Q).
  { assert (0 <= a * a * a)%Q by nra.
    assert (a * a * a * a <= b * b * b * a)%Q by nra.
    assert (0 <= b * b * b)%Q by nra.
    assert (b * b * b * a <= b * b * b * b)%Q by nra. lra. }
  lra.
Qed.

Lemma exp_model_monotone : exp_monotone exp_model.
Proof.
  intros a b Hab. unfold exp_model.
  destruct (Qle_bool 0 a) eqn:Ea; destruct (Qle_bool 0 b) eqn:Eb.
  - apply Qle_bool_iff in Ea. apply le_Fin. apply exp_series_monotone; assumption.
  - apply Qle_bool_iff in Ea.
    assert (Hb : ~ (0 <= b)%Q) by (intro H; apply Qle_bool_iff in H; congruence).
    lra.
  - apply Qle_bool_iff in Eb.
    assert (Ha : ~ (0 <= a)%Q) by (intro H; apply Qle_bool_iff in H; congruence).
    apply le_Fin.
    pose proof (exp_series_ge_1 (- a)) as H1.
    pose proof (exp_series_ge_1 b Eb) as H2.
    assert (H3 : (/ exp_series (- a) <= 1)%Q).
    { apply Qle_shift_inv_r; lra. }
    lra.
  - assert (Ha : ~ (0 <= a)%Q) by (intro H; apply Qle_bool_iff in H; congruence).
    assert (Hb : ~ (0 <= b)%Q) by (intro H; apply Qle_bool_iff in H; congruence).
    apply le_Fin.
    pose proof (exp_series_ge_1 (- b)) as H1.
    pose proof (exp_series_monotone (- b) (- a)) as H2.
    apply Qle_shift_inv_r; [lra|].
    assert (H3 : (0 < / exp_series (- b))%Q) by (apply Qinv_lt_0_compat; lra).
    assert (H4 : (/ exp_series (- b) * exp_series (- b) == 1)%Q)
      by (field; lra).
    assert (H5 : (exp_series (- b) <= exp_series (- a))%Q) by (apply H2; lra).
    nra.
Qed.

Section PriceResponse.

Variable Math_exp : num -> num.
Hypothesis Math_exp_range : exp_range Math_exp.

Variable this : PricingModel.t.
Variables capex confidence esgScore : Q.
Hypothesis capex_value :
  Solution.capex (PricingModel.solution this) = Fin capex.
Hypothesis confidence_value :
  Solution.confidence (PricingModel.solution this) = Fin confidence.
Hypothesis esgScore_value :
  Solution.esgScore (PricingModel.solution this) = Fin esgScore.
Hypothesis capex_positive : (0 < capex)%Q.

Lemma price_z (price : Q) :
  PricingModel.calculateWinProbability Math_exp this (Fin price)
  = Fin 1 / (Fin 1 + Math_exp
       (Fin (- (3 - (price / capex - 1) * 10 + (confidence - 0.7) * 5
               + (esgScore / 100 - 0.7) * 3)))).
Proof.
  unfold PricingModel.calculateWinProbability.
  rewrite capex_value, confidence_value, esgScore_value.
  rewrite (div_Fin _ _ (Qeq_bool_false_pos _ capex_positive)).
  rewrite (div_Fin _ 100 eq_refl). reflexivity.
Qed.

Lemma price_probability_in01 (price : Q) :
  in01 (PricingModel.calculateWinProbability Math_exp this (Fin price)).
Proof.
  rewrite price_z.
  match goal with |- context [Math_exp (Fin (- ?z))] =>
    exact (sigmoid_in01 Math_exp Math_exp_range z) end.
Qed.

Hypothesis Math_exp_monotone : exp_monotone Math_exp.

Lemma price_probability_antitone (p1 p2 : Q) :
  (p1 <= p2)%Q ->
  (PricingModel.calculateWinProbability Math_exp this (Fin p2)
   <=? PricingModel.calculateWinProbability Math_exp this (Fin p1)) = true.
Proof.
  intro Hp. rewrite !price_z.
  set (z1 := (- (3 - (p1 / capex - 1) * 10 + (confidence - 0.7) * 5
                 + (esgScore / 100 - 0.7) * 3))%Q).
  set (z2 := (- (3 - (p2 / capex - 1) * 10 + (confidence - 0.7) * 5
                 + (esgScore / 100 - 0.7) * 3))%Q).
  assert (Hz : (z1 <= z2)%Q).
  { subst z1 z2.
    assert (p1 / capex <= p2 / capex)%Q.
    { apply Qle_shift_div_l; [exact capex_positive|].
      assert (p1 / capex * capex == p1)%Q by (field; lra). lra. }
    lra. }
  pose proof (Math_exp_monotone z1 z2 Hz) as Hm.
  destruct (Math_exp_range z1) as [(e1 & E1 & He1) | E1];
    destruct (Math_exp_range z2) as [(e2 & E2 & He2) | E2];
    rewrite E1, E2 in *.
  - apply le_Fin in Hm. rewrite !add_Fin.
    assert (H1 : (0 < 1 + e1)%Q) by lra.
    assert (H2 : (0 < 1 + e2)%Q) by lra.
    rewrite (div_Fin _ _ (Qeq_bool_false_pos _ H1)).
    rewrite (div_Fin _ _ (Qeq_bool_false_pos _ H2)).
    apply le_Fin.
    apply Qle_shift_div_l; [exact H1|].
    assert (H3 : (1 / (1 + e2) * (1 + e2) == 1)%Q) by (field; lra).
    assert (H4 : (0 < 1 / (1 + e2))%Q)
      by (apply Qlt_shift_div_l; [exact H2|lra]).
    nra.
  - rewrite add_Fin. assert (H1 : (0 < 1 + e1)%Q) by lra.
    rewrite (div_Fin _ _ (Qeq_bool_false_pos _ H1)).
    cbn [add div]. apply le_Fin.
    apply Qle_shift_div_l; [exact H1|lra].
  - discriminate Hm.
  - reflexivity.
Qed.

End PriceResponse.

(** X26.  For a solution with a positive finite capital cost, a
    confidence of the unit interval and an ESG score between 0 and 100,
    and for every exponential with the range of one that does not
    decrease, the win probability of the pricing model is a number of the
    unit interval and never rises with the price. *)
Theorem price_win_probability_antitone (Math_exp : num -> num)
        (this : PricingModel.t) (p1 p2 : Q) :
  exp_range Math_exp -> exp_monotone Math_exp ->
  finite (Solution.capex (PricingModel.solution this)) = true ->
  (Fin 0 <? Solution.capex (PricingModel.solution this)) = true ->
  in01 (Solution.confidence (PricingModel.solution this)) ->
  (Fin 0 <=? Solution.esgScore (PricingModel.solution this)) = true ->
  (Solution.esgScore (PricingModel.solution this) <=? Fin 100) = true ->
  (p1 <= p2)%Q ->
  in01 (PricingModel.calculateWinProbability Math_exp this (Fin p1)) /\
  in01 (PricingModel.calculateWinProbability Math_exp this (Fin p2)) /\
  (PricingModel.calculateWinProbability Math_exp this (Fin p2)
   <=? PricingModel.calculateWinProbability Math_exp this (Fin p1)) = true.
Proof.
  intros Hr Hm Hc Hpos Hconf Hesg0 Hesg100 Hp.
  destruct (finite_Fin _ Hc) as (c & Ec).
  destruct (in01_Fin _ Hconf) as (cf & Ecf & _).
  assert (Hg : exists g, Solution.esgScore (PricingModel.solution this) = Fin g).
  { destruct (Solution.esgScore (PricingModel.solution this)) as [g| | |];
      [exists g; reflexivity | | |]; discriminate. }
  destruct Hg as (g & Eg).
  rewrite Ec in Hpos. apply lt_Fin in Hpos.
  split; [exact (price_probability_in01 Math_exp Hr this c cf g Ec Ecf Eg Hpos p1)|].
  split; [exact (price_probability_in01 Math_exp Hr this c cf g Ec Ecf Eg Hpos p2)|].
  exact (price_probability_antitone Math_exp Hr this c cf g Ec Ecf Eg Hpos Hm
           p1 p2 Hp).
Qed.

Lemma price_win_probability_antitone_witness :
  (PricingModel.calculateWinProbability exp_model relaxedPricing (Fin 600000)
   <=? PricingModel.calculateWinProbability exp_model relaxedPricing (Fin 500000))
  = true.
Proof.
  refine (proj2 (proj2 (price_win_probability_antitone exp_model relaxedPricing
                          500000 600000 exp_model_range exp_model_monotone
                          eq_refl eq_refl _ eq_refl eq_refl _))).
  - vm_compute. split; discriminate.
  - discriminate.
Defined.

(** X27.  When the scores of the generated solutions are all finite,
    [generateSolutions] returns them in descending order of score, so the
    first one (the solution a proposal selects) has the highest score of
    all feasible chains. *)
Theorem generateSolutions_ranked (clock : nat -> string)
        (this : SolutionEngine.t) (solutions : list Solution.t) :
  snd (SolutionEngine.generateSolutions clock this) = Returns solutions ->
  Forall (fun s => finite (Solution.score s) = true) solutions ->
  StronglySorted outranks solutions /\
  forall best rest, solutions = best :: rest ->
    forall solution, In solution solutions ->
      (Solution.score solution <=? Solution.score best) = true.
Proof.
  intros Hret Hfin.
  unfold SolutionEngine.generateSolutions in Hret.
  destruct (SolutionEngine.filterFeasibleChains clock this) as [kept engine].
  cbn [snd] in Hret.
  destruct (mapM (SolutionEngine.evaluateSolution engine) kept)
    as [evaluated|e]; [|discriminate Hret].
  cbn [bind] in Hret. injection Hret as <-.
  assert (Hs : StronglySorted outranks
                 (Array_sort (fun a b => Solution.score b - Solution.score a)
                             evaluated)).
  { apply Sorted_StronglySorted; [exact (R_transitive Solution.score)|].
    apply (Array_sort_sorted Solution.score).
    apply Forall_forall. intros s Hs. rewrite Forall_forall in Hfin.
    apply Hfin. apply Array_sort_In. exact Hs. }
  split; [exact Hs|].
  intros best rest E solution Hin. rewrite E in Hs, Hin, Hfin.
  apply StronglySorted_inv in Hs. destruct Hs as [_ Hall].
  destruct Hin as [<-|Hin].
  - inversion Hfin as [|? ? Hb _]; subst.
    destruct (finite_Fin _ Hb) as (q & ->). apply le_Fin. lra.
  - rewrite Forall_forall in Hall. exact (Hall solution Hin).
Qed.

Lemma generateSolutions_ranked_witness :
  StronglySorted outranks relaxedSolutions.
Proof.
  refine (proj1 (generateSolutions_ranked sampleClock relaxedEngine
                   relaxedSolutions _ _)).
  - vm_compute. reflexivity.
  - repeat constructor.
Defined.

(* ------------------------------------------------------------------ *)
(** ** The ledger fingerprint *)

Lemma repeat_char_split (c : ascii) (a b : nat) :
  Render.repeat_char c (a + b)
  = (Render.repeat_char c a ++ Render.repeat_char c b)%string.
Proof.
  induction a as [|a IH]; cbn [Render.repeat_char Nat.add append].
  - reflexivity.
  - rewrite IH. reflexivity.
Qed.

Lemma string_app_assoc (a b c : string) :
  ((a ++ b) ++ c = a ++ (b ++ c))%string.
Proof.
  induction a as [|x a IH]; cbn [append]; [reflexivity|].
  rewrite IH. reflexivity.
Qed.

Lemma hash_hex_length (data : string) :
  (String.length (Render.toString16 (Z.abs_N (hashLoop data))) <= 8)%nat.
Proof.
  unfold Render.toString16.
  pose proof (hashLoop_range data) as Hr.
  pose proof (radix16_length
                (S (N.to_nat (N.size (Z.abs_N (hashLoop data)))))
                7 (Z.abs_N (hashLoop data)) "") as H.
  cbn [String.length] in H.
  assert (Hn : (Z.abs_N (hashLoop data) < 16 ^ N.of_nat 8)%N).
  { change (16 ^ N.of_nat 8)%N with 4294967296%N. lia. }
  specialize (H Hn). lia.
Qed.

(** X28.  Every ledger fingerprint starts with "0x00000000": the hash is a
    32-bit integer, at most eight hexadecimal digits, padded to sixteen, so
    the first eight digits after "0x" are zeros whatever the inputs, the
    solution, the clock and the random draw. *)
Theorem ledger_hash_leading_zeros (now : Z) (rnd : N)
        (inputs : Inputs.t) (solution : Sol.t) :
  exists rest : string,
    generateLedgerHash now rnd inputs solution = ("0x00000000" ++ rest)%string /\
    (8 <= String.length rest)%nat.
Proof.
  unfold generateLedgerHash. cbv zeta.
  set (hex := Render.toString16 (Z.abs_N (hashLoop (ledgerData inputs solution now)))).
  set (tail := Render.substr 2 48 (random_toString16 rnd)).
  pose proof (hash_hex_length (ledgerData inputs solution now)) as Hlen.
  fold hex in Hlen.
  exists (Render.repeat_char "0" (8 - String.length hex) ++ hex ++ tail)%string.
  split.
  - unfold Render.padStart.
    replace (16 - String.length hex)%nat with (8 + (8 - String.length hex))%nat
      by lia.
    rewrite repeat_char_split.
    change (Render.repeat_char "0" 8) with "00000000"%string.
    rewrite !string_app_assoc. reflexivity.
  - rewrite !string_length_append, repeat_char_length. lia.
Qed.

(* ------------------------------------------------------------------ *)
(** ** Utility functions *)

Lemma chars_append (a b : string) :
  list_ascii_of_string (a ++ b)
  = (list_ascii_of_string a ++ list_ascii_of_string b)%list.
Proof.
  induction a as [|c a IH]; cbn [append list_ascii_of_string app].
  - reflexivity.
  - rewrite IH. reflexivity.
Qed.

Lemma special_cases (c : ascii) :
  Utils.special c = true ->
  c = "&"%char \/ c = "<"%char \/ c = ">"%char \/ c = ascii_of_nat 34
  \/ c = "'"%char.
Proof.
  unfold Utils.special. cbn [existsb]. rewrite !orb_true_iff, !Ascii.eqb_eq.
  intuition discriminate.
Qed.

Lemma markup_special (c : ascii) : markup c = true -> Utils.special c = true.
Proof.
  unfold markup, Utils.special. cbn [existsb]. rewrite !orb_true_iff.
  intuition discriminate.
Qed.

Lemma escapeHtml_length (str : string) :
  (String.length str <= String.length (Utils.escapeHtml str))%nat /\
  (forallb (fun c => negb (Utils.special c)) (list_ascii_of_string str) = false ->
   (String.length str < String.length (Utils.escapeHtml str))%nat).
Proof.
  induction str as [|c tl (IH1 & IH2)];
    cbn [Utils.escapeHtml list_ascii_of_string forallb String.length].
  - split; [lia|discriminate].
  - rewrite string_length_append.
    destruct (Utils.special c) eqn:E; cbn [negb andb].
    + apply special_cases in E.
      destruct E as [-> | [-> | [-> | [-> | ->]]]]; cbn; split; intros; lia.
    + cbn [String.length]. split; [lia|]. intro H. specialize (IH2 H). lia.
Qed.

(** X29.  The text [escapeHtml] returns for a string holds no angle bracket
    and no single or double quote, and the string comes back unchanged
    exactly when it holds none of the five characters the function
    replaces. *)
Theorem escapeHtml_no_markup (str : string) :
  forallb (fun c => negb (markup c))
          (list_ascii_of_string (Utils.escapeHtml str)) = true /\
  (Utils.escapeHtml str = str <->
   forallb (fun c => negb (Utils.special c)) (list_ascii_of_string str) = true).
Proof.
  split.
  - induction str as [|c tl IH]; cbn [Utils.escapeHtml]; [reflexivity|].
    rewrite chars_append, forallb_app, IH, andb_true_r.
    destruct (Utils.special c) eqn:E.
    + apply special_cases in E.
      destruct E as [-> | [-> | [-> | [-> | ->]]]]; reflexivity.
    + cbn [list_ascii_of_string forallb]. rewrite andb_true_r.
      destruct (markup c) eqn:M; [|reflexivity].
      apply markup_special in M. congruence.
  - split.
    + intro H.
      destruct (forallb (fun c => negb (Utils.special c))
                        (list_ascii_of_string str)) eqn:E; [reflexivity|].
      pose proof (proj2 (escapeHtml_length str) E) as Hlt.
      rewrite H in Hlt. lia.
    + induction str as [|c tl IH];
        cbn [Utils.escapeHtml list_ascii_of_string forallb]; [reflexivity|].
      intro H. apply andb_true_iff in H. destruct H as (Hc & Htl).
      apply negb_true_iff in Hc. rewrite Hc, (IH Htl). reflexivity.
Qed.

Lemma hexValue_from_append (a b : string) :
  forall v, hexValue_from v (a ++ b) = hexValue_from (hexValue_from v a) b.
Proof.
  induction a as [|c a IH]; intro v; cbn [append hexValue_from];
    [reflexivity|apply IH].
Qed.

Lemma hexValue_zeros (n : nat) : hexValue_from 0 (Render.repeat_char "0" n) = 0%N.
Proof.
  induction n as [|n IH]; cbn [Render.repeat_char hexValue_from];
    [reflexivity|exact IH].
Qed.

(** X30.  [simpleHash] returns exactly eight hexadecimal digits, and read
    back as a number they give the absolute value of the 32-bit hash of the
    string, which is at most 2^31. *)
Theorem simpleHash_eight_digits (str : string) :
  String.length (Utils.simpleHash str) = 8%nat /\
  hexValue (Utils.simpleHash str) = Z.abs_N (hashLoop str) /\
  (hexValue (Utils.simpleHash str) <= 2 ^ 31)%N.
Proof.
  unfold Utils.simpleHash. cbv zeta.
  assert (Hv : hexValue (Render.padStart 8 "0"
                 (Render.toString16 (Z.abs_N (hashLoop str))))
               = Z.abs_N (hashLoop str)).
  { unfold hexValue, Render.padStart.
    rewrite hexValue_from_append, hexValue_zeros.
    apply hexValue_toString16. }
  split; [apply padStart_length, hash_hex_length|].
  split; [exact Hv|].
  rewrite Hv. pose proof (hashLoop_range str) as Hr.
  change (2 ^ 31)%N with 2147483648%N. lia.
Qed.
